(** * pbccs: the [ccs] driver (src/main/ccs.cpp)

    A shallow embedding of the command-line driver of pbccs: the streaming
    loop of [main] that groups sub-reads into per-ZMW chunks and hands them to
    the work queue, the writer thread that drains the queue, [ThreadCount],
    [VerifyChemistry], [WriteResultsReport], and the option checks that
    precede the creation of the output file.

    Numbers are modelled as the code has them: [size_t] and [int] as [Z] with
    their wrap-around written out, [float] and [double] as IEEE-754 binary32
    and binary64 values ([spec_float] of the Standard Library, round to
    nearest even). *)

From Stdlib Require Import ZArith String Ascii List Bool Lia.
From Stdlib Require Import Floats.SpecFloat DecimalString.
Import ListNotations.

Local Open Scope string_scope.
Local Open Scope list_scope.
Local Open Scope Z_scope.

(* ================================================================== *)
(** ** Machine integers *)

Module Mach.

(** [size_t] and [int] on the LP64 targets pbccs builds for. *)
Definition size_modulus : Z := 2 ^ 64.
Definition int_modulus : Z := 2 ^ 32.
Definition int_max : Z := 2 ^ 31 - 1.
Definition int_min : Z := - 2 ^ 31.

Definition is_size (z : Z) : Prop := 0 <= z < size_modulus.
Definition is_int (z : Z) : Prop := int_min <= z <= int_max.

(** Conversion of a mathematical integer to [size_t] (reduction modulo
    2^64), as for [int -> size_t] in a [return] statement. *)
Definition to_size (z : Z) : Z := z mod size_modulus.

(** Conversion to [int]: the two's complement reading of the low 32 bits. *)
Definition to_int (z : Z) : Z :=
  (z + 2 ^ 31) mod int_modulus - 2 ^ 31.

Definition size_add (a b : Z) : Z := to_size (a + b).
Definition int_add (a b : Z) : Z := to_int (a + b).

End Mach.

(* ================================================================== *)
(** ** Floating point *)

Module F32.
Definition prec : Z := 24.
Definition emax : Z := 128.
Definition t := spec_float.
Definition of_Z (z : Z) : t := binary_normalize prec emax z 0 false.
Definition mul : t -> t -> t := SFmul prec emax.
Definition ltb : t -> t -> bool := SFltb.
Definition leb : t -> t -> bool := SFleb.
Definition is_nan (x : t) : bool :=
  match x with S754_nan => true | _ => false end.
End F32.

Module F64.
Definition prec : Z := 53.
Definition emax : Z := 1024.
Definition t := spec_float.
Definition of_Z (z : Z) : t := binary_normalize prec emax z 0 false.
Definition mul : t -> t -> t := SFmul prec emax.
Definition div : t -> t -> t := SFdiv prec emax.
End F64.

(* ================================================================== *)
(** ** Data model *)

(** [Interval(read.QueryStart(), read.QueryEnd())]. *)
Record Interval := { Left : Z; Right : Z }.

(** [ReadId]: the movie name (the code holds a [shared_ptr<string>]; the
    model holds the string it points to), the hole number and, for a
    sub-read, its interval. *)
Module ReadId.
Record t := mk {
  MovieName : string;
  HoleNumber : Z;
  ZmwInterval : option Interval
}.
End ReadId.

(** The four per-channel signal-to-noise values of a ZMW, in the order of
    the [sn] tag. *)
Record SNR := { A : F32.t; C : F32.t; G : F32.t; T : F32.t }.

(** [ReadGroupInfo], by the accessors [VerifyChemistry] and [PrepareHeader]
    call. *)
Record ReadGroupInfo := {
  RgMovieName : string;
  ReadType : string;
  BindingKit : string;
  SequencingKit : string;
  BasecallerVersion : string;
  FrameRateHz : string
}.

(** A record of the input BAM, by the accessors [main] calls on it. *)
Module BamRecord.
Record t := mk {
  MovieName : string;
  HoleNumber : Z;                (* int32_t *)
  SignalToNoise : SNR;           (* vector<float> of the four channels *)
  ReadGroup : ReadGroupInfo;
  ReadAccuracy : Z;              (* Accuracy, an int on the 0..1000 scale *)
  FullName : string;
  QueryStart : Z;
  QueryEnd : Z;
  Sequence : string;
  LocalContextFlags : Z
}.
End BamRecord.

(** [typedef ReadType<ReadId> Subread]. *)
Record Subread := {
  SubreadId : ReadId.t;
  Seq : string;
  Flags : Z;
  SubreadAccuracy : Z
}.

(** [typedef ChunkType<ReadId, Subread> Chunk]. *)
Record Chunk := {
  Id : ReadId.t;
  Reads : list Subread;
  ChunkSNR : SNR
}.

(** [Whitelist], by its one method used here. *)
Record Whitelist := { Contains : string -> Z -> bool }.

(** [ConsensusSettings], by the one field [main] reads. *)
Record ConsensusSettings := { MinPasses : Z }.

(** The molecule a record belongs to: (movie name, hole number). *)
Definition MoleculeId (read : BamRecord.t) : string * Z :=
  (BamRecord.MovieName read, BamRecord.HoleNumber read).

Definition molecule_of (id : ReadId.t) : string * Z :=
  (ReadId.MovieName id, ReadId.HoleNumber id).

(* ================================================================== *)
(** ** VerifyChemistry *)

(** [std::string::substr(0, 3)]: the first three characters, or the whole
    string when it is shorter. *)
Definition substr0 (n : nat) (s : string) : string := substring 0 n s.

Definition VerifyChemistry (readGroup : ReadGroupInfo) : bool :=
  let bcVer := substr0 3 (BasecallerVersion readGroup) in
  if (String.eqb (BindingKit readGroup) "100356300"
      && String.eqb (SequencingKit readGroup) "100356200"
      && (String.eqb bcVer "2.1" || String.eqb bcVer "2.3"))%bool
  then true
  else if (String.eqb (BindingKit readGroup) "100372700"
      && String.eqb (SequencingKit readGroup) "100356200"
      && (String.eqb bcVer "2.1" || String.eqb bcVer "2.3"))%bool
  then true
  else false.

(* ================================================================== *)
(** ** std::min_element *)

(** The loop of [std::min_element] after its first element: [smallest] is
    replaced only by a strictly smaller element. *)
Fixpoint min_element_from (smallest : F32.t) (rest : list F32.t) : F32.t :=
  match rest with
  | [] => smallest
  | x :: rest' =>
      if F32.ltb x smallest then min_element_from x rest'
      else min_element_from smallest rest'
  end.

Definition snr_vector (snr : SNR) : list F32.t := [A snr; C snr; G snr; T snr].

(** [*min_element(snr.begin(), snr.end())] on the four channels. *)
Definition min_element (snr : SNR) : F32.t :=
  min_element_from (A snr) [C snr; G snr; T snr].

(* ================================================================== *)
(** ** std::vector, by the operations the loop uses *)

(** [v.back()]; [None] on an empty vector, where the C++ call is undefined. *)
Fixpoint back {X : Type} (v : list X) : option X :=
  match v with
  | [] => None
  | [x] => Some x
  | _ :: v' => back v'
  end.

(** [v.pop_back()]. *)
Definition pop_back {X : Type} (v : list X) : list X := removelast v.

(** An update through the reference [v.back()]. On an empty vector the C++
    code is undefined; the model leaves the vector as it is. The loop never
    gets there: see [append_is_defined]. *)
Fixpoint update_back {X : Type} (f : X -> X) (v : list X) : list X :=
  match v with
  | [] => []
  | [x] => [f x]
  | x :: v' => x :: update_back f v'
  end.

(* ================================================================== *)
(** ** The chunk-assembling loop of [main] (lines 390-496) *)

(** What the loop reads from the command line. *)
Record Pipeline := {
  settings : ConsensusSettings;
  minSnr : F32.t;
  minReadScore : F32.t;
  whitelist : option Whitelist
}.

(** [const size_t chunkSize = 1]. *)
Definition chunkSize : nat := 1.

(** Calls the loop makes on the outside world, in program order: the log
    lines and the submissions to the work queue. *)
Inductive Event :=
| LogTooFewPasses (id : ReadId.t) (passes : nat) (minPasses : Z)
| LogInvalidChemistry (movieName : string) (hole : Z)
| LogPoorSNR (movieName : string) (hole : Z) (threshold : F32.t)
| LogLowAccuracy (fullName : string) (accuracy : Z) (threshold : F32.t)
| ProduceWith (chunks : list Chunk) (s : ConsensusSettings).

(** The variables of [main] the loop works on. [holeNumber] and [skipZmw]
    are declared inside the loop over the files, the others before it.
    [movieNames] keeps the keys of the [map<string, shared_ptr<string>>]:
    the value stored under a key is always a copy of the key. *)
Record State := mkState {
  chunk : list Chunk;
  movieNames : list string;
  poorSNR : Z;                    (* size_t *)
  tooFewPasses : Z;               (* size_t *)
  holeNumber : option Z;          (* optional<int32_t> *)
  skipZmw : bool;
  trace : list Event
}.

Definition initial_state : State :=
  mkState [] [] 0 0 None false [].

Definition emit (e : Event) (st : State) : State :=
  mkState (chunk st) (movieNames st) (poorSNR st) (tooFewPasses st)
          (holeNumber st) (skipZmw st) (trace st ++ [e]).

Definition set_chunk (v : list Chunk) (st : State) : State :=
  mkState v (movieNames st) (poorSNR st) (tooFewPasses st)
          (holeNumber st) (skipZmw st) (trace st).

Definition set_zmw (h : option Z) (skip : bool) (st : State) : State :=
  mkState (chunk st) (movieNames st) (poorSNR st) (tooFewPasses st)
          h skip (trace st).

Definition incr_poorSNR (st : State) : State :=
  mkState (chunk st) (movieNames st) (Mach.size_add (poorSNR st) 1)
          (tooFewPasses st) (holeNumber st) (skipZmw st) (trace st).

Definition incr_tooFewPasses (st : State) : State :=
  mkState (chunk st) (movieNames st) (poorSNR st)
          (Mach.size_add (tooFewPasses st) 1)
          (holeNumber st) (skipZmw st) (trace st).

(** Lines 406-409: a movie name is registered the first time it is seen. *)
Definition intern (movieName : string) (st : State) : State :=
  if existsb (String.eqb movieName) (movieNames st) then st
  else mkState (chunk st) (movieNames st ++ [movieName]) (poorSNR st)
               (tooFewPasses st) (holeNumber st) (skipZmw st) (trace st).

(** Line 411: [!holeNumber || *holeNumber != read.HoleNumber()]. *)
Definition new_zmw (h : option Z) (read : BamRecord.t) : bool :=
  match h with
  | None => true
  | Some n => negb (n =? BamRecord.HoleNumber read)
  end.

(** [chunk->back().Reads.size() < settings.MinPasses]. *)
Definition too_few_passes (cfg : Pipeline) (c : Chunk) : bool :=
  Z.of_nat (length (Reads c)) <? MinPasses (settings cfg).

(** Lines 413-420 and again 483-490: the last chunk is dropped when it has
    fewer reads than [MinPasses]. *)
Definition drop_short (cfg : Pipeline) (st : State) : State :=
  match back (chunk st) with
  | Some c =>
      if too_few_passes cfg c then
        let st1 := emit (LogTooFewPasses (Id c) (length (Reads c))
                                         (MinPasses (settings cfg))) st in
        let st2 := incr_tooFewPasses st1 in
        set_chunk (pop_back (chunk st2)) st2
      else st
  | None => st
  end.

(** Lines 422-426: a full vector of chunks goes to the work queue and a
    new, empty one takes its place. *)
Definition submit_full (cfg : Pipeline) (st : State) : State :=
  if (chunkSize <=? length (chunk st))%nat then
    set_chunk [] (emit (ProduceWith (chunk st) (settings cfg)) st)
  else st.

(** Line 430: [whitelist && !whitelist->Contains(movieName, *holeNumber)]. *)
Definition off_whitelist (cfg : Pipeline) (read : BamRecord.t) : bool :=
  match whitelist cfg with
  | Some wl => negb (Contains wl (BamRecord.MovieName read)
                                 (BamRecord.HoleNumber read))
  | None => false
  end.

(** Line 436: [!VerifyChemistry(read.ReadGroup())]. *)
Definition invalid_chemistry (read : BamRecord.t) : bool :=
  negb (VerifyChemistry (BamRecord.ReadGroup read)).

(** Line 441: [*min_element(snr.begin(), snr.end()) < minSnr]. *)
Definition poor_snr (cfg : Pipeline) (read : BamRecord.t) : bool :=
  F32.ltb (min_element (BamRecord.SignalToNoise read)) (minSnr cfg).

(** The chunk of lines 450-456. *)
Definition new_chunk (read : BamRecord.t) : Chunk :=
  {| Id := ReadId.mk (BamRecord.MovieName read) (BamRecord.HoleNumber read) None;
     Reads := [];
     ChunkSNR := BamRecord.SignalToNoise read |}.

(** Lines 428-457: the filters on the ZMW that starts with [read]. *)
Definition start_zmw (cfg : Pipeline) (st : State) (read : BamRecord.t) : State :=
  let movieName := BamRecord.MovieName read in
  let hole := BamRecord.HoleNumber read in
  let st := set_zmw (Some hole) (skipZmw st) st in
  if off_whitelist cfg read
  then set_zmw (Some hole) true st
  else if invalid_chemistry read
  then set_zmw (Some hole) true (emit (LogInvalidChemistry movieName hole) st)
  else if poor_snr cfg read
  then set_zmw (Some hole) true
         (incr_poorSNR (emit (LogPoorSNR movieName hole (minSnr cfg)) st))
  else
    let st := set_zmw (Some hole) false st in
    set_chunk (chunk st ++ [new_chunk read]) st.

(** The [Subread] built at lines 471-478. *)
Definition make_subread (hole : Z) (read : BamRecord.t) : Subread :=
  {| SubreadId := ReadId.mk (BamRecord.MovieName read) hole
                    (Some {| Left := BamRecord.QueryStart read;
                             Right := BamRecord.QueryEnd read |});
     Seq := BamRecord.Sequence read;
     Flags := BamRecord.LocalContextFlags read;
     SubreadAccuracy := BamRecord.ReadAccuracy read |}.

Definition push_read (r : Subread) (c : Chunk) : Chunk :=
  {| Id := Id c; Reads := Reads c ++ [r]; ChunkSNR := ChunkSNR c |}.

(** Line 463: [static_cast<float>(read.ReadAccuracy()) < minReadScore]. *)
Definition low_accuracy (cfg : Pipeline) (read : BamRecord.t) : bool :=
  F32.ltb (F32.of_Z (BamRecord.ReadAccuracy read)) (minReadScore cfg).

(** [*holeNumber] where the loop has set it; 0 stands for the undefined
    read of an empty optional, which the loop never performs: see
    [append_is_defined]. *)
Definition hole_of (st : State) : Z :=
  match holeNumber st with Some h => h | None => 0 end.

(** Lines 460-478: the read itself. *)
Definition accept_read (cfg : Pipeline) (st : State) (read : BamRecord.t) : State :=
  if skipZmw st then st
  else if low_accuracy cfg read then
    emit (LogLowAccuracy (BamRecord.FullName read)
                         (BamRecord.ReadAccuracy read) (minReadScore cfg)) st
  else
    set_chunk (update_back (push_read (make_subread (hole_of st) read))
                           (chunk st)) st.

(** Lines 411-458: what is done when [read] starts a new ZMW. *)
Definition boundary (cfg : Pipeline) (st : State) (read : BamRecord.t) : State :=
  start_zmw cfg (submit_full cfg (drop_short cfg st)) read.

(** The body of the loop over the records of a file (lines 403-478). *)
Definition on_read (cfg : Pipeline) (st : State) (read : BamRecord.t) : State :=
  let st := intern (BamRecord.MovieName read) st in
  let st := if new_zmw (holeNumber st) read then boundary cfg st read else st in
  accept_read cfg st read.

(** Lines 395-400: [holeNumber] and [skipZmw] are fresh for every file. *)
Definition open_file (st : State) : State := set_zmw None false st.

(** One input file: lines 393-480. *)
Definition process_file (cfg : Pipeline) (st : State)
                        (query : list BamRecord.t) : State :=
  fold_left (on_read cfg) query (open_file st).

Definition process_files (cfg : Pipeline) (st : State)
                         (files : list (list BamRecord.t)) : State :=
  fold_left (process_file cfg) files st.

(** Lines 482-496: after the last file. *)
Definition submit_rest (cfg : Pipeline) (st : State) : State :=
  match chunk st with
  | [] => st
  | _ :: _ => set_chunk [] (emit (ProduceWith (chunk st) (settings cfg)) st)
  end.

Definition finish (cfg : Pipeline) (st : State) : State :=
  submit_rest cfg (drop_short cfg st).

(** The whole of lines 390-496. *)
Definition assemble (cfg : Pipeline) (files : list (list BamRecord.t)) : State :=
  finish cfg (process_files cfg initial_state files).

(** The chunk vectors handed to the work queue, in order. *)
Fixpoint submissions (tr : list Event) : list (list Chunk) :=
  match tr with
  | [] => []
  | ProduceWith v _ :: tr' => v :: submissions tr'
  | _ :: tr' => submissions tr'
  end.

(* ================================================================== *)
(** ** Results and the writer thread (lines 96-180) *)

(** [typedef ConsensusType<ReadId> CCS], by the fields [Writer] names a
    record after; the rest of the consensus stays in [Payload]. *)
Record CCS := {
  CcsId : ReadId.t;
  Payload : string
}.

(** Modelled from the spec: [ResultType<CCS>] of pacbio/ccs/Consensus.h, a
    vector of consensus records that also carries one counter per outcome
    (3, AggregateCounts; 6, Report). *)
Record Results := mkResults {
  Records : list CCS;
  Success : Z;
  PoorSNR : Z;
  NoSubreads : Z;
  TooShort : Z;
  TooFewPasses : Z;
  TooManyUnusable : Z;
  NonConvergent : Z;
  PoorQuality : Z
}.

(** [Results counts;] *)
Definition empty_results : Results := mkResults [] 0 0 0 0 0 0 0 0.

(** Modelled from the spec: [counts += batch_counts] of
    pacbio/ccs/Consensus.h accumulates every outcome counter; the records of
    the left operand stay. *)
Definition results_add (counts other : Results) : Results :=
  mkResults (Records counts)
    (Mach.size_add (Success counts) (Success other))
    (Mach.size_add (PoorSNR counts) (PoorSNR other))
    (Mach.size_add (NoSubreads counts) (NoSubreads other))
    (Mach.size_add (TooShort counts) (TooShort other))
    (Mach.size_add (TooFewPasses counts) (TooFewPasses other))
    (Mach.size_add (TooManyUnusable counts) (TooManyUnusable other))
    (Mach.size_add (NonConvergent counts) (NonConvergent other))
    (Mach.size_add (PoorQuality counts) (PoorQuality other)).

(** Modelled from the spec: [Results::Total()] of pacbio/ccs/Consensus.h,
    the number of molecules seen, that is the sum of the outcome counters. *)
Definition Total (counts : Results) : Z :=
  Mach.to_size (Success counts + PoorSNR counts + NoSubreads counts
                + TooShort counts + TooFewPasses counts
                + TooManyUnusable counts + NonConvergent counts
                + PoorQuality counts).

(** Decimal text of an integer, as [operator<<] prints it. *)
Definition decimal (z : Z) : string := NilZero.string_of_int (Z.to_int z).

(** The record [Writer] builds for one consensus: its name and the
    consensus the sequence, qualities and tags are taken from. *)
Record BamRecordImpl := {
  Name : string;
  Source : CCS
}.

(** The two files the writer thread owns: the records written to [ccsBam],
    the records added to [ccsPbi] (when there is one) with the position the
    writer reported for each, and the number of [TryFlush] calls. *)
Record Sink := mkSink {
  ccsBam : list BamRecordImpl;
  ccsPbi : option (list (BamRecordImpl * nat));
  flushes : nat
}.

Definition make_record (ccs : CCS) : BamRecordImpl :=
  {| Name := ReadId.MovieName (CcsId ccs) ++ "/"
             ++ decimal (ReadId.HoleNumber (CcsId ccs)) ++ "/ccs";
     Source := ccs |}.

(** The body of the loop of [Writer] (lines 109-170). *)
Definition write_one (out : Sink) (ccs : CCS) : Sink :=
  let record := make_record ccs in
  let offset := List.length (ccsBam out) in
  mkSink (ccsBam out ++ [record])
         (match ccsPbi out with
          | Some idx => Some (idx ++ [(record, offset)])
          | None => None
          end)
         (flushes out).

(** [Writer] (lines 105-172). *)
Definition Writer (acc : Sink * Results) (results : Results) : Sink * Results :=
  let counts := results_add (snd acc) results in
  let out := fold_left write_one (Records results) (fst acc) in
  (mkSink (ccsBam out) (ccsPbi out) (S (flushes out)), counts).

(** [WriterThread] (lines 175-180), on the results [ConsumeWith] hands to
    [Writer] one after the other until it returns false. *)
Definition WriterThread (delivered : list Results) (out : Sink) : Sink * Results :=
  fold_left Writer delivered (out, empty_results).

(* ================================================================== *)
(** ** ThreadCount (lines 222-230) *)

(** [hw] is what [thread::hardware_concurrency()] returns, an [unsigned];
    [n] is the [int] argument; the result is a [size_t]. *)
Definition ThreadCount (hw : Z) (n : Z) : Z :=
  let m := Mach.to_int hw in
  if n <? 1 then Mach.to_size (Z.max 1 (Mach.int_add m n))
  else Mach.to_size (Z.min m n).

(* ================================================================== *)
(** ** WriteResultsReport (lines 233-262) *)

Inductive floatfield := FloatDefault | FloatFixed.

(** What an [ostream] has been asked to print. A double is kept with the
    float format and precision the stream was in when it was inserted. *)
Inductive Token :=
| TString (s : string)
| TSize (n : Z)
| TDouble (fmt : floatfield) (digits : Z) (x : F64.t)
| TChar (c : ascii)
| TEndl.

Record ostream := mkStream {
  fmtflags : floatfield;
  precision : Z;
  written : list Token
}.

(** A freshly opened stream: default float format, precision 6. *)
Definition fresh_stream : ostream := mkStream FloatDefault 6 [].

Definition put (t : Token) (os : ostream) : ostream :=
  mkStream (fmtflags os) (precision os) (written os ++ [t]).

Definition fixed (os : ostream) : ostream :=
  mkStream FloatFixed (precision os) (written os).
Definition setprecision (n : Z) (os : ostream) : ostream :=
  mkStream (fmtflags os) n (written os).
Definition put_string (s : string) := put (TString s).
Definition put_size (n : Z) := put (TSize n).
Definition put_char (c : ascii) := put (TChar c).
Definition put_double (x : F64.t) (os : ostream) : ostream :=
  put (TDouble (fmtflags os) (precision os) x) os.
Definition endl := put TEndl.

(** [100.0 * count / total] with [count] and [total] of type [size_t]:
    both are converted to double, the product is taken first. *)
Definition percentage (count total : Z) : F64.t :=
  F64.div (F64.mul (F64.of_Z 100) (F64.of_Z count)) (F64.of_Z total).

(** One statement [report << label << count << "," << pct << '%' << endl]. *)
Definition report_line (label : string) (count total : Z) (os : ostream) : ostream :=
  endl (put_char "%" (put_double (percentage count total)
         (put_string "," (put_size count (put_string label os))))).

Definition WriteResultsReport (report : ostream) (counts : Results) : ostream :=
  let total := Total counts in
  let report := setprecision 2 (fixed report) in
  let report := report_line "Success -- CCS generated," (Success counts) total report in
  let report := report_line "Failed -- Below SNR threshold," (PoorSNR counts) total report in
  let report := report_line "Failed -- No usable subreads," (NoSubreads counts) total report in
  let report := report_line "Failed -- Insert size too small," (TooShort counts) total report in
  let report := report_line "Failed -- Not enough full passes," (TooFewPasses counts) total report in
  let report := report_line "Failed -- Too many unusable subreads," (TooManyUnusable counts) total report in
  let report := report_line "Failed -- CCS did not converge," (NonConvergent counts) total report in
  report_line "Failed -- CCS below minimum predicted accuracy," (PoorQuality counts) total report.

(** A row of the report as a reader of the output sees it. *)
Record Row := mkRow {
  row_label : string;
  row_count : Z;
  row_fmt : floatfield;
  row_digits : Z;
  row_percent : F64.t
}.

(** Reads the token stream back, line by line. *)
Fixpoint rows_of (ts : list Token) : option (list Row) :=
  match ts with
  | [] => Some []
  | TString l :: TSize n :: TString "," :: TDouble f d x :: TChar "%" :: TEndl :: ts' =>
      match rows_of ts' with
      | Some rs => Some (mkRow l n f d x :: rs)
      | None => None
      end
  | _ => None
  end.

(** The outcome counters in the order of the report. *)
Inductive Outcome :=
| OSuccess | OPoorSNR | ONoSubreads | OTooShort
| OTooFewPasses | OTooManyUnusable | ONonConvergent | OPoorQuality.

Definition outcomes : list Outcome :=
  [OSuccess; OPoorSNR; ONoSubreads; OTooShort;
   OTooFewPasses; OTooManyUnusable; ONonConvergent; OPoorQuality].

Definition counter (o : Outcome) (counts : Results) : Z :=
  match o with
  | OSuccess => Success counts
  | OPoorSNR => PoorSNR counts
  | ONoSubreads => NoSubreads counts
  | OTooShort => TooShort counts
  | OTooFewPasses => TooFewPasses counts
  | OTooManyUnusable => TooManyUnusable counts
  | ONonConvergent => NonConvergent counts
  | OPoorQuality => PoorQuality counts
  end.

(* ================================================================== *)
(** ** The text of the report *)

(** [num / den] rounded to the nearest integer, ties to even. *)
Definition round_half_even (num den : Z) : Z :=
  let q := num / den in
  match 2 * (num mod den) ?= den with
  | Lt => q
  | Gt => q + 1
  | Eq => if Z.even q then q else q + 1
  end.

Definition digit (z : Z) : ascii := ascii_of_nat (48 + Z.to_nat z).

(** The last [n] decimal digits of [z]. *)
Fixpoint decimals (n : nat) (z : Z) : string :=
  match n with
  | O => ""
  | S n' => (decimals n' (z / 10) ++ String (digit (z mod 10)) "")%string
  end.

(** [m * 2^e * 10^digits] as an integer, rounded when it is not one. *)
Definition scaled (digits : nat) (m : positive) (e : Z) : Z :=
  if 0 <=? e then Zpos m * 2 ^ e * 10 ^ Z.of_nat digits
  else round_half_even (Zpos m * 10 ^ Z.of_nat digits) (2 ^ (- e)).

Definition fixed_digits (digits : nat) (n : Z) : string :=
  (decimal (n / 10 ^ Z.of_nat digits)
   ++ match digits with
      | O => ""
      | S _ => "." ++ decimals digits (n mod 10 ^ Z.of_nat digits)
      end)%string.

(** What a stream in fixed notation with precision [digits] writes for a
    finite double, which is what [printf] writes for [%.*f]: the exact value
    of the double rounded to [digits] decimals. The text written for an
    infinity or a NaN is left to the C library ([None]). *)
Definition fixed_text (digits : nat) (x : F64.t) : option string :=
  match x with
  | S754_zero s => Some ((if s then "-" else "") ++ fixed_digits digits 0)%string
  | S754_finite s m e =>
      Some ((if s then "-" else "") ++ fixed_digits digits (scaled digits m e))%string
  | _ => None
  end.

Definition newline : string := String (ascii_of_nat 10) "".

Definition token_text (t : Token) : option string :=
  match t with
  | TString s => Some s
  | TSize n => Some (decimal n)
  | TDouble FloatFixed d x => fixed_text (Z.to_nat d) x
  | TDouble FloatDefault _ _ => None
  | TChar c => Some (String c "")
  | TEndl => Some newline
  end.

Fixpoint text_of (ts : list Token) : option string :=
  match ts with
  | [] => Some ""
  | t :: ts' =>
      match token_text t, text_of ts' with
      | Some a, Some b => Some (a ++ b)%string
      | _, _ => None
      end
  end.

Fixpoint unlines (lines : list string) : string :=
  match lines with
  | [] => ""
  | l :: lines' => (l ++ newline ++ unlines lines')%string
  end.

(* ================================================================== *)
(** ** The work queue *)

Module WorkQueue.

Section Model.
Context {A B : Type}.

(** What a handle knows of its computation. *)
Inductive Progress :=
| Queued
| Running
| Completed (result : B).

Record Handle := mkHandle { task : A; progress : Progress }.

(** Modelled from the spec: the [WorkQueue] of pacbio/ccs/WorkQueue.h, by
    section 4.2: a FIFO of pending-result handles in submission order, a
    pool of [workers] threads, the bound [capacity] on the handles that are
    outstanding (submitted and not yet consumed), whether [Finalize] has been
    called, and on the side of the consumer the results handed to [apply] so
    far, oldest first, and whether [Consume] has returned false. *)
Record t := mk {
  workers : nat;
  capacity : nat;
  fifo : list Handle;
  finalized : bool;
  consumed : list B;
  ended : bool
}.

Definition create (W bound : nat) : t := mk W bound [] false [] false.

(** The threads are interleaved; an action is one atomic step of one of
    them: the producer returns from [Submit] ([ProduceWith]) or calls
    [Finalize], a worker takes the task of the i-th outstanding handle or
    finishes it, the consumer returns from [Consume] ([ConsumeWith]). *)
Inductive Action :=
| Submit (a : A)
| Start (i : nat)
| Complete (i : nat)
| Consume
| Finalize.

Definition is_running (h : Handle) : bool :=
  match progress h with Running => true | _ => false end.

Definition running (q : t) : nat :=
  List.length (filter is_running (fifo q)).

Fixpoint set_nth (i : nat) (h : Handle) (l : list Handle) : list Handle :=
  match l, i with
  | [], _ => []
  | _ :: l', O => h :: l'
  | x :: l', S i' => x :: set_nth i' h l'
  end.

Definition with_fifo (l : list Handle) (q : t) : t :=
  mk (workers q) (capacity q) l (finalized q) (consumed q) (ended q).

Variable run : A -> B.

(** Modelled from the spec: the operations of section 4.2. [Submit] puts a
    pending handle at the tail and blocks while [capacity] handles are
    outstanding; the workers, at most [workers] at a time, run the tasks in
    any order and complete them at any time; [Consume] takes the head handle
    and returns once the computation of that handle has completed, having
    handed its result to [apply], or returns false when the queue is
    finalized and empty; [Finalize] marks the end of the submissions. The
    answer is [None] when the action cannot happen in [q]: the thread that
    would perform it is blocked, or there is no such handle. *)
Definition step (q : t) (a : Action) : option t :=
  match a with
  | Submit x =>
      if finalized q then None
      else if (List.length (fifo q) <? capacity q)%nat
           then Some (with_fifo (fifo q ++ [mkHandle x Queued]) q)
           else None
  | Start i =>
      match nth_error (fifo q) i with
      | Some (mkHandle x Queued) =>
          if (running q <? workers q)%nat
          then Some (with_fifo (set_nth i (mkHandle x Running) (fifo q)) q)
          else None
      | _ => None
      end
  | Complete i =>
      match nth_error (fifo q) i with
      | Some (mkHandle x Running) =>
          Some (with_fifo (set_nth i (mkHandle x (Completed (run x))) (fifo q)) q)
      | _ => None
      end
  | Consume =>
      if ended q then None
      else match fifo q with
           | mkHandle _ (Completed r) :: rest =>
               Some (mk (workers q) (capacity q) rest (finalized q)
                        (consumed q ++ [r]) false)
           | _ :: _ => None
           | [] =>
               if finalized q
               then Some (mk (workers q) (capacity q) [] true (consumed q) true)
               else None
           end
  | Finalize =>
      Some (mk (workers q) (capacity q) (fifo q) true (consumed q) (ended q))
  end.

(** A schedule: the actions of all threads in the order they happen. *)
Fixpoint exec (q : t) (schedule : list Action) : option t :=
  match schedule with
  | [] => Some q
  | a :: rest =>
      match step q a with
      | Some q' => exec q' rest
      | None => None
      end
  end.

(** The tasks submitted by a schedule, in submission order. *)
Fixpoint submitted (schedule : list Action) : list A :=
  match schedule with
  | [] => []
  | Submit x :: rest => x :: submitted rest
  | _ :: rest => submitted rest
  end.

(** A schedule that empties the queue: the workers finish what they are
    running, then the head task is run (if it has not been) and consumed,
    once for every outstanding handle, and then the consumer sees the end. *)
Fixpoint finish_running (l : list Handle) (i : nat) : list Action :=
  match l with
  | [] => []
  | h :: l' =>
      (if is_running h then [Complete i] else []) ++ finish_running l' (S i)
  end.

Definition drain_head (h : Handle) : list Action :=
  match progress h with
  | Queued => [Start 0%nat; Complete 0%nat; Consume]
  | Running | Completed _ => [Consume]
  end.

Definition drain (q : t) : list Action :=
  finish_running (fifo q) 0 ++ flat_map drain_head (fifo q) ++ [Consume].

(** The handle after its worker, if it had one, has finished. *)
Definition settle (h : Handle) : Handle :=
  match progress h with
  | Running => mkHandle (task h) (Completed (run (task h)))
  | _ => h
  end.

(** A completed handle holds the result of its own task. *)
Definition honest (h : Handle) : Prop :=
  match progress h with
  | Completed r => r = run (task h)
  | _ => True
  end.

(** The result a handle holds or will hold. *)
Definition result_of (h : Handle) : B := run (task h).

(** What every reachable queue satisfies, [subs] being the tasks submitted
    so far: the results consumed, followed by the results of the outstanding
    handles, are the results of [subs] in order; a completed handle holds
    the result of its task; once the consumer has seen the end, the queue is
    finalized and empty. *)
Definition in_order (q : t) (subs : list A) : Prop :=
  map run subs = consumed q ++ map result_of (fifo q)
  /\ Forall honest (fifo q)
  /\ (ended q = true -> fifo q = [] /\ finalized q = true).

End Model.

Arguments Progress : clear implicits.
Arguments Handle : clear implicits.
Arguments t : clear implicits.
Arguments Action : clear implicits.

End WorkQueue.

(* ================================================================== *)
(** ** [main] (lines 284-519) *)

(** The parsed command line. *)
Module Options.
Record t := mk {
  ForceOutput : bool;
  PbIndex : bool;
  Zmws : string;
  MinSnr : F32.t;
  MinReadScore : F32.t;
  MinPasses : Z;               (* int *)
  ReportFile : string;
  NumThreads : Z;              (* int *)
  LogFile : string;
  LogLevel : string;
  args : list string           (* OUTPUT FILES... *)
}.
End Options.

(** An input BAM file: the read groups of its header and its records. *)
Record BamFile := {
  ReadGroups : list ReadGroupInfo;
  Query : list BamRecord.t
}.

(** What [main] finds around it, each answer as it is when [main] asks.
    [FileExists] answers the check of line 354. [open_bam] answers
    [BamFile bam( *file )] in [PrepareHeader] (line 201), before the output
    is created. [EntireFileQuery] answers the query of line 395 by its
    position in the run and its path: by then OUTPUT has been created or
    truncated (line 380) and the writer thread writes to it, so a path the
    run writes to need not hold what [open_bam] found there, nor the same
    from one query to the next. [open_bam], [EntireFileQuery] and
    [make_Whitelist] answer [None] where the constructor throws. *)
Record World := {
  FileExists : string -> bool;
  open_bam : string -> option BamFile;
  EntireFileQuery : nat -> string -> option (list BamRecord.t);
  make_Whitelist : string -> option Whitelist;
  hardware_concurrency : Z;
  Consensus : list Chunk -> ConsensusSettings -> Results
}.

(** The header of the output file, by its read groups. *)
Record BamHeader := { HeaderReadGroups : list ReadGroupInfo }.

(** Where the report goes: [cout] for [--reportFile -], a file otherwise. *)
Inductive ReportTarget := ToStdout | ToFile (path : string).

(** What [main] does to the outside world, in program order. *)
Inductive Effect :=
| ParserError (msg : string)
| OpenLogFile (path : string)
| SetLogger (level : string)
| InstallSignalHandlers
| CreateBamWriter (path : string) (header : BamHeader)
| CreatePbiBuilder (path : string)
| CreateWorkQueue (nThreads : Z)
| LaunchWriterThread
| Loop (e : Event)
| QueueFinalize
| WriterGet
| Report (target : ReportTarget) (tokens : list Token).

(** How a run stops early: [parser.error] prints and exits, an exception
    nobody catches terminates the process. *)
Inductive Stop := ParserExit | Uncaught.

(** Effects so far, and either the reason the run stopped or a value. *)
Definition Run (X : Type) : Type := list Effect * (Stop + X).

Definition ret {X : Type} (x : X) : Run X := ([], inr x).

Definition bind {X Y : Type} (m : Run X) (k : X -> Run Y) : Run Y :=
  match m with
  | (tr, inl stop) => (tr, inl stop)
  | (tr, inr x) => let (tr', r) := k x in (tr ++ tr', r)
  end.

Declare Scope run_scope.
Delimit Scope run_scope with run.
Notation "x <- m ;; k" := (bind m (fun x => k))
  (at level 61, m at next level, right associativity) : run_scope.
Notation "m ;; k" := (bind m (fun _ => k))
  (at level 61, right associativity) : run_scope.

Definition tell (e : Effect) : Run unit := ([e], inr tt).
Definition parser_error {X : Type} (msg : string) : Run X :=
  ([ParserError msg], inl ParserExit).
Definition throw {X : Type} : Run X := ([], inl Uncaught).
Definition when (b : bool) (m : Run unit) : Run unit :=
  if b then m else ret tt.

Local Open Scope run_scope.

(** The read group [PrepareHeader] adds for an input read group. *)
Definition ccs_read_group (rg : ReadGroupInfo) : ReadGroupInfo :=
  {| RgMovieName := RgMovieName rg;
     ReadType := "CCS";
     BindingKit := BindingKit rg;
     SequencingKit := SequencingKit rg;
     BasecallerVersion := BasecallerVersion rg;
     FrameRateHz := FrameRateHz rg |}.

Fixpoint add_read_groups (rgs : list ReadGroupInfo) (acc : list ReadGroupInfo)
  : Run (list ReadGroupInfo) :=
  match rgs with
  | [] => ret acc
  | rg :: rest =>
      when (negb (String.eqb (ReadType rg) "SUBREAD"))
           (parser_error "invalid input file, READTYPE must be SUBREAD") ;;
      add_read_groups rest (acc ++ [ccs_read_group rg])
  end.

(** The loop of [PrepareHeader] over the input files (lines 199-216). *)
Fixpoint header_of_files (w : World) (files : list string)
                         (acc : list ReadGroupInfo) : Run (list ReadGroupInfo) :=
  match files with
  | [] => ret acc
  | file :: rest =>
      match open_bam w file with
      | None => throw
      | Some bam =>
          acc' <- add_read_groups (ReadGroups bam) acc ;;
          header_of_files w rest acc'
      end
  end.

(** [PrepareHeader] (lines 183-219); [files] still has OUTPUT in front. *)
Definition PrepareHeader (w : World) (files : list string) : Run BamHeader :=
  rgs <- header_of_files w (tl files) [] ;;
  ret {| HeaderReadGroups := rgs |}.

(** Lines 315-355: the options and the checks on them. *)
Definition pipeline_of (o : Options.t) (wl : option Whitelist) : Pipeline :=
  {| settings := {| MinPasses := Options.MinPasses o |};
     minSnr := Options.MinSnr o;
     minReadScore := F32.mul (F32.of_Z 1000) (Options.MinReadScore o);
     whitelist := wl |}.

Definition check_options (w : World) (o : Options.t) : Run Pipeline :=
  let files := Options.args o in
  when (Options.MinPasses o <? 1)
       (parser_error "option --minPasses: invalid value: must be >= 1") ;;
  wl <- (if String.eqb (Options.Zmws o) "" then ret None
         else match make_Whitelist w (Options.Zmws o) with
              | Some wl => ret (Some wl)
              | None => parser_error ("option --zmws: invalid specification: '"
                                      ++ Options.Zmws o ++ "'")
              end) ;;
  match files with
  | [] => parser_error "missing OUTPUT"
  | [_] => parser_error "missing FILES..."
  | _ => ret tt
  end ;;
  when (FileExists w (hd "" files) && negb (Options.ForceOutput o))
       (parser_error ("OUTPUT: file already exists: '" ++ hd "" files ++ "'")) ;;
  ret (pipeline_of o wl).

(** Lines 360-375. *)
Definition setup_logging (o : Options.t) : Run unit :=
  when (negb (String.eqb (Options.LogFile o) ""))
       (tell (OpenLogFile (Options.LogFile o))) ;;
  tell (SetLogger (Options.LogLevel o)) ;;
  tell InstallSignalHandlers.

(** The loop over the input files from the [i]-th query on, with the
    files queried one by one: an [EntireFileQuery] throws on a file it
    cannot open. *)
Fixpoint read_files_from (w : World) (cfg : Pipeline) (i : nat) (st : State)
                         (files : list string) : State * bool :=
  match files with
  | [] => (st, true)
  | file :: rest =>
      match EntireFileQuery w i file with
      | None => (st, false)
      | Some query => read_files_from w cfg (S i) (process_file cfg st query) rest
      end
  end.

(** Lines 393-480. *)
Definition read_files (w : World) (cfg : Pipeline) (st : State)
                      (files : list string) : State * bool :=
  read_files_from w cfg 0 st files.

(** Lines 504-505. *)
Definition add_rejections (counts : Results) (poor few : Z) : Results :=
  mkResults (Records counts) (Success counts)
    (Mach.size_add (PoorSNR counts) poor)
    (NoSubreads counts) (TooShort counts)
    (Mach.size_add (TooFewPasses counts) few)
    (TooManyUnusable counts) (NonConvergent counts) (PoorQuality counts).

(** What [writer.get()] returns: the counters of the writer thread, which
    has been handed the result of every submission, in submission order
    (see [WorkQueue]). *)
Definition writer_counts (w : World) (cfg : Pipeline) (st : State) : Results :=
  snd (WriterThread
         (map (fun v => Consensus w v (settings cfg)) (submissions (trace st)))
         (mkSink [] None 0)).

(** Lines 506-516: where the report is written. *)
Definition report_target (o : Options.t) : ReportTarget :=
  if String.eqb (Options.ReportFile o) "-" then ToStdout
  else ToFile (Options.ReportFile o).

(** Lines 498-516, after the loop has left [st]. *)
Definition shutdown (w : World) (o : Options.t) (cfg : Pipeline) (st : State)
  : Run Z :=
  tell QueueFinalize ;;
  tell WriterGet ;;
  let counts := writer_counts w cfg st in
  let counts := add_rejections counts (poorSNR st) (tooFewPasses st) in
  tell (Report (report_target o)
               (written (WriteResultsReport fresh_stream counts))) ;;
  ret 0.

(** Lines 380-496: the output files, the queue, the writer thread and the
    loop. The header is prepared before OUTPUT is created, the input files
    are queried after. *)
Definition run_pipeline (w : World) (o : Options.t) (cfg : Pipeline) : Run State :=
  let files := Options.args o in
  header <- PrepareHeader w files ;;
  tell (CreateBamWriter (hd "" files) header) ;;
  when (Options.PbIndex o) (tell (CreatePbiBuilder (hd "" files ++ ".pbi"))) ;;
  tell (CreateWorkQueue (ThreadCount (hardware_concurrency w) (Options.NumThreads o))) ;;
  tell LaunchWriterThread ;;
  let (st, ok) := read_files w cfg initial_state (tl files) in
  if ok then
    let st := finish cfg st in
    (map Loop (trace st), inr st)
  else (map Loop (trace st), inl Uncaught).

Definition main (w : World) (o : Options.t) : Run Z :=
  cfg <- check_options w o ;;
  setup_logging o ;;
  st <- run_pipeline w o cfg ;;
  shutdown w o cfg st.

Local Close Scope run_scope.

(* ================================================================== *)
(** ** Sample inputs *)

Module Sample.

(** The binary32 value nearest to [m * 2^e]. *)
Definition f32 (m e : Z) : F32.t := binary_normalize F32.prec F32.emax m e false.

Definition p6c4 : ReadGroupInfo :=
  {| RgMovieName := "m1"; ReadType := "SUBREAD";
     BindingKit := "100356300"; SequencingKit := "100356200";
     BasecallerVersion := "2.3.0.0.140018"; FrameRateHz := "75.0" |}.

Definition other_chemistry : ReadGroupInfo :=
  {| RgMovieName := "m1"; ReadType := "SUBREAD";
     BindingKit := "100256000"; SequencingKit := "100254800";
     BasecallerVersion := "2.3.0.0.140018"; FrameRateHz := "75.0" |}.

Definition snr_high : SNR :=
  {| A := f32 9 0; C := f32 8 0; G := f32 11 0; T := f32 10 0 |}.

Definition snr_low : SNR :=
  {| A := f32 2 0; C := f32 2 0; G := f32 2 0; T := f32 2 0 |}.

(** A sub-read of ZMW [movie/hole] with the given accuracy. *)
Definition read (movie : string) (hole accuracy : Z) (snr : SNR)
                (rg : ReadGroupInfo) (qs qe : Z) : BamRecord.t :=
  BamRecord.mk movie hole snr rg accuracy
    (movie ++ "/" ++ decimal hole ++ "/" ++ decimal qs ++ "_" ++ decimal qe)
    qs qe "ACGT" 3.

(** [--minSnr 4 --minReadScore 0.75 --minPasses 2 out.bam in1.bam in2.bam] *)
Definition options : Options.t :=
  Options.mk false false "" (f32 4 0) (f32 3 (-2)) 2
             "ccs_report.csv" 0 "" "INFO" ["out.bam"; "in1.bam"; "in2.bam"].

Definition cfg : Pipeline := pipeline_of options None.

(** A whitelist that holds ZMW 7 of every movie. *)
Definition only7 : Whitelist := {| Contains := fun _ hole => hole =? 7 |}.

Definition good (movie : string) (hole qs : Z) : BamRecord.t :=
  read movie hole 900 snr_high p6c4 qs (qs + 10).

Definition inaccurate (movie : string) (hole qs : Z) : BamRecord.t :=
  read movie hole 500 snr_high p6c4 qs (qs + 10).

End Sample.

(* ================================================================== *)
(** ** Vocabulary for the statements about the loop *)

(** The ZMW that starts with [read] passes the three filters of lines
    430-441. *)
Definition passes_filters (cfg : Pipeline) (read : BamRecord.t) : bool :=
  negb (off_whitelist cfg read) && negb (invalid_chemistry read)
  && negb (poor_snr cfg read).

(** [c] with the sub-reads [rs] appended in order. *)
Definition extend (c : Chunk) (rs : list Subread) : Chunk :=
  {| Id := Id c; Reads := Reads c ++ rs; ChunkSNR := ChunkSNR c |}.

(** The accuracy of [read] is at least 1000 times the value given to
    [--minReadScore]. *)
Definition accurate (o : Options.t) (read : BamRecord.t) : bool :=
  F32.leb (F32.mul (F32.of_Z 1000) (Options.MinReadScore o))
          (F32.of_Z (BamRecord.ReadAccuracy read)).

(** The reads of a list that line 463 lets through. *)
Definition accepted (cfg : Pipeline) (reads : list BamRecord.t) : list BamRecord.t :=
  filter (fun r => negb (low_accuracy cfg r)) reads.

(** The state the filters of a new ZMW start from: the movie name is
    registered and the chunk of the ZMW before has been dropped or
    submitted. *)
Definition flushed (cfg : Pipeline) (st : State) (read : BamRecord.t) : State :=
  submit_full cfg (drop_short cfg (intern (BamRecord.MovieName read) st)).



(** For each record of a file in turn, whether line 411 finds that it
    starts a new ZMW. *)
Fixpoint boundaries (cfg : Pipeline) (st : State) (reads : list BamRecord.t)
  : list bool :=
  match reads with
  | [] => []
  | r :: rest =>
      new_zmw (holeNumber (intern (BamRecord.MovieName r) st)) r
      :: boundaries cfg (on_read cfg st r) rest
  end.

Definition molecule_eqb (a b : string * Z) : bool :=
  String.eqb (fst a) (fst b) && (snd a =? snd b).

(** For each record in turn, whether its (movie name, hole number) differs
    from that of the molecule being read, the one of the record before it;
    [current] is [None] where no molecule is being read. *)
Fixpoint molecule_changes (current : option (string * Z))
                          (reads : list BamRecord.t) : list bool :=
  match reads with
  | [] => []
  | r :: rest =>
      match current with
      | None => true
      | Some id => negb (molecule_eqb id (MoleculeId r))
      end :: molecule_changes (Some (MoleculeId r)) rest
  end.

(** The same with the hole number alone. *)
Fixpoint hole_changes (current : option Z) (reads : list BamRecord.t)
  : list bool :=
  match reads with
  | [] => []
  | r :: rest =>
      match current with
      | None => true
      | Some h => negb (h =? BamRecord.HoleNumber r)
      end :: hole_changes (Some (BamRecord.HoleNumber r)) rest
  end.

(** The ZMW in progress, when it is not skipped, has its chunk in the
    vector: [chunk->back()] is defined wherever a read is appended. *)
Definition chunk_open (st : State) : Prop :=
  holeNumber st <> None -> skipZmw st = false -> chunk st <> [].

(** The state in which lines 460-478 run for [read]. *)
Definition before_accept (cfg : Pipeline) (st : State) (read : BamRecord.t) : State :=
  let st := intern (BamRecord.MovieName read) st in
  if new_zmw (holeNumber st) read then boundary cfg st read else st.



(** Streams used in the examples. *)
Module Streams.

Definition a7 : BamRecord.t := Sample.good "movieA" 7 0.
Definition b7 : BamRecord.t := Sample.good "movieB" 7 0.

(** ZMW 7 of movie m1: three passes, the second one inaccurate. *)
Definition r0 : BamRecord.t := Sample.good "m1" 7 0.
Definition r1 : BamRecord.t := Sample.inaccurate "m1" 7 10.
Definition r2 : BamRecord.t := Sample.good "m1" 7 20.
Definition r3 : BamRecord.t := Sample.good "m1" 7 30.

Definition r4 : BamRecord.t := Sample.good "m1" 7 40.

(** ZMW 8 of movie m1: one pass. *)
Definition s0 : BamRecord.t := Sample.good "m1" 8 0.

(** ZMW 9 of movie m1: two passes. *)
Definition t0 : BamRecord.t := Sample.good "m1" 9 0.
Definition t1 : BamRecord.t := Sample.good "m1" 9 10.

(** ZMW 10 of movie m1, low signal. *)
Definition u0 : BamRecord.t := Sample.read "m1" 10 900 Sample.snr_low Sample.p6c4 0 10.

Definition chunk_of (first : BamRecord.t) (reads : list BamRecord.t) : Chunk :=
  extend (new_chunk first)
         (map (make_subread (BamRecord.HoleNumber first)) reads).

End Streams.


(* ================================================================== *)
(** ** Vocabulary for the statements about [main] and the report *)

(** The labels of the report, in the order of the statements. *)
Definition report_labels : list string :=
  ["Success -- CCS generated,";
   "Failed -- Below SNR threshold,";
   "Failed -- No usable subreads,";
   "Failed -- Insert size too small,";
   "Failed -- Not enough full passes,";
   "Failed -- Too many unusable subreads,";
   "Failed -- CCS did not converge,";
   "Failed -- CCS below minimum predicted accuracy,"].

(** The row of the report for one outcome: its count and its share of the
    total as a double, printed in fixed notation with two decimals. *)
Definition report_row (counts : Results) (lo : string * Outcome) : Row :=
  mkRow (fst lo) (counter (snd lo) counts) FloatFixed 2
        (percentage (counter (snd lo) counts) (Total counts)).

(** The configuration errors. *)
Inductive ConfigError (w : World) (o : Options.t) : Prop :=
| InvalidMinPasses :
    Options.MinPasses o < 1 -> ConfigError w o
| InvalidZmws :
    Options.Zmws o <> "" -> make_Whitelist w (Options.Zmws o) = None ->
    ConfigError w o
| MissingOutput :
    Options.args o = [] -> ConfigError w o
| MissingFiles :
    forall output, Options.args o = [output] -> ConfigError w o
| OutputExists :
    forall output files,
      Options.args o = output :: files ->
      FileExists w output = true -> Options.ForceOutput o = false ->
      ConfigError w o.

Definition creates_output (e : Effect) : bool :=
  match e with
  | CreateBamWriter _ _ => true
  | _ => false
  end.

Definition is_submission (e : Effect) : bool :=
  match e with
  | Loop (ProduceWith _ _) => true
  | _ => false
  end.

(** The chunk vectors submitted in a run of [main], in order. *)
Fixpoint submitted_by (tr : list Effect) : list (list Chunk) :=
  match tr with
  | [] => []
  | Loop (ProduceWith v _) :: tr' => v :: submitted_by tr'
  | _ :: tr' => submitted_by tr'
  end.

Definition is_shutdown (e : Effect) : bool :=
  match e with
  | QueueFinalize | WriterGet | Report _ _ => true
  | _ => false
  end.

(** A world for the examples: two input files the run does not write to,
    which every query finds as they were, no file at the output path, eight
    hardware threads, and a consensus that succeeds on every chunk. *)
Module SampleWorld.

Definition consensus (v : list Chunk) (s : ConsensusSettings) : Results :=
  mkResults (map (fun c => {| CcsId := Id c; Payload := "ACGT" |}) v)
            (Z.of_nat (List.length v)) 0 0 0 0 0 0 0.

Definition in1 : BamFile :=
  {| ReadGroups := [Sample.p6c4];
     Query := [Streams.r0; Streams.r1; Streams.r2; Streams.s0] |}.

Definition in2 : BamFile :=
  {| ReadGroups := [Sample.p6c4];
     Query := [Streams.t0; Streams.t1; Streams.u0] |}.

Definition world : World :=
  {| FileExists := fun path => String.eqb path "old.bam";
     open_bam := fun path =>
       if String.eqb path "in1.bam" then Some in1
       else if String.eqb path "in2.bam" then Some in2
       else None;
     EntireFileQuery := fun _ path =>
       if String.eqb path "in1.bam" then Some (Query in1)
       else if String.eqb path "in2.bam" then Some (Query in2)
       else None;
     make_Whitelist := fun spec =>
       if String.eqb spec "7" then Some Sample.only7 else None;
     hardware_concurrency := 8;
     Consensus := consensus |}.

(** [--minPasses 0]. *)
Definition no_passes : Options.t :=
  Options.mk false false "" (Sample.f32 4 0) (Sample.f32 3 (-2)) 0
             "ccs_report.csv" 0 "" "INFO" ["out.bam"; "in1.bam"].

(** [--zmws x]. *)
Definition bad_zmws : Options.t :=
  Options.mk false false "x" (Sample.f32 4 0) (Sample.f32 3 (-2)) 2
             "ccs_report.csv" 0 "" "INFO" ["out.bam"; "in1.bam"].

(** No FILES. *)
Definition no_files : Options.t :=
  Options.mk false false "" (Sample.f32 4 0) (Sample.f32 3 (-2)) 2
             "ccs_report.csv" 0 "" "INFO" ["out.bam"].

(** OUTPUT exists and there is no [--force]. *)
Definition overwrite : Options.t :=
  Options.mk false false "" (Sample.f32 4 0) (Sample.f32 3 (-2)) 2
             "ccs_report.csv" 0 "" "INFO" ["old.bam"; "in1.bam"].

End SampleWorld.


(** A run of the queue with two workers in which the second submission
    completes before the first. *)
Module SampleQueue.

Definition run (v : list Chunk) : Results :=
  SampleWorld.consensus v (settings Sample.cfg).

Definition zmw7 : list Chunk :=
  [Streams.chunk_of Streams.r0 [Streams.r0; Streams.r2]].

Definition zmw9 : list Chunk :=
  [Streams.chunk_of Streams.t0 [Streams.t0; Streams.t1]].

Definition out_of_order : list (WorkQueue.Action (list Chunk)) :=
  [WorkQueue.Submit zmw7; WorkQueue.Submit zmw9;
   WorkQueue.Start 1%nat; WorkQueue.Start 0%nat;
   WorkQueue.Complete 1%nat; WorkQueue.Complete 0%nat;
   WorkQueue.Consume; WorkQueue.Consume;
   WorkQueue.Finalize; WorkQueue.Consume].

End SampleQueue.


(* ================================================================== *)
(** ** The loop as a whole: the ZMWs of a file *)

(** The records of a file cut into its ZMWs as line 411 tells them apart:
    the maximal runs of records with one hole number. *)
Fixpoint zmws (reads : list BamRecord.t) : list (list BamRecord.t) :=
  match reads with
  | [] => []
  | r :: rest =>
      match zmws rest with
      | (r' :: g) :: gs =>
          if BamRecord.HoleNumber r =? BamRecord.HoleNumber r'
          then (r :: r' :: g) :: gs
          else [r] :: (r' :: g) :: gs
      | _ => [[r]]
      end
  end.

(** The records at the front of a list with hole number [h], and the rest. *)
Fixpoint take_same (h : Z) (reads : list BamRecord.t) : list BamRecord.t :=
  match reads with
  | r :: rest => if BamRecord.HoleNumber r =? h then r :: take_same h rest else []
  | [] => []
  end.

Fixpoint drop_same (h : Z) (reads : list BamRecord.t) : list BamRecord.t :=
  match reads with
  | r :: rest => if BamRecord.HoleNumber r =? h then drop_same h rest else reads
  | [] => []
  end.

(** The chunk the loop builds for a ZMW: none when its first record fails a
    filter, otherwise the accurate reads of the ZMW under the identity and
    the SNR of the first record. *)
Definition zmw_chunk (cfg : Pipeline) (zmw : list BamRecord.t) : list Chunk :=
  match zmw with
  | [] => []
  | r :: _ =>
      if passes_filters cfg r
      then [extend (new_chunk r)
              (map (make_subread (BamRecord.HoleNumber r)) (accepted cfg zmw))]
      else []
  end.

(** The ZMW is counted as poor in signal: its first record is on the
    whitelist, of a valid chemistry, and below [minSnr]. *)
Definition zmw_poor_snr (cfg : Pipeline) (zmw : list BamRecord.t) : bool :=
  match zmw with
  | [] => false
  | r :: _ => negb (off_whitelist cfg r) && negb (invalid_chemistry r)
              && poor_snr cfg r
  end.

(** All ZMWs of all input files, in order; a ZMW ends with its file. *)
Definition all_zmws (files : list (list BamRecord.t)) : list (list BamRecord.t) :=
  flat_map zmws files.

(** The chunks started in a run, in order. *)
Definition started (cfg : Pipeline) (files : list (list BamRecord.t)) : list Chunk :=
  flat_map (zmw_chunk cfg) (all_zmws files).

(** Where the loop stands after the ZMWs [done]: the chunks before the one
    in the vector have been submitted or dropped and counted, and every ZMW
    poor in signal has been counted. *)
Definition accounted (cfg : Pipeline) (st : State)
                     (done : list (list BamRecord.t)) : Prop :=
  exists settled pending,
    flat_map (zmw_chunk cfg) done = settled ++ pending
    /\ chunk st = pending
    /\ (List.length pending <= 1)%nat
    /\ submissions (trace st)
       = map (fun c => [c]) (filter (fun c => negb (too_few_passes cfg c)) settled)
    /\ tooFewPasses st
       = Mach.to_size (Z.of_nat (List.length (filter (too_few_passes cfg) settled)))
    /\ poorSNR st
       = Mach.to_size (Z.of_nat (List.length (filter (zmw_poor_snr cfg) done))).


(** The number of boundaries line 411 finds in a list of decisions. *)
Definition count_true (bs : list bool) : nat := List.length (filter (fun b => b) bs).

(** More sample streams. *)
Module MoreStreams.

(** ZMW 11 of movie m1, another chemistry. *)
Definition v0 : BamRecord.t :=
  Sample.read "m1" 11 900 Sample.snr_high Sample.other_chemistry 0 10.
Definition v1 : BamRecord.t :=
  Sample.read "m1" 11 100 Sample.snr_high Sample.other_chemistry 10 20.

(** Two input files: ZMW 7 (three reads, one inaccurate), ZMW 8 (one
    read); ZMW 9 (two reads), ZMW 10 (low signal), ZMW 11 (other chemistry). *)
Definition file1 : list BamRecord.t :=
  [Streams.r0; Streams.r1; Streams.r2; Streams.s0].
Definition file2 : list BamRecord.t :=
  [Streams.t0; Streams.t1; Streams.u0; v0; v1].

Definition cfg7 : Pipeline := pipeline_of Sample.options (Some Sample.only7).

End MoreStreams.


(* ================================================================== *)
(** ** Vocabulary of the statements about the input files *)

(** The whitelist lines 333-343 leave behind when they do not stop the
    run: none for an empty [--zmws]. *)
Definition whitelist_of (w : World) (o : Options.t) : option Whitelist :=
  if String.eqb (Options.Zmws o) "" then None
  else make_Whitelist w (Options.Zmws o).

(** The input files, opened in order; [None] when one cannot be opened. *)
Fixpoint opened (w : World) (files : list string) : option (list BamFile) :=
  match files with
  | [] => Some []
  | file :: rest =>
      match open_bam w file, opened w rest with
      | Some bam, Some bams => Some (bam :: bams)
      | _, _ => None
      end
  end.

(** What the queries of the loop find in the input files, from the [i]-th
    query on; [None] when one of them throws. *)
Fixpoint queried (w : World) (i : nat) (files : list string)
  : option (list (list BamRecord.t)) :=
  match files with
  | [] => Some []
  | file :: rest =>
      match EntireFileQuery w i file, queried w (S i) rest with
      | Some query, Some queries => Some (query :: queries)
      | _, _ => None
      end
  end.

(** Line 205: [rg.ReadType() != "SUBREAD"], negated. *)
Definition is_subread (rg : ReadGroupInfo) : bool :=
  String.eqb (ReadType rg) "SUBREAD".

Definition is_parser_error (e : Effect) : bool :=
  match e with
  | ParserError _ => true
  | _ => false
  end.

Definition is_loop (e : Effect) : bool :=
  match e with
  | Loop _ => true
  | _ => false
  end.

(** The effects between the checks of the options and the loop when
    nothing goes wrong (lines 360-389). *)
Definition startup (w : World) (o : Options.t) (bams : list BamFile) : list Effect :=
  fst (setup_logging o)
  ++ [CreateBamWriter (hd "" (Options.args o))
        {| HeaderReadGroups := map ccs_read_group (flat_map ReadGroups bams) |}]
  ++ (if Options.PbIndex o
      then [CreatePbiBuilder (hd "" (Options.args o) ++ ".pbi")] else [])
  ++ [CreateWorkQueue (ThreadCount (hardware_concurrency w) (Options.NumThreads o));
      LaunchWriterThread].

(** Inputs of which one has a read group of consensus reads, and one does
    not exist. *)
Module Inputs.

Definition ccs_group : ReadGroupInfo :=
  {| RgMovieName := "m1"; ReadType := "CCS";
     BindingKit := "100356300"; SequencingKit := "100356200";
     BasecallerVersion := "2.3.0.0.140018"; FrameRateHz := "75.0" |}.

Definition ccs_in : BamFile :=
  {| ReadGroups := [Sample.p6c4; ccs_group]; Query := [Streams.r0] |}.

Definition world : World :=
  {| FileExists := fun path => String.eqb path "old.bam";
     open_bam := fun path =>
       if String.eqb path "in1.bam" then Some SampleWorld.in1
       else if String.eqb path "ccs.bam" then Some ccs_in
       else None;
     EntireFileQuery := fun _ path =>
       if String.eqb path "in1.bam" then Some (Query SampleWorld.in1)
       else if String.eqb path "ccs.bam" then Some (Query ccs_in)
       else None;
     make_Whitelist := fun spec =>
       if String.eqb spec "7" then Some Sample.only7 else None;
     hardware_concurrency := 8;
     Consensus := SampleWorld.consensus |}.

(** [out.bam in1.bam ccs.bam nowhere.bam] *)
Definition wrong_type : Options.t :=
  Options.mk false false "" (Sample.f32 4 0) (Sample.f32 3 (-2)) 2
             "ccs_report.csv" 0 "" "INFO"
             ["out.bam"; "in1.bam"; "ccs.bam"; "nowhere.bam"].

(** [out.bam in1.bam nowhere.bam ccs.bam] *)
Definition unreadable : Options.t :=
  Options.mk false false "" (Sample.f32 4 0) (Sample.f32 3 (-2)) 2
             "ccs_report.csv" 0 "" "INFO"
             ["out.bam"; "in1.bam"; "nowhere.bam"; "ccs.bam"].

(** [--force --pbi --zmws 7 --logFile ccs.log old.bam in1.bam in2.bam] *)
Definition forced : Options.t :=
  Options.mk true true "7" (Sample.f32 4 0) (Sample.f32 3 (-2)) 2
             "-" 2 "ccs.log" "DEBUG" ["old.bam"; "in1.bam"; "in2.bam"].

End Inputs.


(* ================================================================== *)
(** ** Vocabulary of the statements about the log *)

Definition is_too_few_log (e : Event) : bool :=
  match e with
  | LogTooFewPasses _ _ _ => true
  | _ => false
  end.

Definition is_poor_snr_log (e : Event) : bool :=
  match e with
  | LogPoorSNR _ _ _ => true
  | _ => false
  end.

(** What a call of the loop says about the run it was made in. *)
Definition well_logged (cfg : Pipeline) (e : Event) : Prop :=
  match e with
  | LogTooFewPasses _ passes minPasses =>
      Z.of_nat passes < minPasses /\ minPasses = MinPasses (settings cfg)
  | LogInvalidChemistry _ _ => True
  | LogPoorSNR _ _ threshold => threshold = minSnr cfg
  | LogLowAccuracy _ accuracy threshold =>
      threshold = minReadScore cfg
      /\ F32.ltb (F32.of_Z accuracy) threshold = true
  | ProduceWith _ s => s = settings cfg
  end.

(** The two counters of the loop against its log. *)
Definition logged (cfg : Pipeline) (st : State) : Prop :=
  tooFewPasses st
  = Mach.to_size (Z.of_nat (List.length (filter is_too_few_log (trace st))))
  /\ poorSNR st
     = Mach.to_size (Z.of_nat (List.length (filter is_poor_snr_log (trace st))))
  /\ Forall (well_logged cfg) (trace st).


(* ================================================================== *)
(** ** Vocabulary of the statements about the whitelist *)

(** [cfg] with another whitelist. *)
Definition with_whitelist (cfg : Pipeline) (wl : option Whitelist) : Pipeline :=
  {| settings := settings cfg;
     minSnr := minSnr cfg;
     minReadScore := minReadScore cfg;
     whitelist := wl |}.

(** The ZMW is on the whitelist: line 430 asks for the movie name and the
    hole number of its first record. *)
Definition on_whitelist (wl : Whitelist) (zmw : list BamRecord.t) : bool :=
  match zmw with
  | r :: _ => Contains wl (BamRecord.MovieName r) (BamRecord.HoleNumber r)
  | [] => false
  end.


(** A run on an input file that opens and holds no record. *)
Module EmptyInput.

Definition empty_in : BamFile :=
  {| ReadGroups := [Sample.p6c4]; Query := [] |}.

Definition world : World :=
  {| FileExists := fun _ => false;
     open_bam := fun path =>
       if String.eqb path "empty.bam" then Some empty_in else None;
     EntireFileQuery := fun _ path =>
       if String.eqb path "empty.bam" then Some (Query empty_in) else None;
     make_Whitelist := fun _ => None;
     hardware_concurrency := 8;
     Consensus := SampleWorld.consensus |}.

(** [--minSnr 4 --minReadScore 0.75 --minPasses 2 out.bam empty.bam] *)
Definition options : Options.t :=
  Options.mk false false "" (Sample.f32 4 0) (Sample.f32 3 (-2)) 2
             "ccs_report.csv" 0 "" "INFO" ["out.bam"; "empty.bam"].

End EmptyInput.

(* ================================================================== *)
(** * Properties *)

(** ** Machine integers *)

Lemma to_size_small z : Mach.is_size z -> Mach.to_size z = z.
Proof. unfold Mach.is_size, Mach.to_size. intros H. now apply Z.mod_small. Qed.

Lemma to_int_small z : Mach.is_int z -> Mach.to_int z = z.
Proof.
  unfold Mach.is_int, Mach.to_int, Mach.int_min, Mach.int_max, Mach.int_modulus.
  intros H. rewrite Z.mod_small; lia.
Qed.

Lemma size_add_small a b :
  0 <= a -> 0 <= b -> a + b < Mach.size_modulus -> Mach.size_add a b = a + b.
Proof. intros. unfold Mach.size_add. apply to_size_small. split; lia. Qed.

Lemma to_size_range z : Mach.is_size (Mach.to_size z).
Proof.
  unfold Mach.is_size, Mach.to_size, Mach.size_modulus.
  apply Z.mod_pos_bound. lia.
Qed.

(** ** ThreadCount *)

(** C7. For an [int] argument [n] and a hardware concurrency [hw] that fits
    an [int]: [ThreadCount] returns [max(1, hw + n)] when [n < 1], that is
    [hw] minus [|n|] with a floor of 1, and [min(hw, n)] when [n >= 1]; with
    [n = 0] this is the detected hardware concurrency (1 when none was
    detected). *)
Theorem ThreadCount_spec (hw n : Z) :
  0 <= hw <= Mach.int_max -> Mach.is_int n ->
  (n < 1 -> ThreadCount hw n = Z.max 1 (hw + n)
            /\ ThreadCount hw n = Z.max 1 (hw - Z.abs n))
  /\ (1 <= n -> ThreadCount hw n = Z.min hw n)
  /\ (n = 0 -> ThreadCount hw n = Z.max 1 hw
               /\ (1 <= hw -> ThreadCount hw n = hw)).
Proof.
  intros Hhw Hn.
  assert (Hm : Mach.to_int hw = hw).
  { apply to_int_small. unfold Mach.is_int, Mach.int_min, Mach.int_max in *. lia. }
  unfold Mach.is_int, Mach.int_min, Mach.int_max in *.
  assert (Hlow : n < 1 -> ThreadCount hw n = Z.max 1 (hw + n)).
  { intros Hlt. unfold ThreadCount. rewrite Hm.
    destruct (Z.ltb_spec n 1) as [_|]; [|lia].
    unfold Mach.int_add. rewrite to_int_small.
    - apply to_size_small. unfold Mach.is_size, Mach.size_modulus. lia.
    - unfold Mach.is_int, Mach.int_min, Mach.int_max. lia. }
  split; [|split].
  - intros Hlt. rewrite (Hlow Hlt). split; [reflexivity|lia].
  - intros Hge. unfold ThreadCount. rewrite Hm.
    destruct (Z.ltb_spec n 1); [lia|].
    apply to_size_small. unfold Mach.is_size, Mach.size_modulus. lia.
  - intros ->. rewrite Hlow by lia. split; [f_equal; lia|lia].
Qed.

Lemma ThreadCount_spec_witness :
  ThreadCount 8 (-3) = 5 /\ ThreadCount 8 4 = 4 /\ ThreadCount 8 0 = 8.
Proof.
  assert (Hhw : 0 <= 8 <= Mach.int_max) by (unfold Mach.int_max; lia).
  assert (Hint : forall n, -100 <= n <= 100 -> Mach.is_int n).
  { intros n Hn. unfold Mach.is_int, Mach.int_min, Mach.int_max. lia. }
  split; [|split].
  - destruct (ThreadCount_spec 8 (-3) Hhw (Hint (-3) ltac:(lia))) as [H _].
    exact (proj1 (H ltac:(lia))).
  - destruct (ThreadCount_spec 8 4 Hhw (Hint 4 ltac:(lia))) as [_ [H _]].
    exact (H ltac:(lia)).
  - destruct (ThreadCount_spec 8 0 Hhw (Hint 0 ltac:(lia))) as [_ [_ H]].
    exact (proj2 (H eq_refl) ltac:(lia)).
Defined.

(* ================================================================== *)
(** ** Floating point: comparisons and NaN *)

Section FloatFacts.

Variables prec emax : Z.

Lemma iter_pos_invariant {X : Type} (P : X -> Prop) (f : X -> X) :
  (forall x, P x -> P (f x)) ->
  forall p x, P x -> P (iter_pos f p x).
Proof.
  intros Hf. induction p as [p IH|p IH|]; intros x Hx; simpl.
  - apply IH, IH, Hf, Hx.
  - apply IH, IH, Hx.
  - apply Hf, Hx.
Qed.

Lemma shr_1_nonneg mrs : 0 <= shr_m mrs -> 0 <= shr_m (shr_1 mrs).
Proof.
  destruct mrs as [m r s]. simpl.
  destruct m as [|[p|p|]|[p|p|]]; simpl; lia.
Qed.

Lemma shr_record_of_loc_m m l : shr_m (shr_record_of_loc m l) = m.
Proof. destruct l as [|[]]; reflexivity. Qed.

Lemma shr_fexp_nonneg m e l :
  0 <= m -> 0 <= shr_m (fst (shr_fexp prec emax m e l)).
Proof.
  intros Hm. unfold shr_fexp, shr.
  destruct (fexp prec emax (Zdigits2 m + e) - e) as [|p|p]; simpl;
    try (rewrite shr_record_of_loc_m; exact Hm).
  apply iter_pos_invariant.
  - apply shr_1_nonneg.
  - rewrite shr_record_of_loc_m. exact Hm.
Qed.

Lemma round_nearest_even_nonneg m l : 0 <= m -> 0 <= round_nearest_even m l.
Proof.
  intros Hm. destruct l as [|[]]; simpl; try lia.
  destruct (Z.even m); lia.
Qed.

(** Rounding a non-negative mantissa never produces a NaN. *)
Lemma binary_round_aux_not_nan sx mx ex lx :
  0 <= mx -> binary_round_aux prec emax sx mx ex lx <> S754_nan.
Proof.
  intros Hm. unfold binary_round_aux.
  pose proof (shr_fexp_nonneg mx ex lx Hm) as H1.
  destruct (shr_fexp prec emax mx ex lx) as [mrs' e']. simpl in H1.
  pose proof (shr_fexp_nonneg
                (round_nearest_even (shr_m mrs') (loc_of_shr_record mrs'))
                e' loc_Exact (round_nearest_even_nonneg _ _ H1)) as H2.
  destruct (shr_fexp prec emax _ e' loc_Exact) as [mrs'' e'']. simpl in H2.
  destruct (shr_m mrs'') as [|p|p]; try discriminate.
  - destruct (e'' <=? emax - prec); discriminate.
  - lia.
Qed.

Lemma binary_normalize_not_nan m e szero :
  binary_normalize prec emax m e szero <> S754_nan.
Proof.
  unfold binary_normalize, binary_round.
  destruct m as [|p|p]; try discriminate;
    destruct (shl_align p e _) as [mz ez]; apply binary_round_aux_not_nan; lia.
Qed.

(** A product is a NaN only when a factor is one, or for zero times
    infinity. *)
Lemma SFmul_finite_not_nan s m e y :
  y <> S754_nan -> SFmul prec emax (S754_finite s m e) y <> S754_nan.
Proof.
  intros Hy. destruct y as [sy|sy| |sy my ey]; simpl; try discriminate.
  - congruence.
  - apply binary_round_aux_not_nan. lia.
Qed.

End FloatFacts.

Lemma SFcompare_antisym x y :
  SFcompare y x = option_map CompOpp (SFcompare x y).
Proof.
  destruct x as [sx|sx| |sx mx ex], y as [sy|sy| |sy my ey]; simpl;
    try reflexivity;
    try (destruct sx; reflexivity);
    try (destruct sy; reflexivity);
    try (destruct sx, sy; reflexivity).
  destruct sx, sy; simpl; try reflexivity;
    rewrite (Z.compare_antisym ey ex);
    destruct (ey ?= ex) eqn:He; simpl; try reflexivity;
    f_equal; rewrite (Pos.compare_cont_antisym mx my Eq); simpl;
    rewrite ?CompOpp_involutive; reflexivity.
Qed.

(** On numbers, "not below" is "at least". *)
Lemma SFltb_false_iff_leb x y :
  x <> S754_nan -> y <> S754_nan ->
  (SFltb x y = false <-> SFleb y x = true).
Proof.
  intros Hx Hy. unfold SFltb, SFleb. rewrite (SFcompare_antisym x y).
  destruct (SFcompare x y) as [[]|] eqn:Hc; simpl; try (split; congruence).
  exfalso. destruct x, y; simpl in Hc; try discriminate; congruence.
Qed.

Ltac float_cases x y z :=
  destruct x as [[]|[]| |[] ? ?], y as [[]|[]| |[] ? ?], z as [[]|[]| |[] ? ?];
  simpl; try discriminate; try reflexivity.

Ltac order_cases :=
  repeat match goal with
         | |- context [?a ?= ?b] =>
             destruct (Z.compare_spec a b); subst; simpl
         end;
  try discriminate; try reflexivity; try lia;
  change (@PosDef.Pos.compare_cont Eq) with Pos.compare;
  repeat match goal with
         | |- context [Pos.compare ?a ?b] =>
             destruct (Pos.compare_spec a b); subst; simpl
         end;
  try discriminate; try reflexivity; try lia.

Lemma SFltb_trans x y z :
  SFltb x y = true -> SFltb y z = true -> SFltb x z = true.
Proof. unfold SFltb. float_cases x y z; order_cases. Qed.

Lemma SFleb_trans x y z :
  SFleb x y = true -> SFleb y z = true -> SFleb x z = true.
Proof. unfold SFleb. float_cases x y z; order_cases. Qed.

Lemma SFleb_ltb_trans x y z :
  SFleb x y = true -> SFltb y z = true -> SFltb x z = true.
Proof. unfold SFleb, SFltb. float_cases x y z; order_cases. Qed.

Lemma SFleb_refl x : x <> S754_nan -> SFleb x x = true.
Proof.
  unfold SFleb. destruct x as [[]|[]| |[] m e]; simpl; try reflexivity;
    try congruence; intros _; order_cases.
Qed.

(** [std::min_element] on numbers: the result is one of the elements and
    none of them is below it. *)
Lemma min_element_from_least (rest : list F32.t) :
  forall smallest,
    Forall (fun x => x <> S754_nan) (smallest :: rest) ->
    In (min_element_from smallest rest) (smallest :: rest)
    /\ Forall (fun x => F32.leb (min_element_from smallest rest) x = true)
              (smallest :: rest).
Proof.
  unfold F32.leb.
  induction rest as [|x rest IH]; intros s Hnum; simpl.
  - inversion Hnum; subst. split; [now left|].
    constructor; [now apply SFleb_refl|constructor].
  - inversion Hnum as [|? ? Hs Hrest]; subst.
    inversion Hrest as [|? ? Hx Hrest']; subst.
    unfold F32.ltb. destruct (SFltb x s) eqn:Hlt.
    + destruct (IH x Hrest) as [Hin Hall]. split; [now right|].
      constructor; [|exact Hall].
      inversion Hall as [|? ? Hmx _]; subst.
      apply (SFleb_trans _ x _ Hmx).
      apply SFltb_false_iff_leb; try assumption.
      destruct (SFltb s x) eqn:Hsx; [|reflexivity].
      pose proof (SFltb_trans _ _ _ Hlt Hsx) as Hxx.
      pose proof (proj2 (SFltb_false_iff_leb x x Hx Hx) (SFleb_refl x Hx)). congruence.
    + destruct (IH s ltac:(constructor; assumption)) as [Hin Hall]. split.
      * destruct Hin as [Hin|Hin]; [now left|right; now right].
      * inversion Hall as [|? ? Hms Hall']; subst.
        constructor; [exact Hms|]. constructor; [|exact Hall'].
        apply (SFleb_trans _ s _ Hms).
        now apply SFltb_false_iff_leb.
Qed.

Lemma min_element_least (snr : SNR) :
  Forall (fun x => x <> S754_nan) (snr_vector snr) ->
  In (min_element snr) (snr_vector snr)
  /\ Forall (fun x => F32.leb (min_element snr) x = true) (snr_vector snr).
Proof. intros H. apply (min_element_from_least _ _ H). Qed.

(** On numbers, the smallest channel is below the threshold exactly when
    some channel is. *)
Lemma min_element_below (snr : SNR) (threshold : F32.t) :
  Forall (fun x => x <> S754_nan) (snr_vector snr) ->
  (F32.ltb (min_element snr) threshold = true
   <-> Exists (fun x => F32.ltb x threshold = true) (snr_vector snr)).
Proof.
  intros Hnum. destruct (min_element_least snr Hnum) as [Hin Hall]. split.
  - intros Hlt. apply Exists_exists. exists (min_element snr). now split.
  - intros Hex. apply Exists_exists in Hex. destruct Hex as (x & Hx & Hlt).
    rewrite Forall_forall in Hall.
    apply (SFleb_ltb_trans _ x _ (Hall x Hx) Hlt).
Qed.

Lemma F32_of_Z_not_nan z : F32.of_Z z <> S754_nan.
Proof. apply binary_normalize_not_nan. Qed.

Lemma F32_is_nan_false x : F32.is_nan x = false <-> x <> S754_nan.
Proof. destruct x; simpl; split; congruence. Qed.

(* ================================================================== *)
(** ** Vectors *)

Lemma back_snoc {X : Type} (v : list X) (x : X) : back (v ++ [x]) = Some x.
Proof.
  induction v as [|y v IH]; [reflexivity|].
  simpl. destruct (v ++ [x]) eqn:E; [destruct v; discriminate|exact IH].
Qed.

Lemma pop_back_snoc {X : Type} (v : list X) (x : X) : pop_back (v ++ [x]) = v.
Proof. apply removelast_last. Qed.

Lemma update_back_snoc {X : Type} (f : X -> X) (v : list X) (x : X) :
  update_back f (v ++ [x]) = v ++ [f x].
Proof.
  induction v as [|y v IH]; [reflexivity|].
  simpl. destruct (v ++ [x]) eqn:E; [destruct v; discriminate|].
  now rewrite IH.
Qed.

Lemma back_some_snoc {X : Type} (v : list X) (x : X) :
  back v = Some x -> exists v', v = v' ++ [x].
Proof.
  destruct v as [|y v] using rev_ind; [discriminate|].
  rewrite back_snoc. intros [= ->]. now exists v.
Qed.

Lemma back_none {X : Type} (v : list X) : back v = None -> v = [].
Proof.
  destruct v as [|y v] using rev_ind; [reflexivity|].
  rewrite back_snoc. discriminate.
Qed.

Lemma update_back_length {X : Type} (f : X -> X) (v : list X) :
  List.length (update_back f v) = List.length v.
Proof.
  destruct v as [|y v] using rev_ind; [reflexivity|].
  rewrite update_back_snoc, !length_app. reflexivity.
Qed.

Lemma submissions_app (a b : list Event) :
  submissions (a ++ b) = submissions a ++ submissions b.
Proof.
  induction a as [|e a IH]; [reflexivity|].
  destruct e; simpl; rewrite IH; reflexivity.
Qed.

(* ================================================================== *)
(** ** The loop: one step *)

Lemma intern_fields (m : string) (st : State) :
  chunk (intern m st) = chunk st
  /\ poorSNR (intern m st) = poorSNR st
  /\ tooFewPasses (intern m st) = tooFewPasses st
  /\ holeNumber (intern m st) = holeNumber st
  /\ skipZmw (intern m st) = skipZmw st
  /\ trace (intern m st) = trace st.
Proof. unfold intern. destruct (existsb _ _); repeat split. Qed.

(** What the filters of a new ZMW leave alone. *)
Lemma start_zmw_frame (cfg : Pipeline) (st : State) (read : BamRecord.t) :
  holeNumber (start_zmw cfg st read) = Some (BamRecord.HoleNumber read)
  /\ tooFewPasses (start_zmw cfg st read) = tooFewPasses st
  /\ submissions (trace (start_zmw cfg st read)) = submissions (trace st).
Proof.
  unfold start_zmw.
  destruct (off_whitelist cfg read); [repeat split|].
  destruct (invalid_chemistry read).
  { simpl. rewrite submissions_app, app_nil_r. repeat split. }
  destruct (poor_snr cfg read).
  { simpl. rewrite submissions_app, app_nil_r. repeat split. }
  repeat split.
Qed.

(** C4. At a molecule boundary the filters on the new ZMW run after the
    previous chunk has been dealt with, in the order whitelist, chemistry,
    SNR, and the first failure decides: off the whitelist or with another
    chemistry the ZMW is skipped and no counter changes; with the smallest
    of its four SNR values (what [std::min_element] returns; on numbers one
    of the four, at most each of them) below [minSnr] it is skipped and
    [poorSNR] goes up by one; otherwise it is not skipped and a chunk without
    reads is started for it. *)
Theorem molecule_filters (cfg : Pipeline) (st : State) (read : BamRecord.t) :
  new_zmw (holeNumber st) read = true ->
  let before := flushed cfg st read in
  let after := start_zmw cfg before read in
  on_read cfg st read = accept_read cfg after read
  /\ tooFewPasses after = tooFewPasses before
  /\ (Forall (fun x => x <> S754_nan) (snr_vector (BamRecord.SignalToNoise read)) ->
        In (min_element (BamRecord.SignalToNoise read))
           (snr_vector (BamRecord.SignalToNoise read))
        /\ Forall (fun x => F32.leb (min_element (BamRecord.SignalToNoise read)) x = true)
                  (snr_vector (BamRecord.SignalToNoise read)))
  /\ (off_whitelist cfg read = true ->
        skipZmw after = true /\ poorSNR after = poorSNR before
        /\ chunk after = chunk before /\ trace after = trace before)
  /\ (off_whitelist cfg read = false -> invalid_chemistry read = true ->
        skipZmw after = true /\ poorSNR after = poorSNR before
        /\ chunk after = chunk before
        /\ trace after = trace before
             ++ [LogInvalidChemistry (BamRecord.MovieName read)
                                     (BamRecord.HoleNumber read)])
  /\ (off_whitelist cfg read = false -> invalid_chemistry read = false ->
      F32.ltb (min_element (BamRecord.SignalToNoise read)) (minSnr cfg) = true ->
        skipZmw after = true
        /\ poorSNR after = Mach.size_add (poorSNR before) 1
        /\ (0 <= poorSNR before < Mach.size_modulus - 1 ->
            poorSNR after = poorSNR before + 1)
        /\ chunk after = chunk before)
  /\ (off_whitelist cfg read = false -> invalid_chemistry read = false ->
      F32.ltb (min_element (BamRecord.SignalToNoise read)) (minSnr cfg) = false ->
        skipZmw after = false /\ poorSNR after = poorSNR before
        /\ chunk after = chunk before ++ [new_chunk read]
        /\ trace after = trace before).
Proof.
  intros Hnew before after.
  split.
  { unfold on_read.
    destruct (intern_fields (BamRecord.MovieName read) st) as (_ & _ & _ & Hh & _).
    rewrite Hh, Hnew. reflexivity. }
  split.
  { apply start_zmw_frame. }
  split.
  { apply min_element_least. }
  subst after. unfold start_zmw, poor_snr.
  repeat split; intros;
    repeat match goal with H : _ = _ :> bool |- _ => rewrite H; clear H end;
    try reflexivity.
  simpl. apply size_add_small; lia.
Qed.

Lemma molecule_filters_witness :
  let read := Sample.read "m1" 7 900 Sample.snr_low Sample.p6c4 0 10 in
  let after := start_zmw Sample.cfg (flushed Sample.cfg initial_state read) read in
  new_zmw (holeNumber initial_state) read = true
  /\ skipZmw after = true /\ poorSNR after = 1 /\ chunk after = [].
Proof.
  intros read after. split; [reflexivity|].
  destruct (molecule_filters Sample.cfg initial_state read eq_refl)
    as (_ & _ & _ & _ & _ & H & _).
  destruct (H eq_refl eq_refl eq_refl) as (Hs & _ & Hp & Hc).
  split; [exact Hs|]. split; [|exact Hc].
  apply Hp. unfold Mach.size_modulus. simpl. lia.
Defined.

Lemma extend_nil (c : Chunk) : extend c [] = c.
Proof. destruct c. unfold extend. simpl. now rewrite app_nil_r. Qed.

Lemma push_read_extend (c : Chunk) (rs : list Subread) (r : Subread) :
  push_read r (extend c rs) = extend c (rs ++ [r]).
Proof. unfold push_read, extend. simpl. now rewrite app_assoc. Qed.

Lemma extend_extend (c : Chunk) (rs rs' : list Subread) :
  extend (extend c rs) rs' = extend c (rs ++ rs').
Proof. unfold extend. simpl. now rewrite app_assoc. Qed.

(** The read itself changes nothing but the last chunk. *)
Lemma accept_read_frame (cfg : Pipeline) (st : State) (read : BamRecord.t) :
  let st' := accept_read cfg st read in
  poorSNR st' = poorSNR st /\ tooFewPasses st' = tooFewPasses st
  /\ holeNumber st' = holeNumber st /\ skipZmw st' = skipZmw st
  /\ List.length (chunk st') = List.length (chunk st)
  /\ submissions (trace st') = submissions (trace st).
Proof.
  unfold accept_read. destruct (skipZmw st) eqn:Hs; [repeat split; assumption|].
  destruct (low_accuracy cfg read); simpl.
  - rewrite submissions_app, app_nil_r. repeat split; assumption.
  - rewrite update_back_length. repeat split; assumption.
Qed.

Lemma accept_read_open (cfg : Pipeline) (st : State) (read : BamRecord.t)
      (v : list Chunk) (c : Chunk) (rs : list Subread) :
  skipZmw st = false -> chunk st = v ++ [extend c rs] ->
  chunk (accept_read cfg st read)
  = v ++ [extend c (rs ++ map (make_subread (hole_of st)) (accepted cfg [read]))].
Proof.
  intros Hs Hc. unfold accept_read, accepted. rewrite Hs. simpl.
  destruct (low_accuracy cfg read); simpl.
  - now rewrite app_nil_r.
  - now rewrite Hc, update_back_snoc, push_read_extend.
Qed.

Lemma accept_read_skipped (cfg : Pipeline) (st : State) (read : BamRecord.t) :
  skipZmw st = true -> accept_read cfg st read = st.
Proof. intros Hs. unfold accept_read. now rewrite Hs. Qed.

(** A read of the ZMW in progress. *)
Lemma on_read_same_zmw (cfg : Pipeline) (st : State) (read : BamRecord.t) :
  new_zmw (holeNumber st) read = false ->
  on_read cfg st read = accept_read cfg (intern (BamRecord.MovieName read) st) read.
Proof.
  intros Hn. unfold on_read.
  destruct (intern_fields (BamRecord.MovieName read) st) as (_ & _ & _ & Hh & _).
  now rewrite Hh, Hn.
Qed.

Lemma new_zmw_false_iff (h : option Z) (read : BamRecord.t) :
  new_zmw h read = false <-> h = Some (BamRecord.HoleNumber read).
Proof.
  destruct h as [n|]; simpl.
  - rewrite negb_false_iff, Z.eqb_eq. split; congruence.
  - split; discriminate.
Qed.

(** The reads that follow the first read of a ZMW that is not skipped: each
    is appended to the open chunk or dropped, and nothing else changes. *)
Lemma open_chunk_reads (cfg : Pipeline) (h : Z) (v : list Chunk) (c : Chunk)
      (reads : list BamRecord.t) :
  Forall (fun r => BamRecord.HoleNumber r = h) reads ->
  forall (st : State) (rs : list Subread),
  holeNumber st = Some h -> skipZmw st = false -> chunk st = v ++ [extend c rs] ->
  let st' := fold_left (on_read cfg) reads st in
  chunk st' = v ++ [extend c (rs ++ map (make_subread h) (accepted cfg reads))]
  /\ holeNumber st' = Some h /\ skipZmw st' = false
  /\ poorSNR st' = poorSNR st /\ tooFewPasses st' = tooFewPasses st
  /\ submissions (trace st') = submissions (trace st).
Proof.
  induction 1 as [|r reads Hr _ IH]; intros st rs Hh Hs Hc; simpl.
  - unfold accepted. simpl. rewrite app_nil_r. repeat split; assumption.
  - assert (Hn : new_zmw (holeNumber st) r = false)
      by (apply new_zmw_false_iff; congruence).
    rewrite (on_read_same_zmw cfg st r Hn).
    set (st0 := intern (BamRecord.MovieName r) st).
    destruct (intern_fields (BamRecord.MovieName r) st)
      as (Ic & Ip & It & Ih & Is & Itr). fold st0 in Ic, Ip, It, Ih, Is, Itr.
    destruct (accept_read_frame cfg st0 r) as (Fp & Ft & Fh & Fs & _ & Ftr).
    assert (Hopen := accept_read_open cfg st0 r v c rs
                       ltac:(congruence) ltac:(congruence)).
    assert (Hhole : hole_of st0 = h) by (unfold hole_of; now rewrite Ih, Hh).
    rewrite Hhole in Hopen.
    destruct (IH (accept_read cfg st0 r) _ ltac:(congruence) ltac:(congruence) Hopen)
      as (Rc & Rh & Rs & Rp & Rt & Rtr).
    split.
    { rewrite Rc. unfold accepted. simpl.
      destruct (low_accuracy cfg r); simpl; rewrite <- ?app_assoc; reflexivity. }
    repeat split; congruence.
Qed.

(* ================================================================== *)
(** ** The loop: boundaries *)

Lemma drop_short_empty (cfg : Pipeline) (st : State) :
  chunk st = [] -> drop_short cfg st = st.
Proof. intros H. unfold drop_short. now rewrite H. Qed.

Lemma drop_short_enough (cfg : Pipeline) (st : State) (v : list Chunk) (c : Chunk) :
  chunk st = v ++ [c] -> too_few_passes cfg c = false -> drop_short cfg st = st.
Proof. intros H Hc. unfold drop_short. now rewrite H, back_snoc, Hc. Qed.

Lemma drop_short_short (cfg : Pipeline) (st : State) (v : list Chunk) (c : Chunk) :
  chunk st = v ++ [c] -> too_few_passes cfg c = true ->
  let st' := drop_short cfg st in
  chunk st' = v
  /\ tooFewPasses st' = Mach.size_add (tooFewPasses st) 1
  /\ poorSNR st' = poorSNR st
  /\ holeNumber st' = holeNumber st /\ skipZmw st' = skipZmw st
  /\ trace st' = trace st ++ [LogTooFewPasses (Id c) (List.length (Reads c))
                                               (MinPasses (settings cfg))].
Proof.
  intros H Hc. unfold drop_short. rewrite H, back_snoc, Hc. simpl.
  rewrite H, pop_back_snoc. repeat split.
Qed.

Lemma drop_short_frame (cfg : Pipeline) (st : State) :
  let st' := drop_short cfg st in
  poorSNR st' = poorSNR st /\ holeNumber st' = holeNumber st
  /\ skipZmw st' = skipZmw st
  /\ submissions (trace st') = submissions (trace st)
  /\ (List.length (chunk st') <= List.length (chunk st))%nat.
Proof.
  unfold drop_short. destruct (back (chunk st)) as [c|] eqn:Hb.
  - destruct (too_few_passes cfg c); [|repeat split; lia].
    simpl. rewrite submissions_app, app_nil_r.
    destruct (back_some_snoc _ _ Hb) as [v ->].
    rewrite pop_back_snoc, length_app. simpl. repeat split; lia.
  - repeat split; lia.
Qed.


Lemma submit_full_chunk (cfg : Pipeline) (st : State) : chunk (submit_full cfg st) = [].
Proof.
  unfold submit_full, chunkSize.
  destruct (chunk st) eqn:Hc; simpl; [exact Hc|reflexivity].
Qed.

Lemma submit_full_frame (cfg : Pipeline) (st : State) :
  let st' := submit_full cfg st in
  poorSNR st' = poorSNR st /\ tooFewPasses st' = tooFewPasses st
  /\ holeNumber st' = holeNumber st /\ skipZmw st' = skipZmw st
  /\ submissions (trace st')
     = submissions (trace st)
       ++ match chunk st with [] => [] | _ :: _ => [chunk st] end.
Proof.
  unfold submit_full, chunkSize.
  destruct (chunk st) eqn:Hc; simpl.
  - rewrite app_nil_r. repeat split.
  - rewrite submissions_app. repeat split.
Qed.

Lemma flushed_chunk (cfg : Pipeline) (st : State) (read : BamRecord.t) :
  chunk (flushed cfg st read) = [].
Proof. apply submit_full_chunk. Qed.

Lemma flushed_frame (cfg : Pipeline) (st : State) (read : BamRecord.t) :
  poorSNR (flushed cfg st read) = poorSNR st
  /\ holeNumber (flushed cfg st read) = holeNumber st
  /\ skipZmw (flushed cfg st read) = skipZmw st.
Proof.
  unfold flushed.
  set (st0 := intern (BamRecord.MovieName read) st).
  destruct (intern_fields (BamRecord.MovieName read) st) as (_ & Ip & _ & Ih & Is & _).
  destruct (drop_short_frame cfg st0) as (Dp & Dh & Ds & _).
  destruct (submit_full_frame cfg (drop_short cfg st0)) as (Sp & _ & Sh & Ss & _).
  fold st0 in Ip, Ih, Is. repeat split; congruence.
Qed.


Lemma start_zmw_chunk (cfg : Pipeline) (st : State) (read : BamRecord.t) :
  chunk (start_zmw cfg st read)
  = chunk st ++ (if passes_filters cfg read then [new_chunk read] else [])
  /\ skipZmw (start_zmw cfg st read) = negb (passes_filters cfg read).
Proof.
  unfold start_zmw, passes_filters.
  destruct (off_whitelist cfg read); simpl; [now rewrite app_nil_r|].
  destruct (invalid_chemistry read); simpl; [now rewrite app_nil_r|].
  destruct (poor_snr cfg read); simpl; [now rewrite app_nil_r|].
  split; reflexivity.
Qed.

Lemma on_read_new_zmw (cfg : Pipeline) (st : State) (read : BamRecord.t) :
  new_zmw (holeNumber st) read = true ->
  on_read cfg st read = accept_read cfg (start_zmw cfg (flushed cfg st read) read) read.
Proof.
  intros Hn. unfold on_read.
  destruct (intern_fields (BamRecord.MovieName read) st) as (_ & _ & _ & Hh & _).
  now rewrite Hh, Hn.
Qed.

Lemma on_read_hole (cfg : Pipeline) (st : State) (read : BamRecord.t) :
  holeNumber (on_read cfg st read) = Some (BamRecord.HoleNumber read).
Proof.
  destruct (new_zmw (holeNumber st) read) eqn:Hn.
  - rewrite (on_read_new_zmw _ _ _ Hn).
    destruct (accept_read_frame cfg (start_zmw cfg (flushed cfg st read) read) read)
      as (_ & _ & -> & _).
    apply start_zmw_frame.
  - rewrite (on_read_same_zmw _ _ _ Hn).
    destruct (accept_read_frame cfg (intern (BamRecord.MovieName read) st) read)
      as (_ & _ & -> & _).
    destruct (intern_fields (BamRecord.MovieName read) st) as (_ & _ & _ & -> & _).
    now apply new_zmw_false_iff.
Qed.






Lemma on_read_before_accept (cfg : Pipeline) (st : State) (read : BamRecord.t) :
  on_read cfg st read = accept_read cfg (before_accept cfg st read) read.
Proof. reflexivity. Qed.

(** Where a read is appended, [*holeNumber] and [chunk->back()] are
    defined. *)
Lemma before_accept_defined (cfg : Pipeline) (st : State) (read : BamRecord.t) :
  chunk_open st ->
  holeNumber (before_accept cfg st read) = Some (BamRecord.HoleNumber read)
  /\ chunk_open (before_accept cfg st read).
Proof.
  intros Hopen. unfold before_accept.
  destruct (intern_fields (BamRecord.MovieName read) st) as (Ic & _ & _ & Ih & Is & _).
  rewrite Ih. destruct (new_zmw (holeNumber st) read) eqn:Hn.
  - split; [apply start_zmw_frame|]. unfold boundary, chunk_open. intros _ Hs.
    destruct (start_zmw_chunk cfg
                (submit_full cfg (drop_short cfg (intern (BamRecord.MovieName read) st)))
                read) as (Hc & Hskip).
    rewrite Hskip in Hs. apply negb_false_iff in Hs. rewrite Hs in Hc.
    rewrite Hc. intros Hnil. apply app_eq_nil in Hnil. destruct Hnil; discriminate.
  - apply new_zmw_false_iff in Hn. split; [now rewrite Ih|].
    unfold chunk_open. rewrite Ih, Is, Ic. exact Hopen.
Qed.

Lemma on_read_chunk_open (cfg : Pipeline) (st : State) (read : BamRecord.t) :
  chunk_open st -> chunk_open (on_read cfg st read).
Proof.
  intros Hopen. rewrite on_read_before_accept.
  destruct (before_accept_defined cfg st read Hopen) as [_ Hb].
  destruct (accept_read_frame cfg (before_accept cfg st read) read)
    as (_ & _ & Hh & Hs & Hl & _).
  unfold chunk_open in *. rewrite Hh, Hs. intros H1 H2 Hnil.
  apply (Hb H1 H2). rewrite Hnil in Hl.
  destruct (chunk (before_accept cfg st read)); [reflexivity|discriminate].
Qed.

Lemma fold_on_read_chunk_open (cfg : Pipeline) (reads : list BamRecord.t) :
  forall st, chunk_open st -> chunk_open (fold_left (on_read cfg) reads st).
Proof.
  induction reads as [|r reads IH]; intros st H; simpl; [exact H|].
  apply IH, on_read_chunk_open, H.
Qed.

Lemma open_file_chunk_open (st : State) : chunk_open (open_file st).
Proof. intros H. now contradiction H. Qed.

(** In every run, every read that is appended is appended to a chunk that
    exists, under a hole number that is set. *)
Lemma append_is_defined (cfg : Pipeline) (st : State)
      (reads : list BamRecord.t) (read : BamRecord.t) :
  let st' := before_accept cfg (fold_left (on_read cfg) reads (open_file st)) read in
  holeNumber st' = Some (BamRecord.HoleNumber read)
  /\ (skipZmw st' = false -> chunk st' <> []).
Proof.
  intros st'.
  destruct (before_accept_defined cfg (fold_left (on_read cfg) reads (open_file st)) read)
    as [Hh Ho].
  { apply fold_on_read_chunk_open, open_file_chunk_open. }
  split; [exact Hh|]. intros Hs. apply Ho; [|exact Hs].
  unfold st' in Hh. congruence.
Qed.

Lemma hole_change_is_molecule_change (reads : list BamRecord.t) :
  forall current,
    Forall2 (fun b m => b = true -> m = true)
            (hole_changes (option_map snd current) reads)
            (molecule_changes current reads).
Proof.
  induction reads as [|r reads IH]; intros current; simpl; constructor.
  - destruct current as [id|]; simpl; [|reflexivity].
    unfold molecule_eqb, MoleculeId. simpl.
    destruct (snd id =? BamRecord.HoleNumber r); simpl; [discriminate|].
    now rewrite andb_false_r.
  - apply (IH (Some (MoleculeId r))).
Qed.

(** C1 (as amended). In every input file a molecule boundary is found
    exactly at the first record of the file and at every record whose hole
    number differs from the hole number of the record before it; the movie
    name is not compared. A boundary is what triggers the drop or submission
    of the chunk in progress and the filters on the new ZMW. Every boundary
    found is a change of (movie name, hole number) or the start of a file. *)
Theorem boundaries_by_hole_number (cfg : Pipeline) :
  (forall st reads,
     boundaries cfg (open_file st) reads = hole_changes None reads)
  /\ (forall st reads,
     boundaries cfg st reads = hole_changes (holeNumber st) reads)
  /\ (forall st read,
     on_read cfg st read
     = accept_read cfg
         (if new_zmw (holeNumber st) read
          then start_zmw cfg (flushed cfg st read) read
          else intern (BamRecord.MovieName read) st) read)
  /\ (forall st reads,
     Forall2 (fun b m => b = true -> m = true)
             (boundaries cfg (open_file st) reads)
             (molecule_changes None reads)).
Proof.
  assert (H : forall reads st,
             boundaries cfg st reads = hole_changes (holeNumber st) reads).
  { induction reads as [|r reads IH]; intros st; simpl; [reflexivity|].
    destruct (intern_fields (BamRecord.MovieName r) st) as (_ & _ & _ & -> & _).
    rewrite IH, on_read_hole. reflexivity. }
  split; [|split; [|split]].
  - intros st reads. apply H.
  - intros st reads. apply H.
  - intros st read. destruct (new_zmw (holeNumber st) read) eqn:Hn.
    + now apply on_read_new_zmw.
    + now apply on_read_same_zmw.
  - intros st reads. rewrite H. apply (hole_change_is_molecule_change reads None).
Qed.

(** C1 as the specification has it, with the movie name part of the
    identity, fails. Two records of one file with the same hole number and
    different movie names: the molecule changes at the second record, the
    loop finds no boundary there, and both records end up in one chunk. *)
Lemma boundary_ignores_movie :
  boundaries Sample.cfg (open_file initial_state) [Streams.a7; Streams.b7]
  <> molecule_changes None [Streams.a7; Streams.b7]
  /\ MoleculeId Streams.a7 <> MoleculeId Streams.b7
  /\ molecule_changes None [Streams.a7; Streams.b7] = [true; true]
  /\ boundaries Sample.cfg (open_file initial_state) [Streams.a7; Streams.b7]
     = [true; false]
  /\ submissions (trace (assemble Sample.cfg [[Streams.a7; Streams.b7]]))
     = [[ {| Id := ReadId.mk "movieA" 7 None;
             Reads := [make_subread 7 Streams.a7; make_subread 7 Streams.b7];
             ChunkSNR := Sample.snr_high |} ]].
Proof.
  split; [vm_compute; discriminate|].
  split; [discriminate|].
  split; [reflexivity|]. split; vm_compute; reflexivity.
Qed.

(* ================================================================== *)
(** ** The loop: the reads of one ZMW *)

Lemma start_zmw_passes (cfg : Pipeline) (st : State) (read : BamRecord.t) :
  passes_filters cfg read = true ->
  let st' := start_zmw cfg st read in
  chunk st' = chunk st ++ [new_chunk read]
  /\ skipZmw st' = false /\ poorSNR st' = poorSNR st
  /\ trace st' = trace st.
Proof.
  unfold passes_filters, start_zmw. intros H.
  apply andb_prop in H. destruct H as [H H3].
  apply andb_prop in H. destruct H as [H1 H2].
  apply negb_true_iff in H1, H2, H3. rewrite H1, H2, H3.
  repeat split.
Qed.

(** The records of a ZMW that passes the filters, from its first record to
    the last before the next boundary. *)
Lemma molecule_reads (cfg : Pipeline) (st : State) (r : BamRecord.t)
      (rs : list BamRecord.t) :
  new_zmw (holeNumber st) r = true ->
  passes_filters cfg r = true ->
  Forall (fun r' => BamRecord.HoleNumber r' = BamRecord.HoleNumber r) rs ->
  let st' := fold_left (on_read cfg) (r :: rs) st in
  chunk st' = [extend (new_chunk r)
                 (map (make_subread (BamRecord.HoleNumber r)) (accepted cfg (r :: rs)))]
  /\ holeNumber st' = Some (BamRecord.HoleNumber r) /\ skipZmw st' = false
  /\ poorSNR st' = poorSNR st
  /\ tooFewPasses st' = tooFewPasses (flushed cfg st r)
  /\ submissions (trace st') = submissions (trace (flushed cfg st r)).
Proof.
  intros Hn Hp Hrs. simpl. rewrite (on_read_new_zmw _ _ _ Hn).
  set (st0 := flushed cfg st r).
  set (st1 := start_zmw cfg st0 r).
  destruct (start_zmw_passes cfg st0 r Hp) as (Sc & Ss & Sp & Str).
  destruct (start_zmw_frame cfg st0 r) as (Sh & St & _).
  fold st1 in Sc, Ss, Sp, Str, Sh, St.
  unfold st0 in Sc at 1. rewrite flushed_chunk in Sc. simpl in Sc.
  rewrite <- (extend_nil (new_chunk r)) in Sc.
  assert (Hopen := accept_read_open cfg st1 r [] (new_chunk r) [] Ss Sc).
  assert (Hhole : hole_of st1 = BamRecord.HoleNumber r)
    by (unfold hole_of; now rewrite Sh).
  rewrite Hhole in Hopen. simpl in Hopen.
  destruct (accept_read_frame cfg st1 r) as (Ap & At & Ah & As & _ & Atr).
  destruct (open_chunk_reads cfg (BamRecord.HoleNumber r) [] (new_chunk r) rs Hrs
              (accept_read cfg st1 r) _
              ltac:(congruence) ltac:(congruence) Hopen)
    as (Rc & Rh & Rs & Rp & Rt & Rtr).
  destruct (flushed_frame cfg st r) as (Fp & _).
  split.
  { rewrite Rc. simpl. unfold accepted. simpl.
    destruct (low_accuracy cfg r); simpl; reflexivity. }
  repeat split; try congruence.
  rewrite Rp, Ap, Sp. exact Fp.
Qed.

Lemma F32_1000 : F32.of_Z 1000 = S754_finite false 16384000 (-14).
Proof. reflexivity. Qed.

(** With a threshold that is a number, line 463 drops a read exactly when
    its accuracy is not at least 1000 times [--minReadScore]. *)
Lemma low_accuracy_accurate (o : Options.t) (wl : option Whitelist)
      (read : BamRecord.t) :
  Options.MinReadScore o <> S754_nan ->
  low_accuracy (pipeline_of o wl) read = negb (accurate o read).
Proof.
  intros Hnum. unfold low_accuracy, accurate, pipeline_of, F32.ltb, F32.leb. simpl.
  assert (Hthr : F32.mul (F32.of_Z 1000) (Options.MinReadScore o) <> S754_nan).
  { rewrite F32_1000. apply SFmul_finite_not_nan. exact Hnum. }
  pose proof (SFltb_false_iff_leb _ _ (F32_of_Z_not_nan (BamRecord.ReadAccuracy read)) Hthr)
    as Hiff.
  destruct (SFltb _ _), (SFleb _ _); simpl; try reflexivity; exfalso.
  - destruct Hiff as [_ H]. specialize (H eq_refl). discriminate.
  - destruct Hiff as [H _]. specialize (H eq_refl). discriminate.
Qed.

(** C6. Of the records of a ZMW that is not skipped, from its first record
    to the last before the next boundary, the chunk receives exactly those
    whose accuracy is at least 1000 times the value of [--minReadScore], in
    the order of the stream; a record that is dropped leaves the ZMW open
    and not skipped, so the records after it are still taken. *)
Theorem read_admission (o : Options.t) (wl : option Whitelist) (st : State)
        (r : BamRecord.t) (rs : list BamRecord.t) :
  let cfg := pipeline_of o wl in
  Options.MinReadScore o <> S754_nan ->
  new_zmw (holeNumber st) r = true ->
  passes_filters cfg r = true ->
  Forall (fun r' => BamRecord.HoleNumber r' = BamRecord.HoleNumber r) rs ->
  let st' := fold_left (on_read cfg) (r :: rs) st in
  chunk st' = [extend (new_chunk r)
                 (map (make_subread (BamRecord.HoleNumber r))
                      (filter (accurate o) (r :: rs)))]
  /\ skipZmw st' = false
  /\ holeNumber st' = Some (BamRecord.HoleNumber r)
  /\ (forall read st0,
        skipZmw st0 = false ->
        accept_read cfg st0 read
        = if accurate o read
          then set_chunk (update_back (push_read (make_subread (hole_of st0) read))
                                      (chunk st0)) st0
          else emit (LogLowAccuracy (BamRecord.FullName read)
                                    (BamRecord.ReadAccuracy read)
                                    (minReadScore cfg)) st0).
Proof.
  intros cfg Hnum Hn Hp Hrs st'.
  destruct (molecule_reads cfg st r rs Hn Hp Hrs) as (Hc & Hh & Hs & _).
  split; [|split; [exact Hs|split; [exact Hh|]]].
  - subst st'. rewrite Hc. unfold accepted. do 3 f_equal.
    apply filter_ext. intros x. subst cfg.
    rewrite (low_accuracy_accurate o wl x Hnum). apply negb_involutive.
  - intros read st0 Hs0. unfold accept_read. rewrite Hs0. subst cfg.
    rewrite (low_accuracy_accurate o wl read Hnum).
    destruct (accurate o read); reflexivity.
Qed.

Lemma read_admission_witness :
  chunk (fold_left (on_read Sample.cfg) [Streams.r0; Streams.r1; Streams.r2]
                   initial_state)
  = [Streams.chunk_of Streams.r0 [Streams.r0; Streams.r2]].
Proof.
  assert (Hnum : Options.MinReadScore Sample.options <> S754_nan) by discriminate.
  assert (Hrs : Forall (fun r' => BamRecord.HoleNumber r'
                                  = BamRecord.HoleNumber Streams.r0)
                       [Streams.r1; Streams.r2])
    by (repeat constructor).
  destruct (read_admission Sample.options None initial_state Streams.r0
              [Streams.r1; Streams.r2] Hnum eq_refl eq_refl Hrs) as [H _].
  exact H.
Defined.

(* ================================================================== *)
(** ** The loop: chunks with too few passes *)

Lemma flushed_short (cfg : Pipeline) (st : State) (c : Chunk) (read : BamRecord.t) :
  chunk st = [c] -> too_few_passes cfg c = true ->
  tooFewPasses (flushed cfg st read) = Mach.size_add (tooFewPasses st) 1
  /\ submissions (trace (flushed cfg st read)) = submissions (trace st)
  /\ chunk (flushed cfg st read) = [].
Proof.
  intros Hc Ht. unfold flushed.
  set (st0 := intern (BamRecord.MovieName read) st).
  destruct (intern_fields (BamRecord.MovieName read) st) as (Ic & _ & It & _ & _ & Itr).
  fold st0 in Ic, It, Itr.
  destruct (drop_short_short cfg st0 [] c ltac:(rewrite Ic; exact Hc) Ht)
    as (Dc & Dt & _ & _ & _ & Dtr).
  destruct (submit_full_frame cfg (drop_short cfg st0)) as (_ & St & _ & _ & Str).
  rewrite Dc in Str. rewrite app_nil_r in Str.
  split; [congruence|]. split; [|apply submit_full_chunk].
  rewrite Str, Dtr, submissions_app, Itr. simpl. apply app_nil_r.
Qed.

Lemma flushed_enough (cfg : Pipeline) (st : State) (c : Chunk) (read : BamRecord.t) :
  chunk st = [c] -> too_few_passes cfg c = false ->
  tooFewPasses (flushed cfg st read) = tooFewPasses st
  /\ submissions (trace (flushed cfg st read)) = submissions (trace st) ++ [[c]]
  /\ chunk (flushed cfg st read) = [].
Proof.
  intros Hc Ht. unfold flushed.
  set (st0 := intern (BamRecord.MovieName read) st).
  destruct (intern_fields (BamRecord.MovieName read) st) as (Ic & _ & It & _ & _ & Itr).
  fold st0 in Ic, It, Itr.
  rewrite (drop_short_enough cfg st0 [] c ltac:(rewrite Ic; exact Hc) Ht).
  destruct (submit_full_frame cfg st0) as (_ & St & _ & _ & Str).
  rewrite Ic, Hc in Str.
  split; [congruence|]. split; [|apply submit_full_chunk].
  rewrite Str, Itr. reflexivity.
Qed.

Lemma finish_short (cfg : Pipeline) (st : State) (c : Chunk) :
  chunk st = [c] -> too_few_passes cfg c = true ->
  tooFewPasses (finish cfg st) = Mach.size_add (tooFewPasses st) 1
  /\ submissions (trace (finish cfg st)) = submissions (trace st)
  /\ chunk (finish cfg st) = [].
Proof.
  intros Hc Ht. unfold finish, submit_rest.
  destruct (drop_short_short cfg st [] c Hc Ht) as (Dc & Dt & _ & _ & _ & Dtr).
  rewrite Dc. split; [exact Dt|]. split; [|exact Dc].
  rewrite Dtr, submissions_app. simpl. apply app_nil_r.
Qed.

Lemma finish_enough (cfg : Pipeline) (st : State) (c : Chunk) :
  chunk st = [c] -> too_few_passes cfg c = false ->
  tooFewPasses (finish cfg st) = tooFewPasses st
  /\ submissions (trace (finish cfg st)) = submissions (trace st) ++ [[c]]
  /\ chunk (finish cfg st) = [].
Proof.
  intros Hc Ht. unfold finish, submit_rest.
  rewrite (drop_short_enough cfg st [] c Hc Ht), Hc. simpl.
  rewrite submissions_app. repeat split.
Qed.


Lemma start_accept_tooFewPasses (cfg : Pipeline) (st : State) (read : BamRecord.t) :
  tooFewPasses (accept_read cfg (start_zmw cfg st read) read) = tooFewPasses st
  /\ submissions (trace (accept_read cfg (start_zmw cfg st read) read))
     = submissions (trace st).
Proof.
  destruct (accept_read_frame cfg (start_zmw cfg st read) read)
    as (_ & -> & _ & _ & _ & ->).
  destruct (start_zmw_frame cfg st read) as (_ & -> & ->). split; reflexivity.
Qed.



(* ================================================================== *)
(** ** The loop: from one input file to the next *)

(** C10. [holeNumber] and [skipZmw] start afresh with every input file, so
    the first record of a file is a boundary whatever ZMW the file before
    ended with, the same ZMW included: the chunk left by the file before is
    dropped (and counted) or submitted on its own, the filters run again on
    the first record, and the records of the new file go to a new chunk. In
    one file the same records would have gone on to the chunk in progress. *)
Theorem file_boundary (cfg : Pipeline) (st : State) (c : Chunk)
        (r : BamRecord.t) (rs : list BamRecord.t) :
  chunk st = [c] ->
  Forall (fun r' => BamRecord.HoleNumber r' = BamRecord.HoleNumber r) rs ->
  let st1 := on_read cfg (open_file st) r in
  (holeNumber (open_file st) = None /\ skipZmw (open_file st) = false)
  /\ new_zmw (holeNumber (open_file st)) r = true
  /\ process_file cfg st (r :: rs)
     = fold_left (on_read cfg) rs
         (accept_read cfg (start_zmw cfg (flushed cfg (open_file st) r) r) r)
  /\ (too_few_passes cfg c = false ->
        submissions (trace st1) = submissions (trace st) ++ [[c]]
        /\ tooFewPasses st1 = tooFewPasses st)
  /\ (too_few_passes cfg c = true ->
        submissions (trace st1) = submissions (trace st)
        /\ tooFewPasses st1 = Mach.size_add (tooFewPasses st) 1)
  /\ (passes_filters cfg r = true ->
        chunk (process_file cfg st (r :: rs))
        = [extend (new_chunk r)
             (map (make_subread (BamRecord.HoleNumber r)) (accepted cfg (r :: rs)))])
  /\ (passes_filters cfg r = false ->
        chunk st1 = [] /\ skipZmw st1 = true)
  /\ (holeNumber st = Some (BamRecord.HoleNumber r) -> skipZmw st = false ->
        chunk (fold_left (on_read cfg) (r :: rs) st)
        = [extend c (map (make_subread (BamRecord.HoleNumber r))
                         (accepted cfg (r :: rs)))]
        /\ submissions (trace (fold_left (on_read cfg) (r :: rs) st))
           = submissions (trace st)).
Proof.
  intros Hc Hrs st1.
  assert (Hstep : st1 = accept_read cfg
                          (start_zmw cfg (flushed cfg (open_file st) r) r) r)
    by (apply on_read_new_zmw; reflexivity).
  destruct (start_accept_tooFewPasses cfg (flushed cfg (open_file st) r) r)
    as (Htf & Htr).
  rewrite <- Hstep in Htf, Htr.
  split; [split; reflexivity|]. split; [reflexivity|].
  split. { unfold process_file. simpl. fold st1. now rewrite Hstep. }
  split.
  { intros Ht.
    destruct (flushed_enough cfg (open_file st) c r Hc Ht) as (Ft & Ftr & _).
    split; [rewrite Htr; exact Ftr|rewrite Htf; exact Ft]. }
  split.
  { intros Ht.
    destruct (flushed_short cfg (open_file st) c r Hc Ht) as (Ft & Ftr & _).
    split; [rewrite Htr; exact Ftr|rewrite Htf; exact Ft]. }
  split.
  { intros Hp. unfold process_file.
    apply (molecule_reads cfg (open_file st) r rs eq_refl Hp Hrs). }
  split.
  { intros Hp.
    destruct (start_zmw_chunk cfg (flushed cfg (open_file st) r) r) as (Sc & Ss).
    rewrite Hp, flushed_chunk in Sc. rewrite Hp in Ss. simpl in Sc, Ss.
    rewrite Hstep, (accept_read_skipped _ _ _ Ss). split; assumption. }
  intros Hh Hs.
  assert (Hall : Forall (fun r' => BamRecord.HoleNumber r' = BamRecord.HoleNumber r)
                        (r :: rs)) by (constructor; [reflexivity|exact Hrs]).
  rewrite <- (extend_nil c) in Hc.
  destruct (open_chunk_reads cfg (BamRecord.HoleNumber r) [] c (r :: rs) Hall
              st [] Hh Hs Hc) as (Rc & _ & _ & _ & _ & Rtr).
  split; [exact Rc|exact Rtr].
Qed.

Lemma file_boundary_witness :
  submissions (trace (assemble Sample.cfg
                        [[Streams.r0; Streams.r2]; [Streams.r3; Streams.r4]]))
  = [[Streams.chunk_of Streams.r0 [Streams.r0; Streams.r2]];
     [Streams.chunk_of Streams.r3 [Streams.r3; Streams.r4]]]
  /\ submissions (trace (assemble Sample.cfg
                        [[Streams.r0; Streams.r2; Streams.r3; Streams.r4]]))
  = [[Streams.chunk_of Streams.r0
        [Streams.r0; Streams.r2; Streams.r3; Streams.r4]]]
  /\ submissions (trace (on_read Sample.cfg
        (open_file (process_file Sample.cfg initial_state [Streams.r0; Streams.r2]))
        Streams.r3))
  = [[Streams.chunk_of Streams.r0 [Streams.r0; Streams.r2]]]
  /\ chunk (process_file Sample.cfg
        (process_file Sample.cfg initial_state [Streams.r0; Streams.r2])
        [Streams.r3; Streams.r4])
  = [Streams.chunk_of Streams.r3 [Streams.r3; Streams.r4]].
Proof.
  split; [vm_compute; reflexivity|]. split; [vm_compute; reflexivity|].
  assert (Hrs : Forall (fun r' => BamRecord.HoleNumber r'
                                  = BamRecord.HoleNumber Streams.r3) [Streams.r4])
    by (repeat constructor).
  destruct (file_boundary Sample.cfg
              (process_file Sample.cfg initial_state [Streams.r0; Streams.r2])
              (Streams.chunk_of Streams.r0 [Streams.r0; Streams.r2])
              Streams.r3 [Streams.r4] eq_refl Hrs)
    as (_ & _ & _ & Hsub & _ & Hnew & _).
  split; [exact (proj1 (Hsub eq_refl))|exact (Hnew eq_refl)].
Defined.

(* ================================================================== *)
(** ** The report *)

Lemma report_line_written (label : string) (count total : Z) (os : ostream) :
  written (report_line label count total os)
  = written os ++ [TString label; TSize count; TString ",";
                   TDouble (fmtflags os) (precision os) (percentage count total);
                   TChar "%"; TEndl]
  /\ fmtflags (report_line label count total os) = fmtflags os
  /\ precision (report_line label count total os) = precision os.
Proof.
  unfold report_line, endl, put_char, put_double, put_string, put_size, put.
  simpl. rewrite <- !app_assoc. simpl. repeat split.
Qed.

Lemma string_append_assoc (a b c : string) :
  ((a ++ b) ++ c = a ++ b ++ c)%string.
Proof. induction a as [|x a IH]; simpl; [reflexivity|now rewrite IH]. Qed.

Lemma string_length_append (a b : string) :
  String.length (a ++ b) = (String.length a + String.length b)%nat.
Proof. induction a as [|x a IH]; simpl; [reflexivity|now rewrite IH]. Qed.

Lemma decimals_length (n : nat) : forall z, String.length (decimals n z) = n.
Proof.
  induction n as [|n IH]; intros z; simpl; [reflexivity|].
  rewrite string_length_append, IH. simpl. lia.
Qed.

(** In fixed notation with a positive precision, the text of a finite
    double ends with a point and as many digits as the precision. *)
Lemma fixed_text_decimals (n : nat) (x : F64.t) (t : string) :
  fixed_text (S n) x = Some t ->
  exists whole fraction,
    t = (whole ++ "." ++ fraction)%string /\ String.length fraction = S n.
Proof.
  assert (Hsplit : forall sign z,
            (sign ++ fixed_digits (S n) z)%string
            = ((sign ++ decimal (z / 10 ^ Z.of_nat (S n))) ++ "."
               ++ decimals (S n) (z mod 10 ^ Z.of_nat (S n)))%string).
  { intros sign z. unfold fixed_digits. now rewrite string_append_assoc. }
  unfold fixed_text.
  destruct x as [s|s| |s m e]; try discriminate; intros H; injection H as H;
    rewrite Hsplit in H; subst t;
    eexists; eexists; (split; [reflexivity|apply decimals_length]).
Qed.

(** Whatever the stream held and however it was set up,
    [WriteResultsReport] adds exactly eight lines to it, for Success,
    PoorSNR, NoSubreads, TooShort, TooFewPasses, TooManyUnusable,
    NonConvergent and PoorQuality in this order; each line holds the label,
    the count, and 100 times the count divided by the total, a double
    inserted in fixed notation with precision 2: where it is a finite
    number its text has two digits after the point. *)
Theorem WriteResultsReport_rows (report : ostream) (counts : Results) :
  exists tokens,
    written (WriteResultsReport report counts) = written report ++ tokens
    /\ rows_of tokens
       = Some (map (report_row counts) (combine report_labels outcomes))
    /\ map row_count (map (report_row counts) (combine report_labels outcomes))
       = [Success counts; PoorSNR counts; NoSubreads counts; TooShort counts;
          TooFewPasses counts; TooManyUnusable counts; NonConvergent counts;
          PoorQuality counts]
    /\ (forall count,
          percentage count (Total counts)
          = F64.div (F64.mul (F64.of_Z 100) (F64.of_Z count))
                    (F64.of_Z (Total counts)))
    /\ (forall row text,
          In row (map (report_row counts) (combine report_labels outcomes)) ->
          token_text (TDouble (row_fmt row) (row_digits row) (row_percent row))
          = Some text ->
          exists whole fraction,
            text = (whole ++ "." ++ fraction)%string
            /\ String.length fraction = 2%nat).
Proof.
  eexists. split; [|split; [|split; [|split]]].
  - unfold WriteResultsReport.
    repeat (match goal with
            | |- context [written (report_line ?l ?c ?t ?os)] =>
                let H := fresh in
                destruct (report_line_written l c t os) as (H & _ & _);
                rewrite H; clear H
            | |- context [fmtflags (report_line ?l ?c ?t ?os)] =>
                let H := fresh in
                destruct (report_line_written l c t os) as (_ & H & _);
                rewrite H; clear H
            | |- context [precision (report_line ?l ?c ?t ?os)] =>
                let H := fresh in
                destruct (report_line_written l c t os) as (_ & _ & H);
                rewrite H; clear H
            end).
    simpl. rewrite <- !app_assoc. reflexivity.
  - reflexivity.
  - reflexivity.
  - reflexivity.
  - intros row text Hin Htext. apply in_map_iff in Hin.
    destruct Hin as (lo & <- & _). simpl in Htext.
    apply (fixed_text_decimals 1 _ _ Htext).
Qed.

Lemma WriteResultsReport_rows_witness :
  exists tokens,
    written (WriteResultsReport fresh_stream (mkResults [] 2 1 0 0 1 0 0 0))
    = tokens
    /\ option_map (map row_count) (rows_of tokens) = Some [2; 1; 0; 0; 1; 0; 0; 0]
    /\ option_map (map row_fmt) (rows_of tokens)
       = Some (repeat FloatFixed 8)
    /\ option_map (map row_digits) (rows_of tokens) = Some (repeat 2 8).
Proof.
  destruct (WriteResultsReport_rows fresh_stream (mkResults [] 2 1 0 0 1 0 0 0))
    as (tokens & Hw & Hrows & Hcounts & _).
  exists tokens. split; [exact Hw|]. rewrite Hrows.
  split; [unfold option_map; rewrite Hcounts; reflexivity|].
  split; reflexivity.
Defined.

(** The report of two successes, one ZMW below the SNR threshold and one
    with too few passes, as text; and a few roundings. *)
Lemma report_text_example :
  text_of (written (WriteResultsReport fresh_stream
                      (mkResults [] 2 1 0 0 1 0 0 0)))
  = Some (unlines
            ["Success -- CCS generated,2,50.00%";
             "Failed -- Below SNR threshold,1,25.00%";
             "Failed -- No usable subreads,0,0.00%";
             "Failed -- Insert size too small,0,0.00%";
             "Failed -- Not enough full passes,1,25.00%";
             "Failed -- Too many unusable subreads,0,0.00%";
             "Failed -- CCS did not converge,0,0.00%";
             "Failed -- CCS below minimum predicted accuracy,0,0.00%"])
  /\ fixed_text 2 (percentage 1 3) = Some "33.33"
  /\ fixed_text 2 (percentage 2 3) = Some "66.67"
  /\ fixed_text 2 (percentage 1 32) = Some "3.12"
  /\ fixed_text 2 (percentage 3 32) = Some "9.38"
  /\ fixed_text 2 (percentage 0 0) = None.
Proof. repeat split; vm_compute; reflexivity. Qed.

(** C9. The report of a run that has seen no molecule, which is what [main]
    writes for an input file without records. Whatever the stream held,
    [WriteResultsReport] adds its eight rows in order, each with the count 0;
    the total the counts are divided by is 0, so every percentage is
    100.0 * 0 / 0, a NaN: no row holds a percentage in fixed notation with
    two decimal places, and what is printed in its place is left to the C
    library. *)
Theorem report_of_no_molecules (report : ostream) (records : list CCS) :
  let counts := mkResults records 0 0 0 0 0 0 0 0 in
  Total counts = 0
  /\ (exists tokens,
        written (WriteResultsReport report counts) = written report ++ tokens
        /\ rows_of tokens
           = Some (map (fun label => mkRow label 0 FloatFixed 2 S754_nan)
                       report_labels)
        /\ text_of tokens = None)
  /\ (forall digits, fixed_text digits (percentage 0 (Total counts)) = None)
  /\ main EmptyInput.world EmptyInput.options
     = ([SetLogger "INFO"; InstallSignalHandlers;
         CreateBamWriter "out.bam"
           {| HeaderReadGroups := [ccs_read_group Sample.p6c4] |};
         CreateWorkQueue 8; LaunchWriterThread;
         QueueFinalize; WriterGet;
         Report (ToFile "ccs_report.csv")
                (written (WriteResultsReport fresh_stream empty_results))],
        inr 0)
  /\ rows_of (written (WriteResultsReport fresh_stream empty_results))
     = Some (map (fun label => mkRow label 0 FloatFixed 2 S754_nan) report_labels).
Proof.
  intros counts. split; [reflexivity|]. split; [|split; [|split]].
  - eexists. split; [|split].
    + unfold WriteResultsReport.
      repeat (match goal with
              | |- context [written (report_line ?l ?c ?t ?os)] =>
                  let H := fresh in
                  destruct (report_line_written l c t os) as (H & _ & _);
                  rewrite H; clear H
              | |- context [fmtflags (report_line ?l ?c ?t ?os)] =>
                  let H := fresh in
                  destruct (report_line_written l c t os) as (_ & H & _);
                  rewrite H; clear H
              | |- context [precision (report_line ?l ?c ?t ?os)] =>
                  let H := fresh in
                  destruct (report_line_written l c t os) as (_ & _ & H);
                  rewrite H; clear H
              end).
      simpl. rewrite <- !app_assoc. reflexivity.
    + vm_compute. reflexivity.
    + vm_compute. reflexivity.
  - intros digits. reflexivity.
  - vm_compute. reflexivity.
  - vm_compute. reflexivity.
Qed.

(** The share of a count in a total, on a few values; without any molecule
    the division is 0/0. *)
Lemma percentage_examples :
  percentage 3 3 = F64.of_Z 100
  /\ percentage 1 4 = F64.of_Z 25
  /\ percentage 1 8 = S754_finite false 7036874417766400 (-49)
  /\ percentage 0 0 = S754_nan.
Proof. repeat split; vm_compute; reflexivity. Qed.

(* ================================================================== *)
(** ** [main]: the checks on the options *)

Lemma bind_stop {X Y : Type} (tr : list Effect) (stop : Stop) (k : X -> Run Y) :
  bind (tr, inl stop) k = (tr, inl stop).
Proof. reflexivity. Qed.

Lemma bind_ret {X Y : Type} (x : X) (k : X -> Run Y) : bind (ret x) k = k x.
Proof. unfold bind, ret. destruct (k x). reflexivity. Qed.

(** [check_options] either reports one error and exits, or none of the
    configuration errors is there and it gives the parameters of the loop
    without any effect. *)
Lemma check_options_cases (w : World) (o : Options.t) :
  (exists msg, check_options w o = ([ParserError msg], inl ParserExit))
  \/ (~ ConfigError w o
      /\ exists wl, check_options w o = ([], inr (pipeline_of o wl))).
Proof.
  unfold check_options, when.
  destruct (Z.ltb_spec (Options.MinPasses o) 1) as [Hmin|Hmin].
  { left. eexists. reflexivity. }
  rewrite bind_ret.
  assert (Hwl :
    (exists wl,
       (if String.eqb (Options.Zmws o) "" then ret None
        else match make_Whitelist w (Options.Zmws o) with
             | Some wl => ret (Some wl)
             | None => parser_error ("option --zmws: invalid specification: '"
                                     ++ Options.Zmws o ++ "'")
             end) = (ret wl : Run (option Whitelist))
       /\ (Options.Zmws o <> "" -> make_Whitelist w (Options.Zmws o) <> None))
    \/ (exists msg,
       (if String.eqb (Options.Zmws o) "" then ret None
        else match make_Whitelist w (Options.Zmws o) with
             | Some wl => ret (Some wl)
             | None => parser_error ("option --zmws: invalid specification: '"
                                     ++ Options.Zmws o ++ "'")
             end) = (parser_error msg : Run (option Whitelist)))).
  { destruct (String.eqb_spec (Options.Zmws o) "") as [He|He].
    - left. exists None. split; [reflexivity|]. intros H. contradiction.
    - destruct (make_Whitelist w (Options.Zmws o)) as [wl|].
      + left. exists (Some wl). split; [reflexivity|]. discriminate.
      + right. eexists. reflexivity. }
  destruct Hwl as [(wl & -> & Hzm)|(msg & ->)].
  2:{ left. eexists. reflexivity. }
  rewrite bind_ret.
  destruct (Options.args o) as [|output [|file files]] eqn:Hargs.
  { left. eexists. reflexivity. }
  { left. eexists. reflexivity. }
  rewrite bind_ret. simpl hd.
  destruct (FileExists w output) eqn:Hex, (Options.ForceOutput o) eqn:Hforce;
    simpl; try (left; eexists; reflexivity);
    right; (split; [|exists wl; reflexivity]);
    intros Herr; destruct Herr as [H|H1 H2|H|out H|out rest H H1 H2];
    try lia; try (now apply Hzm); try congruence.
Qed.

(** C5. With [--minPasses] below 1, a [--zmws] specification that
    [Whitelist] rejects, no OUTPUT, no FILES, or an OUTPUT file that exists
    and no [--force], [main] reports the error through [parser.error], which
    ends the process, and has done nothing else before: no log file has been
    opened and the [BamWriter] for OUTPUT has not been constructed. *)
Theorem config_error_before_output (w : World) (o : Options.t) :
  ConfigError w o ->
  exists msg,
    main w o = ([ParserError msg], inl ParserExit)
    /\ existsb creates_output (fst (main w o)) = false.
Proof.
  intros Herr.
  destruct (check_options_cases w o) as [(msg & H)|(Hno & _)]; [|contradiction].
  exists msg. unfold main. rewrite H. split; reflexivity.
Qed.

Lemma config_error_before_output_witness :
  (exists msg, main SampleWorld.world SampleWorld.no_passes
               = ([ParserError msg], inl ParserExit))
  /\ (exists msg, main SampleWorld.world SampleWorld.bad_zmws
               = ([ParserError msg], inl ParserExit))
  /\ (exists msg, main SampleWorld.world SampleWorld.no_files
               = ([ParserError msg], inl ParserExit))
  /\ (exists msg, main SampleWorld.world SampleWorld.overwrite
               = ([ParserError msg], inl ParserExit)).
Proof.
  split; [|split; [|split]].
  - destruct (config_error_before_output SampleWorld.world SampleWorld.no_passes)
      as (msg & H & _).
    + apply InvalidMinPasses. simpl. lia.
    + exists msg. exact H.
  - destruct (config_error_before_output SampleWorld.world SampleWorld.bad_zmws)
      as (msg & H & _).
    + apply InvalidZmws; [discriminate|reflexivity].
    + exists msg. exact H.
  - destruct (config_error_before_output SampleWorld.world SampleWorld.no_files)
      as (msg & H & _).
    + apply (MissingFiles _ _ "out.bam"). reflexivity.
    + exists msg. exact H.
  - destruct (config_error_before_output SampleWorld.world SampleWorld.overwrite)
      as (msg & H & _).
    + apply (OutputExists _ _ "old.bam" ["in1.bam"]); reflexivity.
    + exists msg. exact H.
Defined.

(* ================================================================== *)
(** ** [main]: the shutdown *)

Lemma bind_inr {X Y : Type} (m : Run X) (k : X -> Run Y) (tr : list Effect) (y : Y) :
  bind m k = (tr, inr y) ->
  exists tr1 x tr2, m = (tr1, inr x) /\ k x = (tr2, inr y) /\ tr = tr1 ++ tr2.
Proof.
  destruct m as [tr1 [stop|x]]; simpl; [discriminate|].
  destruct (k x) as [tr2 r] eqn:Hk. intros [= <- ->].
  exists tr1, x, tr2. repeat split. exact Hk.
Qed.

Lemma add_read_groups_quiet (rgs acc : list ReadGroupInfo) tr out :
  add_read_groups rgs acc = (tr, inr out) -> tr = [].
Proof.
  revert acc tr. induction rgs as [|rg rgs IH]; intros acc tr; simpl.
  - intros [= <- _]. reflexivity.
  - unfold when. destruct (negb (String.eqb (ReadType rg) "SUBREAD")).
    + discriminate.
    + rewrite bind_ret. apply IH.
Qed.

Lemma header_of_files_quiet (w : World) (files : list string) acc tr out :
  header_of_files w files acc = (tr, inr out) -> tr = [].
Proof.
  revert acc tr. induction files as [|f files IH]; intros acc tr; simpl.
  - intros [= <- _]. reflexivity.
  - destruct (open_bam w f) as [bam|]; [|discriminate].
    intros H. apply bind_inr in H. destruct H as (tr1 & x & tr2 & H1 & H2 & ->).
    apply add_read_groups_quiet in H1. apply IH in H2. subst. reflexivity.
Qed.

Lemma PrepareHeader_quiet (w : World) (files : list string) tr header :
  PrepareHeader w files = (tr, inr header) -> tr = [].
Proof.
  unfold PrepareHeader. intros H. apply bind_inr in H.
  destruct H as (tr1 & x & tr2 & H1 & H2 & ->).
  apply header_of_files_quiet in H1. injection H2 as <- _. subst. reflexivity.
Qed.

Lemma submitted_by_app (a b : list Effect) :
  submitted_by (a ++ b) = submitted_by a ++ submitted_by b.
Proof.
  induction a as [|e a IH]; [reflexivity|].
  destruct e as [| | | | | | | |[]| | |]; simpl; rewrite IH; reflexivity.
Qed.

Lemma submitted_by_loop (tr : list Event) :
  submitted_by (map Loop tr) = submissions tr.
Proof.
  induction tr as [|e tr IH]; [reflexivity|].
  destruct e; simpl; rewrite IH; reflexivity.
Qed.

Lemma no_shutdown_in_loop (tr : list Event) :
  existsb is_shutdown (map Loop tr) = false.
Proof. induction tr as [|e tr IH]; [reflexivity|exact IH]. Qed.

Lemma setup_logging_quiet (o : Options.t) :
  exists tr, setup_logging o = (tr, inr tt)
             /\ existsb is_shutdown tr = false /\ submitted_by tr = []
             /\ existsb creates_output tr = false.
Proof.
  unfold setup_logging, when.
  destruct (negb (String.eqb (Options.LogFile o) ""));
    eexists; (split; [reflexivity|split; [|split]]); reflexivity.
Qed.

(** The loop is over when [run_pipeline] returns: what it did consists of
    the creation of the output and of the calls of the loop. *)
Lemma run_pipeline_trace (w : World) (o : Options.t) (cfg : Pipeline) tr st :
  run_pipeline w o cfg = (tr, inr st) ->
  exists pre,
    tr = pre ++ map Loop (trace st)
    /\ existsb is_shutdown pre = false /\ submitted_by pre = []
    /\ read_files w cfg initial_state (tl (Options.args o))
       = (fst (read_files w cfg initial_state (tl (Options.args o))), true)
    /\ st = finish cfg (fst (read_files w cfg initial_state (tl (Options.args o)))).
Proof.
  unfold run_pipeline. intros H.
  apply bind_inr in H. destruct H as (tr1 & header & tr2 & H1 & H2 & ->).
  apply PrepareHeader_quiet in H1. subst tr1.
  apply bind_inr in H2. destruct H2 as (tr3 & [] & tr4 & H3 & H4 & ->).
  injection H3 as <-.
  apply bind_inr in H4. destruct H4 as (tr5 & [] & tr6 & H5 & H6 & ->).
  apply bind_inr in H6. destruct H6 as (tr7 & [] & tr8 & H7 & H8 & ->).
  injection H7 as <-.
  apply bind_inr in H8. destruct H8 as (tr9 & [] & tr10 & H9 & H10 & ->).
  injection H9 as <-.
  destruct (read_files w cfg initial_state (tl (Options.args o))) as [st0 ok] eqn:Hrf.
  destruct ok; [|discriminate]. injection H10 as <- <-.
  exists ([CreateBamWriter (hd "" (Options.args o)) header] ++ tr5
          ++ [CreateWorkQueue (ThreadCount (hardware_concurrency w)
                                           (Options.NumThreads o))]
          ++ [LaunchWriterThread]).
  assert (Htr5 : existsb is_shutdown tr5 = false /\ submitted_by tr5 = []).
  { unfold when in H5. destruct (Options.PbIndex o); injection H5 as <-; split; reflexivity. }
  destruct Htr5 as [Hs5 Hb5].
  split; [simpl; rewrite <- !app_assoc; reflexivity|].
  split; [|split; [|split; reflexivity]].
  - simpl. rewrite existsb_app, Hs5. reflexivity.
  - simpl. rewrite submitted_by_app, Hb5. reflexivity.
Qed.

(** C8. In a run of [main] that completes, the producer calls [Finalize]
    after its last submission, then takes the counters of the writer thread,
    then adds its own two counters to them and only then writes the report:
    the reported PoorSNR is the writer's PoorSNR plus [poorSNR], the reported
    TooFewPasses is the writer's TooFewPasses plus [tooFewPasses] (sums of
    [size_t] values), and the other counters are the writer's. *)
Theorem shutdown_sequence (w : World) (o : Options.t) (tr : list Effect) (code : Z) :
  main w o = (tr, inr code) ->
  exists cfg st pre,
    let consumer := writer_counts w cfg st in
    let reported := add_rejections consumer (poorSNR st) (tooFewPasses st) in
    st = finish cfg (fst (read_files w cfg initial_state (tl (Options.args o))))
    /\ tr = pre ++ [QueueFinalize; WriterGet;
                    Report (report_target o)
                           (written (WriteResultsReport fresh_stream reported))]
    /\ existsb is_shutdown pre = false
    /\ submitted_by pre = submissions (trace st)
    /\ submitted_by tr = submitted_by pre
    /\ PoorSNR reported = Mach.size_add (PoorSNR consumer) (poorSNR st)
    /\ TooFewPasses reported = Mach.size_add (TooFewPasses consumer) (tooFewPasses st)
    /\ (0 <= PoorSNR consumer -> 0 <= poorSNR st ->
        PoorSNR consumer + poorSNR st < Mach.size_modulus ->
        PoorSNR reported = PoorSNR consumer + poorSNR st)
    /\ (0 <= TooFewPasses consumer -> 0 <= tooFewPasses st ->
        TooFewPasses consumer + tooFewPasses st < Mach.size_modulus ->
        TooFewPasses reported = TooFewPasses consumer + tooFewPasses st)
    /\ (Success reported, NoSubreads reported, TooShort reported,
        TooManyUnusable reported, NonConvergent reported, PoorQuality reported)
       = (Success consumer, NoSubreads consumer, TooShort consumer,
          TooManyUnusable consumer, NonConvergent consumer, PoorQuality consumer)
    /\ code = 0.
Proof.
  unfold main. intros H.
  apply bind_inr in H. destruct H as (tr1 & cfg & tr2 & H1 & H2 & ->).
  destruct (check_options_cases w o) as [(msg & Hc)|(_ & wl & Hc)];
    rewrite Hc in H1; [discriminate|]. injection H1 as <- <-.
  apply bind_inr in H2. destruct H2 as (tr3 & [] & tr4 & H3 & H4 & ->).
  destruct (setup_logging_quiet o) as (trl & Hl & Hls & Hlb & _).
  rewrite Hl in H3. injection H3 as <-.
  apply bind_inr in H4. destruct H4 as (tr5 & st & tr6 & H5 & H6 & ->).
  destruct (run_pipeline_trace w o _ _ _ H5) as (pre & -> & Hps & Hpb & _ & Hst).
  unfold shutdown in H6. simpl in H6. injection H6 as <- <-.
  exists (pipeline_of o wl), st, (trl ++ pre ++ map Loop (trace st)).
  cbv zeta.
  split; [exact Hst|].
  split; [simpl; rewrite <- !app_assoc; reflexivity|].
  split; [rewrite !existsb_app, Hls, Hps, no_shutdown_in_loop; reflexivity|].
  assert (Hsub : submitted_by (trl ++ pre ++ map Loop (trace st))
                 = submissions (trace st)).
  { rewrite !submitted_by_app, Hlb, Hpb, submitted_by_loop. reflexivity. }
  split; [exact Hsub|].
  split.
  { simpl. rewrite !submitted_by_app, Hlb, Hpb, submitted_by_loop. simpl.
    rewrite ?app_nil_r. reflexivity. }
  split; [reflexivity|]. split; [reflexivity|].
  split; [intros; simpl; apply size_add_small; assumption|].
  split; [intros; simpl; apply size_add_small; assumption|].
  split; reflexivity.
Qed.

Lemma shutdown_sequence_witness :
  exists pre tokens,
    fst (main SampleWorld.world Sample.options)
    = pre ++ [QueueFinalize; WriterGet; Report (ToFile "ccs_report.csv") tokens]
    /\ existsb is_shutdown pre = false
    /\ submitted_by pre
       = [[Streams.chunk_of Streams.r0 [Streams.r0; Streams.r2]];
          [Streams.chunk_of Streams.t0 [Streams.t0; Streams.t1]]]
    /\ option_map (map row_count) (rows_of tokens) = Some [2; 1; 0; 0; 1; 0; 0; 0].
Proof.
  assert (Hrun : main SampleWorld.world Sample.options
                 = (fst (main SampleWorld.world Sample.options), inr 0))
    by (vm_compute; reflexivity).
  destruct (shutdown_sequence SampleWorld.world Sample.options _ 0 Hrun)
    as (cfg & st & pre & Hst & Htr & Hquiet & Hsub & Hsame & _).
  exists pre. eexists. split; [exact Htr|]. split; [exact Hquiet|].
  assert (Hall : submitted_by (fst (main SampleWorld.world Sample.options))
                 = [[Streams.chunk_of Streams.r0 [Streams.r0; Streams.r2]];
                    [Streams.chunk_of Streams.t0 [Streams.t0; Streams.t1]]])
    by (vm_compute; reflexivity).
  split; [rewrite <- Hsame; exact Hall|].
  assert (Hlast : last (fst (main SampleWorld.world Sample.options)) QueueFinalize
                  = Report (ToFile "ccs_report.csv")
                      (written (WriteResultsReport fresh_stream
                         (add_rejections (writer_counts SampleWorld.world cfg st)
                                         (poorSNR st) (tooFewPasses st))))).
  { rewrite Htr.
    match goal with
    | |- last (pre ++ [?a; ?b; ?c]) _ = _ =>
        change (pre ++ [a; b; c]) with (pre ++ [a; b] ++ [c])
    end.
    rewrite app_assoc. apply last_last. }
  assert (Hrep : exists tokens,
             last (fst (main SampleWorld.world Sample.options)) QueueFinalize
             = Report (ToFile "ccs_report.csv") tokens
             /\ option_map (map row_count) (rows_of tokens)
                = Some [2; 1; 0; 0; 1; 0; 0; 0]).
  { eexists. split; vm_compute; reflexivity. }
  destruct Hrep as (tokens & Hl & Hrows).
  assert (Heq : written (WriteResultsReport fresh_stream
                   (add_rejections (writer_counts SampleWorld.world cfg st)
                                   (poorSNR st) (tooFewPasses st))) = tokens)
    by congruence.
  rewrite Heq. exact Hrows.
Defined.

(* ================================================================== *)
(** ** The work queue: results come out in submission order *)

Section QueueOrder.

Context {A B : Type}.
Variable run : A -> B.

Lemma set_nth_results (i : nat) (h h' : WorkQueue.Handle A B) (l : list (WorkQueue.Handle A B)) :
  nth_error l i = Some h -> WorkQueue.task h' = WorkQueue.task h ->
  map (WorkQueue.result_of run) (WorkQueue.set_nth i h' l)
  = map (WorkQueue.result_of run) l.
Proof.
  revert i. induction l as [|x l IH]; intros [|i]; simpl; try discriminate.
  - intros [= ->] Ht. unfold WorkQueue.result_of. now rewrite Ht.
  - intros Hn Ht. now rewrite IH.
Qed.

Lemma set_nth_honest (i : nat) (h' : WorkQueue.Handle A B) (l : list (WorkQueue.Handle A B)) :
  WorkQueue.honest run h' -> Forall (WorkQueue.honest run) l ->
  Forall (WorkQueue.honest run) (WorkQueue.set_nth i h' l).
Proof.
  intros Hh. revert i. induction l as [|x l IH]; intros i Hl; [destruct i; constructor|].
  inversion Hl; subst. destruct i; simpl; constructor; auto.
Qed.

Lemma step_in_order (q q' : WorkQueue.t A B) (a : WorkQueue.Action A) (subs : list A) :
  WorkQueue.step run q a = Some q' -> WorkQueue.in_order run q subs ->
  WorkQueue.in_order run q' (subs ++ WorkQueue.submitted [a]).
Proof.
  intros Hstep (Hres & Hhon & Hend).
  destruct a as [x|i|i| |]; simpl in *.
  - destruct (WorkQueue.finalized q) eqn:Hfin; [discriminate|].
    destruct (List.length (WorkQueue.fifo q) <? WorkQueue.capacity q)%nat;
      [|discriminate].
    injection Hstep as <-. unfold WorkQueue.in_order. simpl.
    rewrite !map_app, Hres, <- app_assoc. simpl.
    split; [reflexivity|]. split.
    + apply Forall_app. split; [exact Hhon|]. repeat constructor.
    + intros He. destruct (Hend He) as [_ Hf]. congruence.
  - rewrite app_nil_r.
    destruct (nth_error (WorkQueue.fifo q) i) as [[x []]|] eqn:Hn; try discriminate.
    destruct (WorkQueue.running q <? WorkQueue.workers q)%nat; [|discriminate].
    injection Hstep as <-. unfold WorkQueue.in_order. simpl.
    rewrite (set_nth_results i _ (WorkQueue.mkHandle x WorkQueue.Running) _ Hn eq_refl).
    split; [exact Hres|]. split.
    + apply set_nth_honest; [exact I|exact Hhon].
    + intros He. destruct (Hend He) as [Hf _].
      rewrite Hf in Hn. destruct i; discriminate.
  - rewrite app_nil_r.
    destruct (nth_error (WorkQueue.fifo q) i) as [[x []]|] eqn:Hn; try discriminate.
    injection Hstep as <-. unfold WorkQueue.in_order. simpl.
    rewrite (set_nth_results i _ (WorkQueue.mkHandle x (WorkQueue.Completed (run x)))
                             _ Hn eq_refl).
    split; [exact Hres|]. split.
    + apply set_nth_honest; [reflexivity|exact Hhon].
    + intros He. destruct (Hend He) as [Hf _].
      rewrite Hf in Hn. destruct i; discriminate.
  - rewrite app_nil_r.
    destruct (WorkQueue.ended q) eqn:He; [discriminate|].
    destruct (WorkQueue.fifo q) as [|[x [| |r]] rest] eqn:Hf; try discriminate.
    + destruct (WorkQueue.finalized q) eqn:Hfin; [|discriminate].
      injection Hstep as <-. unfold WorkQueue.in_order. simpl.
      rewrite Hres. simpl. repeat split. constructor.
    + injection Hstep as <-. unfold WorkQueue.in_order. simpl.
      inversion Hhon as [|h l Hh Hl]; subst. unfold WorkQueue.honest in Hh.
      simpl in Hh. subst r.
      rewrite Hres, <- app_assoc. simpl.
      split; [reflexivity|]. split; [exact Hl|discriminate].
  - rewrite app_nil_r. injection Hstep as <-. unfold WorkQueue.in_order. simpl.
    split; [exact Hres|]. split; [exact Hhon|].
    intros He. destruct (Hend He) as [Hf _]. split; [exact Hf|reflexivity].
Qed.

Lemma submitted_app (s1 s2 : list (WorkQueue.Action A)) :
  WorkQueue.submitted (s1 ++ s2) = WorkQueue.submitted s1 ++ WorkQueue.submitted s2.
Proof.
  induction s1 as [|a s1 IH]; [reflexivity|].
  destruct a; simpl; rewrite IH; reflexivity.
Qed.

Lemma exec_in_order (schedule : list (WorkQueue.Action A)) :
  forall (q q' : WorkQueue.t A B) (subs : list A),
    WorkQueue.exec run q schedule = Some q' -> WorkQueue.in_order run q subs ->
    WorkQueue.in_order run q' (subs ++ WorkQueue.submitted schedule).
Proof.
  induction schedule as [|a schedule IH]; intros q q' subs Hex Hin; simpl in Hex.
  - injection Hex as <-. simpl. now rewrite app_nil_r.
  - destruct (WorkQueue.step run q a) as [q1|] eqn:Hstep; [|discriminate].
    change (a :: schedule) with ([a] ++ schedule).
    rewrite submitted_app, app_assoc.
    apply (IH q1 q' _ Hex). apply (step_in_order q q1 a subs Hstep Hin).
Qed.

Lemma exec_app (s1 s2 : list (WorkQueue.Action A)) :
  forall (q : WorkQueue.t A B),
    WorkQueue.exec run q (s1 ++ s2)
    = match WorkQueue.exec run q s1 with
      | Some q1 => WorkQueue.exec run q1 s2
      | None => None
      end.
Proof.
  induction s1 as [|a s1 IH]; intros q; simpl; [reflexivity|].
  destruct (WorkQueue.step run q a); [apply IH|reflexivity].
Qed.

Lemma with_fifo_same (q : WorkQueue.t A B) : WorkQueue.with_fifo (WorkQueue.fifo q) q = q.
Proof. destruct q. reflexivity. Qed.

Lemma nth_error_middle (pre : list (WorkQueue.Handle A B)) (h : WorkQueue.Handle A B) (l : list (WorkQueue.Handle A B)) :
  nth_error (pre ++ h :: l) (List.length pre) = Some h.
Proof. induction pre as [|x pre IH]; [reflexivity|exact IH]. Qed.

Lemma set_nth_middle (pre : list (WorkQueue.Handle A B)) (h h' : WorkQueue.Handle A B) (l : list (WorkQueue.Handle A B)) :
  WorkQueue.set_nth (List.length pre) h' (pre ++ h :: l) = pre ++ h' :: l.
Proof. induction pre as [|x pre IH]; [reflexivity|]. simpl. now rewrite IH. Qed.

(** The workers finish what they are running. *)
Lemma finish_running_exec (l : list (WorkQueue.Handle A B)) :
  forall (pre : list (WorkQueue.Handle A B)) (q : WorkQueue.t A B),
    WorkQueue.fifo q = pre ++ l ->
    WorkQueue.exec run q (WorkQueue.finish_running l (List.length pre))
    = Some (WorkQueue.with_fifo (pre ++ map (WorkQueue.settle run) l) q).
Proof.
  induction l as [|h l IH]; intros pre q Hf; simpl.
  - rewrite app_nil_r, <- (app_nil_r pre), <- Hf. now rewrite with_fifo_same.
  - destruct h as [x p].
    destruct p as [| |r]; cbn [WorkQueue.is_running WorkQueue.progress app].
    + specialize (IH (pre ++ [WorkQueue.mkHandle x WorkQueue.Queued]) q).
      rewrite length_app, Nat.add_1_r, <- !app_assoc in IH.
      apply IH. exact Hf.
    + cbn [WorkQueue.exec WorkQueue.step].
      rewrite Hf, nth_error_middle, set_nth_middle.
      set (h' := WorkQueue.mkHandle x (WorkQueue.Completed (run x))).
      specialize (IH (pre ++ [h']) (WorkQueue.with_fifo (pre ++ h' :: l) q)).
      rewrite length_app, Nat.add_1_r, <- !app_assoc in IH.
      etransitivity; [apply IH; reflexivity|]. reflexivity.
    + specialize (IH (pre ++ [WorkQueue.mkHandle x (WorkQueue.Completed r)]) q).
      rewrite length_app, Nat.add_1_r, <- !app_assoc in IH.
      apply IH. exact Hf.
Qed.

Lemma none_running (l : list (WorkQueue.Handle A B)) :
  Forall (fun h => WorkQueue.is_running h = false) l ->
  filter WorkQueue.is_running l = [].
Proof.
  induction 1 as [|h l Hh _ IH]; [reflexivity|]. simpl. now rewrite Hh.
Qed.

(** With no task running, the consumer gets every outstanding result in
    turn and then sees the end. *)
Lemma drain_heads_exec (l : list (WorkQueue.Handle A B)) :
  forall (q : WorkQueue.t A B),
    WorkQueue.fifo q = l ->
    Forall (fun h => WorkQueue.is_running h = false) l ->
    Forall (WorkQueue.honest run) l ->
    WorkQueue.finalized q = true -> WorkQueue.ended q = false ->
    (1 <= WorkQueue.workers q)%nat ->
    WorkQueue.exec run q (flat_map WorkQueue.drain_head l ++ [WorkQueue.Consume])
    = Some (WorkQueue.mk (WorkQueue.workers q) (WorkQueue.capacity q) [] true
              (WorkQueue.consumed q ++ map (WorkQueue.result_of run) l) true).
Proof.
  induction l as [|h l IH]; intros q Hf Hrun Hhon Hfin Hend HW.
  - simpl. rewrite Hend, Hf, Hfin, app_nil_r. reflexivity.
  - inversion Hrun as [|? ? Hh Hrun']; subst.
    inversion Hhon as [|? ? Hh' Hhon']; subst.
    destruct h as [x p]. unfold WorkQueue.is_running in Hh. simpl in Hh.
    unfold WorkQueue.honest in Hh'. simpl in Hh'.
    destruct p as [| |r]; [|discriminate|].
    + cbn [flat_map WorkQueue.drain_head WorkQueue.progress app WorkQueue.exec].
      unfold WorkQueue.step at 1. rewrite Hf. cbn [nth_error].
      unfold WorkQueue.running. rewrite Hf. cbn [filter WorkQueue.is_running WorkQueue.progress].
      rewrite (none_running l Hrun'). cbn [List.length].
      destruct (Nat.ltb_spec 0 (WorkQueue.workers q)) as [_|]; [|lia].
      cbn. rewrite Hend.
      rewrite IH; cbn; auto.
      unfold WorkQueue.result_of. cbn. now rewrite <- app_assoc.
    + cbn [flat_map WorkQueue.drain_head WorkQueue.progress app WorkQueue.exec].
      unfold WorkQueue.step at 1. rewrite Hend, Hf.
      rewrite IH; cbn; auto.
      unfold WorkQueue.result_of. cbn. subst r. now rewrite <- app_assoc.
Qed.

Lemma drain_head_settle (l : list (WorkQueue.Handle A B)) :
  flat_map WorkQueue.drain_head (map (WorkQueue.settle run) l)
  = flat_map WorkQueue.drain_head l.
Proof.
  induction l as [|[x []] l IH]; simpl; rewrite ?IH; reflexivity.
Qed.

Lemma settled (l : list (WorkQueue.Handle A B)) :
  Forall (WorkQueue.honest run) l ->
  Forall (fun h => WorkQueue.is_running h = false) (map (WorkQueue.settle run) l)
  /\ Forall (WorkQueue.honest run) (map (WorkQueue.settle run) l)
  /\ map (WorkQueue.result_of run) (map (WorkQueue.settle run) l)
     = map (WorkQueue.result_of run) l.
Proof.
  induction 1 as [|[x p] l Hh _ (IH1 & IH2 & IH3)]; [repeat split; constructor|].
  simpl. rewrite IH3.
  destruct p; (split; [|split]); try constructor; try assumption; reflexivity.
Qed.

(** Once finalized, a queue can always be emptied: the schedule [drain]
    hands every outstanding result to the consumer and ends its loop. *)
Lemma drain_exec (q : WorkQueue.t A B) (subs : list A) :
  WorkQueue.in_order run q subs ->
  WorkQueue.finalized q = true -> WorkQueue.ended q = false ->
  (1 <= WorkQueue.workers q)%nat ->
  exists q',
    WorkQueue.exec run q (WorkQueue.drain q) = Some q'
    /\ WorkQueue.ended q' = true
    /\ WorkQueue.consumed q' = map run subs.
Proof.
  intros (Hres & Hhon & _) Hfin Hend HW. unfold WorkQueue.drain.
  rewrite exec_app.
  pose proof (finish_running_exec (WorkQueue.fifo q) [] q eq_refl) as Hfr.
  cbn [List.length app] in Hfr. rewrite Hfr.
  destruct (settled _ Hhon) as (S1 & S2 & S3).
  rewrite <- drain_head_settle.
  rewrite (drain_heads_exec (map (WorkQueue.settle run) (WorkQueue.fifo q)));
    try assumption; try reflexivity.
  eexists. split; [reflexivity|]. split; [reflexivity|].
  simpl. rewrite S3. symmetry. exact Hres.
Qed.

Lemma step_workers (q q' : WorkQueue.t A B) (a : WorkQueue.Action A) :
  WorkQueue.step run q a = Some q' -> WorkQueue.workers q' = WorkQueue.workers q.
Proof.
  destruct a as [x|i|i| |]; simpl.
  - destruct (WorkQueue.finalized q); [discriminate|].
    destruct (_ <? _)%nat; [|discriminate]. now intros [= <-].
  - destruct (nth_error _ i) as [[x []]|]; try discriminate.
    destruct (_ <? _)%nat; [|discriminate]. now intros [= <-].
  - destruct (nth_error _ i) as [[x []]|]; try discriminate. now intros [= <-].
  - destruct (WorkQueue.ended q); [discriminate|].
    destruct (WorkQueue.fifo q) as [|[x [| |r]] rest]; try discriminate.
    + destruct (WorkQueue.finalized q); [|discriminate]. now intros [= <-].
    + now intros [= <-].
  - now intros [= <-].
Qed.

Lemma exec_workers (schedule : list (WorkQueue.Action A)) :
  forall (q q' : WorkQueue.t A B),
    WorkQueue.exec run q schedule = Some q' ->
    WorkQueue.workers q' = WorkQueue.workers q.
Proof.
  induction schedule as [|a schedule IH]; intros q q'; simpl.
  - now intros [= <-].
  - destruct (WorkQueue.step run q a) as [q1|] eqn:Hs; [|discriminate].
    intros H. rewrite (IH _ _ H). apply (step_workers _ _ _ Hs).
Qed.

Lemma firstn_map_prefix {X Y : Type} (f : X -> Y) (l : list X) (pre post : list Y) :
  map f l = pre ++ post -> pre = map f (firstn (List.length pre) l).
Proof.
  revert l. induction pre as [|y pre IH]; intros l H; [reflexivity|].
  destruct l as [|x l]; [discriminate|]. simpl in *.
  injection H as <- H. f_equal. apply (IH _ H).
Qed.

Lemma reachable_in_order (W bound : nat)
      (schedule : list (WorkQueue.Action A)) (q : WorkQueue.t A B) :
  WorkQueue.exec run (WorkQueue.create W bound) schedule = Some q ->
  WorkQueue.in_order run q (WorkQueue.submitted schedule).
Proof.
  intros Hex.
  assert (Hinit : WorkQueue.in_order run (WorkQueue.create W bound) []).
  { unfold WorkQueue.in_order. simpl. repeat split; try constructor; discriminate. }
  exact (exec_in_order schedule _ _ _ Hex Hinit).
Qed.

(** When the loop of the consumer has ended, it has been handed the result
    of every submission, in submission order. *)
Lemma consumed_when_ended (W bound : nat)
      (schedule : list (WorkQueue.Action A)) (q : WorkQueue.t A B) :
  WorkQueue.exec run (WorkQueue.create W bound) schedule = Some q ->
  WorkQueue.ended q = true ->
  WorkQueue.consumed q = map run (WorkQueue.submitted schedule).
Proof.
  intros Hex He.
  destruct (reachable_in_order W bound schedule q Hex) as (Hres & _ & Hend).
  destruct (Hend He) as [Hf _]. rewrite Hf in Hres.
  simpl in Hres. rewrite app_nil_r in Hres. symmetry. exact Hres.
Qed.

(** C2. Take any schedule of the producer, the workers and the consumer
    that starts from a fresh queue: a task may be started and completed
    before or after any other. The results the consumer has received are, in
    order, the results of the first tasks submitted; when its loop has ended
    it has received the result of every submission, in submission order; and
    with at least one worker every such run can be brought to that end. *)
Theorem order_preservation (W bound : nat)
        (schedule : list (WorkQueue.Action A)) (q : WorkQueue.t A B) :
  WorkQueue.exec run (WorkQueue.create W bound) schedule = Some q ->
  let subs := WorkQueue.submitted schedule in
  WorkQueue.consumed q
  = map run (firstn (List.length (WorkQueue.consumed q)) subs)
  /\ (WorkQueue.ended q = true -> WorkQueue.consumed q = map run subs)
  /\ ((1 <= W)%nat ->
      exists rest q',
        WorkQueue.submitted rest = []
        /\ WorkQueue.exec run q rest = Some q'
        /\ WorkQueue.ended q' = true
        /\ WorkQueue.consumed q' = map run subs).
Proof.
  intros Hex subs.
  pose proof (reachable_in_order W bound schedule q Hex) as Hin.
  fold subs in Hin.
  destruct Hin as (Hres & Hhon & Hend).
  split; [apply (firstn_map_prefix run subs _ _ Hres)|].
  split; [apply (consumed_when_ended W bound schedule q Hex)|].
  intros HW.
  destruct (WorkQueue.ended q) eqn:He.
  { exists [], q. destruct (Hend eq_refl) as [Hf _]. rewrite Hf in Hres.
    simpl in Hres. rewrite app_nil_r in Hres.
    repeat split; [exact He|symmetry; exact Hres]. }
  set (q0 := WorkQueue.mk (WorkQueue.workers q) (WorkQueue.capacity q)
                          (WorkQueue.fifo q) true (WorkQueue.consumed q)
                          (WorkQueue.ended q)).
  assert (Hin0 : WorkQueue.in_order run q0 subs).
  { unfold WorkQueue.in_order, q0. simpl. split; [exact Hres|].
    split; [exact Hhon|]. rewrite He. discriminate. }
  destruct (drain_exec q0 subs Hin0 eq_refl He) as (q' & Hd & He' & Hc').
  { simpl. rewrite (exec_workers _ _ _ Hex). exact HW. }
  exists (WorkQueue.Finalize :: WorkQueue.drain q0), q'.
  split.
  { simpl. unfold WorkQueue.drain. rewrite !submitted_app. simpl.
    rewrite app_nil_r.
    assert (Hfr : forall l i, WorkQueue.submitted (@WorkQueue.finish_running A B l i) = []).
    { induction l as [|[x []] l IHl]; intros i; simpl; auto. }
    assert (Hdh : forall l, WorkQueue.submitted
                              (flat_map (@WorkQueue.drain_head A B) l) = []).
    { induction l as [|[x []] l IHl]; simpl; auto. }
    now rewrite Hfr, Hdh. }
  split; [exact Hd|]. split; [exact He'|exact Hc'].
Qed.

End QueueOrder.

(** What [writer.get()] returns does not depend on the schedule: whatever
    the order in which the workers complete the submissions of the loop, the
    writer thread ends with the counters [writer_counts] gives. *)
Lemma writer_counts_any_schedule (w : World) (cfg : Pipeline) (st : State)
      (W bound : nat) (schedule : list (WorkQueue.Action (list Chunk)))
      (q : WorkQueue.t (list Chunk) Results) :
  WorkQueue.exec (fun v => Consensus w v (settings cfg))
                 (WorkQueue.create W bound) schedule = Some q ->
  WorkQueue.ended q = true ->
  WorkQueue.submitted schedule = submissions (trace st) ->
  snd (WriterThread (WorkQueue.consumed q) (mkSink [] None 0))
  = writer_counts w cfg st.
Proof.
  intros Hex He Hsub. unfold writer_counts.
  rewrite (consumed_when_ended _ W bound schedule q Hex He), Hsub. reflexivity.
Qed.

Lemma order_preservation_witness :
  exists q,
    WorkQueue.exec SampleQueue.run (WorkQueue.create 2 4) SampleQueue.out_of_order
    = Some q
    /\ WorkQueue.ended q = true
    /\ WorkQueue.consumed q
       = [SampleQueue.run SampleQueue.zmw7; SampleQueue.run SampleQueue.zmw9]
    /\ snd (WriterThread (WorkQueue.consumed q) (mkSink [] None 0))
       = snd (WriterThread [SampleQueue.run SampleQueue.zmw7;
                            SampleQueue.run SampleQueue.zmw9]
                           (mkSink [] None 0)).
Proof.
  assert (Hex : exists q,
             WorkQueue.exec SampleQueue.run (WorkQueue.create 2 4)
                            SampleQueue.out_of_order = Some q
             /\ WorkQueue.ended q = true).
  { eexists. split; vm_compute; reflexivity. }
  destruct Hex as (q & Hq & He). exists q.
  destruct (order_preservation SampleQueue.run 2 4 SampleQueue.out_of_order q Hq)
    as (_ & Hall & _).
  split; [exact Hq|]. split; [exact He|].
  rewrite (Hall He). split; reflexivity.
Defined.

(* ================================================================== *)
(** ** Three runs of the loop *)

(** Three ZMWs of three good reads each, [--minPasses 2]: three
    submissions in the order of the input, and the two counters of the
    producer stay at 0. *)
Lemma three_molecules :
  let zmw h := [Sample.good "m1" h 0; Sample.good "m1" h 10; Sample.good "m1" h 20] in
  let st := assemble Sample.cfg [zmw 1 ++ zmw 2 ++ zmw 3] in
  submissions (trace st)
  = [[Streams.chunk_of (Sample.good "m1" 1 0) (zmw 1)];
     [Streams.chunk_of (Sample.good "m1" 2 0) (zmw 2)];
     [Streams.chunk_of (Sample.good "m1" 3 0) (zmw 3)]]
  /\ poorSNR st = 0 /\ tooFewPasses st = 0.
Proof. repeat split; vm_compute; reflexivity. Qed.

(** A ZMW with SNR (2, 2, 2, 2) under [--minSnr 4]: no chunk, nothing
    submitted, [poorSNR] is 1. *)
Lemma low_signal :
  let st := assemble Sample.cfg [[Streams.u0; Streams.u0]] in
  submissions (trace st) = [] /\ poorSNR st = 1 /\ tooFewPasses st = 0.
Proof. repeat split; vm_compute; reflexivity. Qed.

(** A ZMW with one accepted read under [--minPasses 2]: its chunk holds the
    read until the next ZMW starts, then it is dropped and counted, and
    never submitted. *)
Lemma single_pass :
  let st1 := fold_left (on_read Sample.cfg) [Streams.s0] initial_state in
  let st2 := on_read Sample.cfg st1 Streams.t0 in
  chunk st1 = [Streams.chunk_of Streams.s0 [Streams.s0]]
  /\ tooFewPasses st1 = 0
  /\ tooFewPasses st2 = 1
  /\ submissions (trace (finish Sample.cfg (on_read Sample.cfg st2 Streams.t1)))
     = [[Streams.chunk_of Streams.t0 [Streams.t0; Streams.t1]]].
Proof. repeat split; vm_compute; reflexivity. Qed.

(* ================================================================== *)
(** * Further properties of the driver *)

(** ** The loop as a whole *)

Lemma size_add_to_size (a b : Z) :
  Mach.size_add (Mach.to_size a) b = Mach.to_size (a + b).
Proof.
  unfold Mach.size_add, Mach.to_size. apply Z.add_mod_idemp_l.
  unfold Mach.size_modulus. lia.
Qed.

Lemma zmws_cons (r : BamRecord.t) (rest : list BamRecord.t) :
  zmws (r :: rest)
  = (r :: take_same (BamRecord.HoleNumber r) rest)
    :: zmws (drop_same (BamRecord.HoleNumber r) rest).
Proof.
  revert r. induction rest as [|r1 rest IH]; intros r; [reflexivity|].
  change (zmws (r :: r1 :: rest))
    with (match zmws (r1 :: rest) with
          | (r' :: g) :: gs =>
              if BamRecord.HoleNumber r =? BamRecord.HoleNumber r'
              then (r :: r' :: g) :: gs
              else [r] :: (r' :: g) :: gs
          | _ => [[r]]
          end).
  rewrite (IH r1). cbn [take_same drop_same].
  rewrite (Z.eqb_sym (BamRecord.HoleNumber r1) (BamRecord.HoleNumber r)).
  destruct (Z.eqb_spec (BamRecord.HoleNumber r) (BamRecord.HoleNumber r1)) as [He|Hne].
  - rewrite He. reflexivity.
  - rewrite (IH r1). reflexivity.
Qed.

Lemma take_drop_same (h : Z) (reads : list BamRecord.t) :
  take_same h reads ++ drop_same h reads = reads.
Proof.
  induction reads as [|r reads IH]; [reflexivity|]. simpl.
  destruct (BamRecord.HoleNumber r =? h); [simpl; now rewrite IH|reflexivity].
Qed.

Lemma take_same_hole (h : Z) (reads : list BamRecord.t) :
  Forall (fun r => BamRecord.HoleNumber r = h) (take_same h reads).
Proof.
  induction reads as [|r reads IH]; simpl; [constructor|].
  destruct (Z.eqb_spec (BamRecord.HoleNumber r) h); constructor; assumption.
Qed.

Lemma drop_same_length (h : Z) (reads : list BamRecord.t) :
  (List.length (drop_same h reads) <= List.length reads)%nat.
Proof.
  induction reads as [|r reads IH]; simpl; [lia|].
  destruct (BamRecord.HoleNumber r =? h); simpl; lia.
Qed.

Lemma drop_same_head (h : Z) (reads : list BamRecord.t) :
  match drop_same h reads with
  | [] => True
  | r :: _ => new_zmw (Some h) r = true
  end.
Proof.
  induction reads as [|r reads IH]; simpl; [exact I|].
  destruct (Z.eqb_spec (BamRecord.HoleNumber r) h) as [He|Hne]; [exact IH|].
  simpl. apply negb_true_iff, Z.eqb_neq. congruence.
Qed.

(** The records of a ZMW in progress that is skipped change nothing but the
    registry of movie names. *)
Lemma skipped_tail (cfg : Pipeline) (h : Z) (rs : list BamRecord.t) :
  Forall (fun r => BamRecord.HoleNumber r = h) rs ->
  forall st,
    holeNumber st = Some h -> skipZmw st = true ->
    let st' := fold_left (on_read cfg) rs st in
    chunk st' = chunk st /\ holeNumber st' = Some h /\ skipZmw st' = true
    /\ poorSNR st' = poorSNR st /\ tooFewPasses st' = tooFewPasses st
    /\ trace st' = trace st.
Proof.
  induction 1 as [|r rs Hr _ IH]; intros st Hh Hs; simpl.
  - repeat split; assumption.
  - assert (Hn : new_zmw (holeNumber st) r = false)
      by (apply new_zmw_false_iff; congruence).
    rewrite (on_read_same_zmw cfg st r Hn).
    destruct (intern_fields (BamRecord.MovieName r) st) as (Ic & Ip & It & Ih & Is & Itr).
    rewrite accept_read_skipped by congruence.
    destruct (IH (intern (BamRecord.MovieName r) st)) as (Rc & Rh & Rs & Rp & Rt & Rtr);
      try congruence.
    repeat split; congruence.
Qed.

Lemma start_zmw_poorSNR (cfg : Pipeline) (st : State) (r : BamRecord.t)
      (rs : list BamRecord.t) :
  poorSNR (start_zmw cfg st r)
  = if zmw_poor_snr cfg (r :: rs) then Mach.size_add (poorSNR st) 1 else poorSNR st.
Proof.
  unfold start_zmw, zmw_poor_snr.
  destruct (off_whitelist cfg r); [reflexivity|].
  destruct (invalid_chemistry r); [reflexivity|].
  destruct (poor_snr cfg r); reflexivity.
Qed.

(** The records of a ZMW that fails a filter, from its first record to the
    last before the next boundary. *)
Lemma skipped_zmw_reads (cfg : Pipeline) (st : State) (r : BamRecord.t)
      (rs : list BamRecord.t) :
  new_zmw (holeNumber st) r = true ->
  passes_filters cfg r = false ->
  Forall (fun r' => BamRecord.HoleNumber r' = BamRecord.HoleNumber r) rs ->
  let st0 := start_zmw cfg (flushed cfg st r) r in
  let st' := fold_left (on_read cfg) (r :: rs) st in
  chunk st' = [] /\ holeNumber st' = Some (BamRecord.HoleNumber r)
  /\ skipZmw st' = true
  /\ poorSNR st' = poorSNR st0 /\ tooFewPasses st' = tooFewPasses (flushed cfg st r)
  /\ trace st' = trace st0.
Proof.
  intros Hn Hp Hrs st0 st'. subst st'. simpl.
  rewrite (on_read_new_zmw _ _ _ Hn). fold st0.
  destruct (start_zmw_chunk cfg (flushed cfg st r) r) as (Sc & Ss).
  rewrite Hp, flushed_chunk in Sc. rewrite Hp in Ss. simpl in Sc, Ss.
  fold st0 in Sc, Ss.
  destruct (start_zmw_frame cfg (flushed cfg st r) r) as (Sh & St & _).
  fold st0 in Sh, St.
  rewrite (accept_read_skipped cfg st0 r Ss).
  destruct (skipped_tail cfg (BamRecord.HoleNumber r) rs Hrs st0 Sh Ss)
    as (Rc & Rh & Rs & Rp & Rt & Rtr).
  repeat split; congruence.
Qed.

Lemma flushed_empty (cfg : Pipeline) (st : State) (read : BamRecord.t) :
  chunk st = [] ->
  tooFewPasses (flushed cfg st read) = tooFewPasses st
  /\ submissions (trace (flushed cfg st read)) = submissions (trace st).
Proof.
  intros Hc. unfold flushed.
  set (st0 := intern (BamRecord.MovieName read) st).
  destruct (intern_fields (BamRecord.MovieName read) st) as (Ic & _ & It & _ & _ & Itr).
  fold st0 in Ic, It, Itr.
  rewrite (drop_short_empty cfg st0) by congruence.
  destruct (submit_full_frame cfg st0) as (_ & St & _ & _ & Str).
  rewrite Ic, Hc, app_nil_r in Str. split; congruence.
Qed.

Lemma filter_snoc {X : Type} (f : X -> bool) (l : list X) (x : X) :
  filter f (l ++ [x]) = filter f l ++ (if f x then [x] else []).
Proof. rewrite filter_app. reflexivity. Qed.

(** At a boundary the chunk in the vector is settled: what has been
    submitted and counted then covers every chunk started so far. *)
Lemma accounted_flushed (cfg : Pipeline) (st : State)
      (done : list (list BamRecord.t)) (read : BamRecord.t) :
  accounted cfg st done ->
  accounted cfg (flushed cfg st read) done /\ chunk (flushed cfg st read) = [].
Proof.
  intros (settled & pending & Hall & Hc & Hlen & Hsub & Hfew & Hpoor).
  split; [|apply flushed_chunk].
  destruct (flushed_frame cfg st read) as (Fp & _).
  exists (settled ++ pending), []. rewrite app_nil_r, flushed_chunk.
  split; [exact Hall|]. split; [reflexivity|]. split; [simpl; lia|].
  rewrite Fp.
  destruct pending as [|c [|c' pending]]; simpl in Hlen; try lia.
  - rewrite app_nil_r. destruct (flushed_empty cfg st read Hc) as (-> & ->).
    repeat split; assumption.
  - rewrite !filter_snoc. destruct (too_few_passes cfg c) eqn:Ht; simpl.
    + destruct (flushed_short cfg st c read Hc Ht) as (-> & -> & _).
      rewrite app_nil_r, length_app, Hfew, size_add_to_size. simpl.
      repeat split; try assumption. f_equal. lia.
    + destruct (flushed_enough cfg st c read Hc Ht) as (-> & -> & _).
      rewrite app_nil_r, map_app, Hsub. repeat split; assumption.
Qed.

(** One ZMW more. *)
Lemma accounted_zmw (cfg : Pipeline) (st : State)
      (done : list (list BamRecord.t)) (r : BamRecord.t) (rs : list BamRecord.t) :
  accounted cfg st done ->
  new_zmw (holeNumber st) r = true ->
  Forall (fun r' => BamRecord.HoleNumber r' = BamRecord.HoleNumber r) rs ->
  let st' := fold_left (on_read cfg) (r :: rs) st in
  accounted cfg st' (done ++ [r :: rs])
  /\ holeNumber st' = Some (BamRecord.HoleNumber r).
Proof.
  intros Hacc Hn Hrs st'.
  destruct (accounted_flushed cfg st done r Hacc) as [Hf _].
  destruct Hf as (settled & pending & Hall & Hc & _ & Hsub & Hfew & Hpoor).
  rewrite flushed_chunk in Hc. subst pending. rewrite app_nil_r in Hall.
  destruct (flushed_frame cfg st r) as (Fp & _).
  destruct (passes_filters cfg r) eqn:Hp.
  - destruct (molecule_reads cfg st r rs Hn Hp Hrs) as (Mc & Mh & _ & Mp & Mt & Mtr).
    fold st' in Mc, Mh, Mp, Mt, Mtr. split; [|exact Mh].
    exists settled, (chunk st'). rewrite flat_map_app. simpl. rewrite Hp, app_nil_r, Hall, Mc.
    split; [reflexivity|]. split; [reflexivity|]. split; [simpl; lia|].
    split; [congruence|]. split; [congruence|].
    rewrite filter_snoc.
    assert (Hpoor' : zmw_poor_snr cfg (r :: rs) = false).
    { unfold zmw_poor_snr. unfold passes_filters in Hp.
      apply andb_prop in Hp. destruct Hp as [_ Hp]. apply negb_true_iff in Hp.
      rewrite Hp. apply andb_false_r. }
    rewrite Hpoor', app_nil_r, Mp, <- Fp. exact Hpoor.
  - destruct (skipped_zmw_reads cfg st r rs Hn Hp Hrs) as (Sc & Sh & _ & Sp & St & Str).
    fold st' in Sc, Sh, Sp, St, Str. split; [|exact Sh].
    destruct (start_zmw_frame cfg (flushed cfg st r) r) as (_ & _ & Ssub).
    exists settled, []. rewrite flat_map_app. simpl. rewrite Hp, !app_nil_r.
    split; [exact Hall|]. split; [exact Sc|]. split; [simpl; lia|].
    split; [rewrite Str, Ssub; exact Hsub|]. split; [congruence|].
    rewrite Sp, (start_zmw_poorSNR cfg _ r rs), filter_snoc, Hpoor.
    destruct (zmw_poor_snr cfg (r :: rs)).
    + rewrite size_add_to_size, length_app. simpl. f_equal. lia.
    + now rewrite app_nil_r.
Qed.

(** The records of a file, from a record that starts a ZMW. *)
Lemma accounted_reads (cfg : Pipeline) (n : nat) :
  forall (reads : list BamRecord.t) (st : State) (done : list (list BamRecord.t)),
    (List.length reads <= n)%nat ->
    accounted cfg st done ->
    match reads with [] => True | r :: _ => new_zmw (holeNumber st) r = true end ->
    accounted cfg (fold_left (on_read cfg) reads st) (done ++ zmws reads).
Proof.
  induction n as [|n IH]; intros reads st done Hlen Hacc Hfresh.
  - destruct reads; [|simpl in Hlen; lia]. simpl. now rewrite app_nil_r.
  - destruct reads as [|r rest]; [simpl; now rewrite app_nil_r|].
    rewrite zmws_cons.
    set (h := BamRecord.HoleNumber r).
    rewrite <- (take_drop_same h rest) at 1.
    change (r :: take_same h rest ++ drop_same h rest)
      with ((r :: take_same h rest) ++ drop_same h rest).
    rewrite fold_left_app.
    destruct (accounted_zmw cfg st done r (take_same h rest) Hacc Hfresh
                (take_same_hole h rest)) as [Hacc' Hh].
    change (done ++ (r :: take_same h rest) :: zmws (drop_same h rest))
      with (done ++ [r :: take_same h rest] ++ zmws (drop_same h rest)).
    rewrite app_assoc. apply IH; [|exact Hacc'|].
    + pose proof (drop_same_length h rest). simpl in Hlen. lia.
    + rewrite Hh. apply drop_same_head.
Qed.

Lemma accounted_open_file (cfg : Pipeline) (st : State)
      (done : list (list BamRecord.t)) :
  accounted cfg st done -> accounted cfg (open_file st) done.
Proof. intros H. exact H. Qed.

Lemma accounted_files (cfg : Pipeline) (files : list (list BamRecord.t)) :
  forall (st : State) (done : list (list BamRecord.t)),
    accounted cfg st done ->
    accounted cfg (process_files cfg st files) (done ++ all_zmws files).
Proof.
  induction files as [|f files IH]; intros st done Hacc; simpl.
  - now rewrite app_nil_r.
  - unfold all_zmws. simpl. rewrite app_assoc. apply IH.
    unfold process_file.
    apply (accounted_reads cfg (List.length f) f (open_file st) done (le_n _)).
    + apply accounted_open_file, Hacc.
    + destruct f; [exact I|reflexivity].
Qed.

Lemma accounted_initial (cfg : Pipeline) : accounted cfg initial_state [].
Proof. exists [], []. repeat split; simpl; lia. Qed.

(** After the last file the chunk in the vector is settled too. *)
Lemma accounted_finish (cfg : Pipeline) (st : State)
      (done : list (list BamRecord.t)) :
  accounted cfg st done ->
  let all := flat_map (zmw_chunk cfg) done in
  submissions (trace (finish cfg st))
  = map (fun c => [c]) (filter (fun c => negb (too_few_passes cfg c)) all)
  /\ tooFewPasses (finish cfg st)
     = Mach.to_size (Z.of_nat (List.length (filter (too_few_passes cfg) all)))
  /\ poorSNR (finish cfg st)
     = Mach.to_size (Z.of_nat (List.length (filter (zmw_poor_snr cfg) done))).
Proof.
  intros (settled & pending & Hall & Hc & Hlen & Hsub & Hfew & Hpoor) all.
  subst all. rewrite Hall.
  assert (Hp : poorSNR (finish cfg st) = poorSNR st).
  { unfold finish, submit_rest.
    destruct (drop_short_frame cfg st) as (Dp & _).
    destruct (chunk (drop_short cfg st)); simpl; exact Dp. }
  rewrite Hp.
  destruct pending as [|c [|c' pending]]; simpl in Hlen; try lia.
  - rewrite app_nil_r. unfold finish. rewrite (drop_short_empty cfg st Hc).
    unfold submit_rest. rewrite Hc. repeat split; assumption.
  - rewrite !filter_snoc. destruct (too_few_passes cfg c) eqn:Ht; simpl.
    + destruct (finish_short cfg st c Hc Ht) as (-> & -> & _).
      rewrite app_nil_r, length_app, Hfew, size_add_to_size. simpl.
      repeat split; try assumption. f_equal. lia.
    + destruct (finish_enough cfg st c Hc Ht) as (-> & -> & _).
      rewrite app_nil_r, map_app, Hsub. repeat split; assumption.
Qed.

Lemma boundaries_hole_changes (cfg : Pipeline) (reads : list BamRecord.t) :
  forall st, boundaries cfg st reads = hole_changes (holeNumber st) reads.
Proof.
  induction reads as [|r reads IH]; intros st; simpl; [reflexivity|].
  destruct (intern_fields (BamRecord.MovieName r) st) as (_ & _ & _ & -> & _).
  rewrite IH, on_read_hole. reflexivity.
Qed.

Lemma zmws_concat (reads : list BamRecord.t) : concat (zmws reads) = reads.
Proof.
  induction reads as [|r reads IH]; [reflexivity|].
  change (zmws (r :: reads))
    with (match zmws reads with
          | (r' :: g) :: gs =>
              if BamRecord.HoleNumber r =? BamRecord.HoleNumber r'
              then (r :: r' :: g) :: gs
              else [r] :: (r' :: g) :: gs
          | _ => [[r]]
          end).
  destruct (zmws reads) as [|[|r' g] gs] eqn:Hz.
  - simpl in IH. now rewrite <- IH.
  - destruct reads as [|r1 reads1]; [discriminate|].
    rewrite zmws_cons in Hz. discriminate.
  - destruct (BamRecord.HoleNumber r =? BamRecord.HoleNumber r'); simpl in *;
      now rewrite IH.
Qed.

Lemma zmws_runs (reads : list BamRecord.t) :
  Forall (fun zmw => exists r rs,
            zmw = r :: rs
            /\ Forall (fun r' => BamRecord.HoleNumber r' = BamRecord.HoleNumber r) rs)
         (zmws reads).
Proof.
  remember (List.length reads) as n eqn:Hn.
  revert reads Hn. induction n as [n IH] using lt_wf_ind. intros reads Hn.
  destruct reads as [|r rest]; [constructor|].
  rewrite zmws_cons. constructor.
  - exists r, (take_same (BamRecord.HoleNumber r) rest). split; [reflexivity|].
    apply take_same_hole.
  - apply (IH (List.length (drop_same (BamRecord.HoleNumber r) rest))); [|reflexivity].
    pose proof (drop_same_length (BamRecord.HoleNumber r) rest). subst n. simpl. lia.
Qed.

Lemma zmws_count_from (rest : list BamRecord.t) :
  forall r,
    List.length (zmws (r :: rest))
    = S (count_true (hole_changes (Some (BamRecord.HoleNumber r)) rest)).
Proof.
  induction rest as [|r1 rest IH]; intros r; [reflexivity|].
  change (zmws (r :: r1 :: rest))
    with (match zmws (r1 :: rest) with
          | (r' :: g) :: gs =>
              if BamRecord.HoleNumber r =? BamRecord.HoleNumber r'
              then (r :: r' :: g) :: gs
              else [r] :: (r' :: g) :: gs
          | _ => [[r]]
          end).
  pose proof (IH r1) as Hlen. rewrite zmws_cons in Hlen |- *.
  unfold count_true in *. cbn [hole_changes filter].
  destruct (BamRecord.HoleNumber r =? BamRecord.HoleNumber r1); simpl in *; lia.
Qed.

Lemma zmws_count (reads : list BamRecord.t) :
  List.length (zmws reads) = count_true (hole_changes None reads).
Proof.
  destruct reads as [|r rest]; [reflexivity|].
  rewrite zmws_count_from. reflexivity.
Qed.

Lemma all_zmws_concat (files : list (list BamRecord.t)) :
  concat (all_zmws files) = concat files.
Proof.
  unfold all_zmws. induction files as [|f files IH]; [reflexivity|].
  simpl. now rewrite concat_app, zmws_concat, IH.
Qed.

Lemma all_zmws_runs (files : list (list BamRecord.t)) :
  Forall (fun zmw => exists r rs,
            zmw = r :: rs
            /\ Forall (fun r' => BamRecord.HoleNumber r' = BamRecord.HoleNumber r) rs)
         (all_zmws files).
Proof.
  unfold all_zmws. induction files as [|f files IH]; [constructor|].
  simpl. apply Forall_app. split; [apply zmws_runs|exact IH].
Qed.

(** X1. What the loop submits, as a function of its input. Cut every
    input file into its ZMWs, the maximal runs of records with one hole
    number (as many as line 411 finds boundaries); a ZMW whose first record
    passes the three filters starts a chunk with the accurate reads of the
    ZMW. The submissions of the whole run are, in the order of the input,
    the chunks so started that have [MinPasses] reads or more, each in a
    vector of its own. *)
Theorem submissions_closed_form (cfg : Pipeline) (files : list (list BamRecord.t)) :
  submissions (trace (assemble cfg files))
  = map (fun c => [c])
        (filter (fun c => negb (too_few_passes cfg c)) (started cfg files))
  /\ concat (all_zmws files) = concat files
  /\ Forall (fun zmw => exists r rs,
               zmw = r :: rs
               /\ Forall (fun r' => BamRecord.HoleNumber r' = BamRecord.HoleNumber r) rs)
            (all_zmws files)
  /\ (forall st reads,
        List.length (zmws reads)
        = count_true (boundaries cfg (open_file st) reads)).
Proof.
  split; [|split; [|split]].
  - pose proof (accounted_files cfg files initial_state [] (accounted_initial cfg)) as H.
    apply (accounted_finish cfg _ _ H).
  - apply all_zmws_concat.
  - apply all_zmws_runs.
  - intros st reads. rewrite boundaries_hole_changes. apply zmws_count.
Qed.

(** The run of the two sample files: ZMW 7 and ZMW 9 are submitted. *)
Lemma submissions_closed_form_example :
  all_zmws [MoreStreams.file1; MoreStreams.file2]
  = [[Streams.r0; Streams.r1; Streams.r2]; [Streams.s0];
     [Streams.t0; Streams.t1]; [Streams.u0]; [MoreStreams.v0; MoreStreams.v1]]
  /\ submissions (trace (assemble Sample.cfg [MoreStreams.file1; MoreStreams.file2]))
     = [[Streams.chunk_of Streams.r0 [Streams.r0; Streams.r2]];
        [Streams.chunk_of Streams.t0 [Streams.t0; Streams.t1]]].
Proof. split; vm_compute; reflexivity. Qed.

Lemma started_length (cfg : Pipeline) (files : list (list BamRecord.t)) :
  (List.length (started cfg files) <= List.length (all_zmws files))%nat.
Proof.
  unfold started. induction (all_zmws files) as [|z zs IH]; [simpl; lia|].
  simpl. rewrite length_app.
  assert (List.length (zmw_chunk cfg z) <= 1)%nat.
  { unfold zmw_chunk. destruct z as [|r rs]; [simpl; lia|].
    destruct (passes_filters cfg r); simpl; lia. }
  lia.
Qed.

(** X2. The two counters of the producer at the end of the loop:
    [tooFewPasses] is the number of chunks started with fewer reads than
    [MinPasses], [poorSNR] the number of ZMWs whose first record is on the
    whitelist, of a valid chemistry and below [minSnr], both as [size_t]
    values, hence the plain numbers in a run of fewer than 2^64 ZMWs. *)
Theorem rejection_counters (cfg : Pipeline) (files : list (list BamRecord.t)) :
  let st := assemble cfg files in
  let short := filter (too_few_passes cfg) (started cfg files) in
  let poor := filter (zmw_poor_snr cfg) (all_zmws files) in
  tooFewPasses st = Mach.to_size (Z.of_nat (List.length short))
  /\ poorSNR st = Mach.to_size (Z.of_nat (List.length poor))
  /\ (Z.of_nat (List.length (all_zmws files)) < Mach.size_modulus ->
      tooFewPasses st = Z.of_nat (List.length short)
      /\ poorSNR st = Z.of_nat (List.length poor)
      /\ Z.of_nat (List.length (submissions (trace st))) + tooFewPasses st
         = Z.of_nat (List.length (started cfg files))).
Proof.
  pose proof (accounted_files cfg files initial_state [] (accounted_initial cfg)) as H.
  destruct (accounted_finish cfg _ _ H) as (Hsub & Hfew & Hpoor).
  simpl app in Hsub, Hfew, Hpoor.
  change (finish cfg (process_files cfg initial_state files))
    with (assemble cfg files) in Hsub, Hfew, Hpoor.
  change (flat_map (zmw_chunk cfg) (all_zmws files))
    with (started cfg files) in Hsub, Hfew.
  intros st short poor. fold st in Hsub, Hfew, Hpoor.
  fold short in Hfew. fold poor in Hpoor.
  split; [exact Hfew|]. split; [exact Hpoor|]. intros Hsmall.
  pose proof (started_length cfg files) as Hstarted.
  pose proof (filter_length_le (too_few_passes cfg) (started cfg files)) as Hs.
  pose proof (filter_length_le (zmw_poor_snr cfg) (all_zmws files)) as Hp.
  fold short in Hs. fold poor in Hp.
  assert (Hfew' : tooFewPasses st = Z.of_nat (List.length short)).
  { rewrite Hfew. apply to_size_small. unfold Mach.is_size. lia. }
  split; [exact Hfew'|]. split.
  { rewrite Hpoor. apply to_size_small. unfold Mach.is_size. lia. }
  rewrite Hfew', Hsub, length_map. unfold short.
  rewrite <- Nat2Z.inj_add. f_equal.
  clear. induction (started cfg files) as [|c cs IH]; [reflexivity|].
  simpl. destruct (too_few_passes cfg c); simpl; lia.
Qed.

Lemma rejection_counters_witness :
  tooFewPasses (assemble Sample.cfg [MoreStreams.file1; MoreStreams.file2]) = 1
  /\ poorSNR (assemble Sample.cfg [MoreStreams.file1; MoreStreams.file2]) = 1
  /\ List.length (started Sample.cfg [MoreStreams.file1; MoreStreams.file2]) = 3%nat.
Proof.
  destruct (rejection_counters Sample.cfg [MoreStreams.file1; MoreStreams.file2])
    as (_ & _ & H).
  destruct H as (Hfew & Hpoor & _).
  { unfold Mach.size_modulus. vm_compute. reflexivity. }
  split; [exact Hfew|]. split; [exact Hpoor|reflexivity].
Defined.

(** Where a submitted vector comes from. *)
Lemma submitted_origin (cfg : Pipeline) (files : list (list BamRecord.t))
      (v : list Chunk) :
  In v (submissions (trace (assemble cfg files))) ->
  exists r rs,
    In (r :: rs) (all_zmws files)
    /\ passes_filters cfg r = true
    /\ v = [extend (new_chunk r)
              (map (make_subread (BamRecord.HoleNumber r)) (accepted cfg (r :: rs)))]
    /\ too_few_passes cfg
         (extend (new_chunk r)
            (map (make_subread (BamRecord.HoleNumber r)) (accepted cfg (r :: rs))))
       = false.
Proof.
  pose proof (accounted_files cfg files initial_state [] (accounted_initial cfg)) as H.
  destruct (accounted_finish cfg _ _ H) as (Hsub & _). simpl app in Hsub.
  unfold assemble. rewrite Hsub. intros Hin.
  apply in_map_iff in Hin. destruct Hin as (c & <- & Hc).
  apply filter_In in Hc. destruct Hc as [Hc Henough].
  apply in_flat_map in Hc. destruct Hc as (zmw & Hz & Hc).
  destruct zmw as [|r rs]; [destruct Hc|]. simpl in Hc.
  destruct (passes_filters cfg r) eqn:Hp; [|destruct Hc].
  destruct Hc as [<-|[]]. exists r, rs.
  split; [exact Hz|]. split; [exact Hp|]. split; [reflexivity|].
  now apply negb_true_iff.
Qed.

Lemma passes_filters_true (cfg : Pipeline) (r : BamRecord.t) :
  passes_filters cfg r = true ->
  off_whitelist cfg r = false /\ invalid_chemistry r = false /\ poor_snr cfg r = false.
Proof.
  unfold passes_filters. intros H.
  apply andb_prop in H. destruct H as [H H3].
  apply andb_prop in H. destruct H as [H1 H2].
  apply negb_true_iff in H1, H2, H3. repeat split; assumption.
Qed.

Lemma in_all_zmws (files : list (list BamRecord.t)) (zmw : list BamRecord.t)
      (r : BamRecord.t) :
  In zmw (all_zmws files) -> In r zmw -> In r (concat files).
Proof.
  intros Hz Hr.
  rewrite <- (all_zmws_concat files). apply in_concat. exists zmw. split; assumption.
Qed.

(** X3. The loop never submits a chunk of a ZMW that failed a filter: every
    chunk handed to the work queue comes alone in its vector, bears the
    movie name and hole number of a record of the input whose read group has
    a valid chemistry, is on the whitelist when there is one, has no SNR
    value that makes [min_element] fall below [minSnr], and holds at least
    [MinPasses] reads. *)
Theorem submitted_chunks_passed_filters (cfg : Pipeline)
        (files : list (list BamRecord.t)) (v : list Chunk) :
  In v (submissions (trace (assemble cfg files))) ->
  exists c first,
    v = [c]
    /\ In first (concat files)
    /\ Id c = ReadId.mk (BamRecord.MovieName first) (BamRecord.HoleNumber first) None
    /\ ChunkSNR c = BamRecord.SignalToNoise first
    /\ VerifyChemistry (BamRecord.ReadGroup first) = true
    /\ (forall wl, whitelist cfg = Some wl ->
          Contains wl (ReadId.MovieName (Id c)) (ReadId.HoleNumber (Id c)) = true)
    /\ F32.ltb (min_element (ChunkSNR c)) (minSnr cfg) = false
    /\ MinPasses (settings cfg) <= Z.of_nat (List.length (Reads c)).
Proof.
  intros Hin. destruct (submitted_origin cfg files v Hin) as (r & rs & Hz & Hp & -> & Hen).
  destruct (passes_filters_true cfg r Hp) as (Hwl & Hchem & Hsnr).
  eexists. exists r. split; [reflexivity|].
  split; [apply (in_all_zmws files (r :: rs) r Hz); now left|].
  split; [reflexivity|]. split; [reflexivity|].
  split; [now apply negb_false_iff|].
  split.
  { intros wl Hsome. unfold off_whitelist in Hwl. rewrite Hsome in Hwl.
    now apply negb_false_iff. }
  split; [exact Hsnr|].
  unfold too_few_passes in Hen. apply Z.ltb_ge in Hen. exact Hen.
Qed.

Lemma submitted_chunks_passed_filters_witness :
  exists c first,
    [Streams.chunk_of Streams.r0 [Streams.r0; Streams.r2]] = [c]
    /\ In first (concat [MoreStreams.file1; MoreStreams.file2])
    /\ Id c = ReadId.mk (BamRecord.MovieName first) (BamRecord.HoleNumber first) None
    /\ (forall wl, whitelist MoreStreams.cfg7 = Some wl ->
          Contains wl (ReadId.MovieName (Id c)) (ReadId.HoleNumber (Id c)) = true).
Proof.
  destruct (submitted_chunks_passed_filters MoreStreams.cfg7
              [MoreStreams.file1; MoreStreams.file2]
              [Streams.chunk_of Streams.r0 [Streams.r0; Streams.r2]])
    as (c & first & Hv & Hin & Hid & _ & _ & Hwl & _).
  { vm_compute. left. reflexivity. }
  exists c, first. repeat split; assumption.
Defined.

(** X4. The loop never submits a read it should have dropped, nor one it
    has made up: every read of every submitted chunk is built from a record
    of the input whose accuracy is not below [minReadScore], carries the
    hole number of its chunk and the query interval of the record. *)
Theorem submitted_reads_are_accurate (cfg : Pipeline)
        (files : list (list BamRecord.t)) (v : list Chunk) (c : Chunk) (s : Subread) :
  In v (submissions (trace (assemble cfg files))) -> In c v -> In s (Reads c) ->
  exists read,
    In read (concat files)
    /\ s = make_subread (ReadId.HoleNumber (Id c)) read
    /\ BamRecord.HoleNumber read = ReadId.HoleNumber (Id c)
    /\ ReadId.HoleNumber (SubreadId s) = ReadId.HoleNumber (Id c)
    /\ ReadId.ZmwInterval (SubreadId s)
       = Some {| Left := BamRecord.QueryStart read; Right := BamRecord.QueryEnd read |}
    /\ F32.ltb (F32.of_Z (SubreadAccuracy s)) (minReadScore cfg) = false.
Proof.
  intros Hin Hc Hs.
  destruct (submitted_origin cfg files v Hin) as (r & rs & Hz & Hp & -> & _).
  destruct Hc as [<-|[]]. unfold extend, new_chunk in Hs. cbn [Reads app] in Hs.
  apply in_map_iff in Hs. destruct Hs as (read & <- & Hread).
  unfold accepted in Hread. apply filter_In in Hread. destruct Hread as [Hread Hacc].
  exists read. split; [apply (in_all_zmws files (r :: rs) read Hz Hread)|].
  split; [reflexivity|]. split.
  { pose proof (all_zmws_runs files) as Hall.
    rewrite Forall_forall in Hall. destruct (Hall _ Hz) as (r0 & rs0 & [= <- <-] & Hsame).
    destruct Hread as [<-|Hread]; [reflexivity|].
    rewrite Forall_forall in Hsame. apply (Hsame _ Hread). }
  split; [reflexivity|]. split; [reflexivity|].
  apply negb_true_iff in Hacc. exact Hacc.
Qed.

Lemma submitted_reads_are_accurate_witness :
  exists read,
    In read (concat [MoreStreams.file1; MoreStreams.file2])
    /\ make_subread 7 Streams.r2 = make_subread 7 read
    /\ BamRecord.HoleNumber read = 7.
Proof.
  destruct (submitted_reads_are_accurate Sample.cfg
              [MoreStreams.file1; MoreStreams.file2]
              [Streams.chunk_of Streams.r0 [Streams.r0; Streams.r2]]
              (Streams.chunk_of Streams.r0 [Streams.r0; Streams.r2])
              (make_subread 7 Streams.r2))
    as (read & Hin & Heq & Hh & _).
  { vm_compute. left. reflexivity. }
  { left. reflexivity. }
  { right. left. reflexivity. }
  exists read. repeat split; assumption.
Defined.

(** X5. The records of a ZMW that fails a filter are ignored whatever their
    accuracy: from its first record to the last before the next boundary
    they leave no log line beyond the one of the filter, no chunk and no
    submission; [poorSNR] goes up once for the ZMW when the filter is the
    SNR one, not once per record, and [tooFewPasses] and the submissions are
    as the flush of the ZMW before left them. *)
Theorem skipped_zmw_is_ignored (cfg : Pipeline) (st : State) (r : BamRecord.t)
        (rs : list BamRecord.t) :
  new_zmw (holeNumber st) r = true ->
  passes_filters cfg r = false ->
  Forall (fun r' => BamRecord.HoleNumber r' = BamRecord.HoleNumber r) rs ->
  let st' := fold_left (on_read cfg) (r :: rs) st in
  trace st' = trace (on_read cfg st r)
  /\ chunk st' = []
  /\ skipZmw st' = true
  /\ submissions (trace st') = submissions (trace (flushed cfg st r))
  /\ tooFewPasses st' = tooFewPasses (flushed cfg st r)
  /\ poorSNR st'
     = (if zmw_poor_snr cfg (r :: rs) then Mach.size_add (poorSNR st) 1 else poorSNR st).
Proof.
  intros Hn Hp Hrs st'.
  destruct (skipped_zmw_reads cfg st r rs Hn Hp Hrs) as (Sc & _ & Ss & Spoor & St & Str).
  destruct (skipped_zmw_reads cfg st r [] Hn Hp (Forall_nil _)) as (_ & _ & _ & _ & _ & Str1).
  simpl in Str1. fold st' in Sc, Ss, Spoor, St, Str.
  destruct (start_zmw_frame cfg (flushed cfg st r) r) as (_ & _ & Hsub).
  destruct (flushed_frame cfg st r) as (Fp & _).
  split; [congruence|]. split; [exact Sc|]. split; [exact Ss|].
  split; [rewrite Str; exact Hsub|]. split; [exact St|].
  rewrite Spoor, (start_zmw_poorSNR cfg _ r rs), Fp. reflexivity.
Qed.

Lemma skipped_zmw_is_ignored_witness :
  trace (fold_left (on_read Sample.cfg) [Streams.u0; Streams.u0; Streams.u0] initial_state)
  = [LogPoorSNR "m1" 10 (minSnr Sample.cfg)]
  /\ poorSNR (fold_left (on_read Sample.cfg) [Streams.u0; Streams.u0; Streams.u0]
                        initial_state) = 1.
Proof.
  assert (Hrs : Forall (fun r' => BamRecord.HoleNumber r'
                                  = BamRecord.HoleNumber Streams.u0)
                       [Streams.u0; Streams.u0])
    by (repeat constructor).
  destruct (skipped_zmw_is_ignored Sample.cfg initial_state Streams.u0
              [Streams.u0; Streams.u0] eq_refl eq_refl Hrs)
    as (Htr & _ & _ & _ & _ & Hpoor).
  split; [exact Htr|exact Hpoor].
Defined.

(** What the run submits and counts depends on the input only through its
    ZMWs. *)
Lemma assemble_by_zmws (cfg : Pipeline) (files files' : list (list BamRecord.t)) :
  all_zmws files = all_zmws files' ->
  submissions (trace (assemble cfg files)) = submissions (trace (assemble cfg files'))
  /\ tooFewPasses (assemble cfg files) = tooFewPasses (assemble cfg files')
  /\ poorSNR (assemble cfg files) = poorSNR (assemble cfg files').
Proof.
  intros Heq.
  pose proof (accounted_files cfg files initial_state [] (accounted_initial cfg)) as H.
  pose proof (accounted_files cfg files' initial_state [] (accounted_initial cfg)) as H'.
  destruct (accounted_finish cfg _ _ H) as (Hsub & Hfew & Hpoor).
  destruct (accounted_finish cfg _ _ H') as (Hsub' & Hfew' & Hpoor').
  simpl app in *. unfold assemble.
  rewrite Hsub, Hfew, Hpoor, Hsub', Hfew', Hpoor', Heq. repeat split.
Qed.

Lemma zmws_app (front : list BamRecord.t) (a b : BamRecord.t)
      (back : list BamRecord.t) :
  BamRecord.HoleNumber a <> BamRecord.HoleNumber b ->
  zmws ((front ++ [a]) ++ b :: back) = zmws (front ++ [a]) ++ zmws (b :: back).
Proof.
  intros Hne. induction front as [|r front IH].
  - simpl app. rewrite (zmws_cons a (b :: back)). cbn [take_same drop_same].
    destruct (Z.eqb_spec (BamRecord.HoleNumber b) (BamRecord.HoleNumber a)) as [He|_];
      [congruence|reflexivity].
  - change (zmws (((r :: front) ++ [a]) ++ b :: back))
      with (match zmws ((front ++ [a]) ++ b :: back) with
            | (r' :: g) :: gs =>
                if BamRecord.HoleNumber r =? BamRecord.HoleNumber r'
                then (r :: r' :: g) :: gs
                else [r] :: (r' :: g) :: gs
            | _ => [[r]]
            end).
    change (zmws ((r :: front) ++ [a]))
      with (match zmws (front ++ [a]) with
            | (r' :: g) :: gs =>
                if BamRecord.HoleNumber r =? BamRecord.HoleNumber r'
                then (r :: r' :: g) :: gs
                else [r] :: (r' :: g) :: gs
            | _ => [[r]]
            end).
    rewrite IH.
    destruct (front ++ [a]) as [|r1 l] eqn:Hf; [destruct front; discriminate|].
    rewrite (zmws_cons r1 l). cbn [app].
    destruct (BamRecord.HoleNumber r =? BamRecord.HoleNumber r1); reflexivity.
Qed.

Lemma all_zmws_app (fs1 fs2 : list (list BamRecord.t)) :
  all_zmws (fs1 ++ fs2) = all_zmws fs1 ++ all_zmws fs2.
Proof. unfold all_zmws. apply flat_map_app. Qed.

(** X6. How the input is spread over files matters only inside a ZMW. Two
    consecutive input files of which the first ends and the second starts
    with different hole numbers can be given as one file, and an input file
    without records can be left out: the submissions and the two counters of
    the producer are the same. *)
Theorem files_joined_at_a_boundary (cfg : Pipeline)
        (before after : list (list BamRecord.t))
        (front : list BamRecord.t) (a b : BamRecord.t) (back : list BamRecord.t) :
  BamRecord.HoleNumber a <> BamRecord.HoleNumber b ->
  let split := before ++ [front ++ [a]; b :: back] ++ after in
  let joined := before ++ [(front ++ [a]) ++ b :: back] ++ after in
  let padded := before ++ [front ++ [a]; []; b :: back] ++ after in
  (submissions (trace (assemble cfg joined)) = submissions (trace (assemble cfg split))
   /\ tooFewPasses (assemble cfg joined) = tooFewPasses (assemble cfg split)
   /\ poorSNR (assemble cfg joined) = poorSNR (assemble cfg split))
  /\ (submissions (trace (assemble cfg padded)) = submissions (trace (assemble cfg split))
      /\ tooFewPasses (assemble cfg padded) = tooFewPasses (assemble cfg split)
      /\ poorSNR (assemble cfg padded) = poorSNR (assemble cfg split)).
Proof.
  intros Hne split joined padded. split; apply assemble_by_zmws.
  - unfold joined, split. rewrite !all_zmws_app. f_equal. f_equal.
    unfold all_zmws. simpl. rewrite !app_nil_r. apply (zmws_app front a b back Hne).
  - unfold padded, split. rewrite !all_zmws_app. reflexivity.
Qed.

Lemma files_joined_at_a_boundary_witness :
  submissions (trace (assemble Sample.cfg
                        [[Streams.r0; Streams.r2; Streams.t0; Streams.t1]]))
  = submissions (trace (assemble Sample.cfg
                        [[Streams.r0; Streams.r2]; [Streams.t0; Streams.t1]])).
Proof.
  assert (Hne : BamRecord.HoleNumber Streams.r2 <> BamRecord.HoleNumber Streams.t0)
    by discriminate.
  destruct (files_joined_at_a_boundary Sample.cfg [] [] [Streams.r0] Streams.r2
              Streams.t0 [Streams.t1] Hne) as ((H & _) & _).
  exact H.
Defined.

(** X7. Without records there is nothing to do: when every input file is
    empty, however many there are, the loop and the flush after it submit
    nothing, log nothing, count nothing and register no movie name. *)
Theorem no_records_no_effect (cfg : Pipeline) (files : list (list BamRecord.t)) :
  Forall (fun f => f = []) files ->
  assemble cfg files = initial_state.
Proof.
  intros Hall. unfold assemble.
  assert (H : process_files cfg initial_state files = initial_state).
  { induction Hall as [|f files Hf _ IH]; [reflexivity|]. subst f. exact IH. }
  rewrite H. reflexivity.
Qed.

Lemma no_records_no_effect_witness :
  assemble Sample.cfg [[]; []; []] = initial_state.
Proof. apply no_records_no_effect. repeat constructor. Defined.

(* ================================================================== *)
(** ** The registry of movie names *)

Lemma existsb_eqb_In (m : string) (l : list string) :
  existsb (String.eqb m) l = true <-> In m l.
Proof.
  rewrite existsb_exists. split.
  - intros (x & Hx & He). apply String.eqb_eq in He. now subst.
  - intros H. exists m. split; [exact H|apply String.eqb_refl].
Qed.

Lemma intern_names (m : string) (st : State) :
  In m (movieNames (intern m st))
  /\ (forall x, In x (movieNames (intern m st)) <-> In x (movieNames st) \/ x = m)
  /\ (NoDup (movieNames st) -> NoDup (movieNames (intern m st))).
Proof.
  unfold intern. destruct (existsb (String.eqb m) (movieNames st)) eqn:He.
  - apply existsb_eqb_In in He. split; [exact He|]. split; [|auto].
    intros x. split; [auto|]. intros [H| ->]; assumption.
  - assert (Hnot : ~ In m (movieNames st)).
    { intros H. apply existsb_eqb_In in H. congruence. }
    simpl. split; [apply in_or_app; right; now left|]. split.
    + intros x. rewrite in_app_iff. simpl. split.
      * intros [H|[<-|[]]]; auto.
      * intros [H| ->]; auto.
    + intros Hnd. apply NoDup_app; [exact Hnd|repeat constructor; intros []|].
      intros x Hx [<-|[]]. contradiction.
Qed.

Lemma on_read_names (cfg : Pipeline) (st : State) (read : BamRecord.t) :
  movieNames (before_accept cfg st read)
  = movieNames (intern (BamRecord.MovieName read) st)
  /\ movieNames (on_read cfg st read)
     = movieNames (intern (BamRecord.MovieName read) st).
Proof.
  assert (Hdrop : forall s, movieNames (drop_short cfg s) = movieNames s).
  { intros s. unfold drop_short. destruct (back (chunk s)) as [c|]; [|reflexivity].
    destruct (too_few_passes cfg c); reflexivity. }
  assert (Hsub : forall s, movieNames (submit_full cfg s) = movieNames s).
  { intros s. unfold submit_full. destruct (_ <=? _)%nat; reflexivity. }
  assert (Hstart : forall s, movieNames (start_zmw cfg s read) = movieNames s).
  { intros s. unfold start_zmw. destruct (off_whitelist cfg read); [reflexivity|].
    destruct (invalid_chemistry read); [reflexivity|].
    destruct (poor_snr cfg read); reflexivity. }
  assert (Hacc : forall s, movieNames (accept_read cfg s read) = movieNames s).
  { intros s. unfold accept_read. destruct (skipZmw s); [reflexivity|].
    destruct (low_accuracy cfg read); reflexivity. }
  assert (Hb : movieNames (before_accept cfg st read)
               = movieNames (intern (BamRecord.MovieName read) st)).
  { unfold before_accept, boundary.
    destruct (new_zmw _ read); [|reflexivity].
    now rewrite Hstart, Hsub, Hdrop. }
  split; [exact Hb|]. rewrite on_read_before_accept, Hacc. exact Hb.
Qed.

Lemma fold_on_read_names (cfg : Pipeline) (reads : list BamRecord.t) :
  forall st,
    NoDup (movieNames st) ->
    NoDup (movieNames (fold_left (on_read cfg) reads st))
    /\ (forall x, In x (movieNames (fold_left (on_read cfg) reads st))
                  <-> In x (movieNames st) \/ In x (map BamRecord.MovieName reads)).
Proof.
  induction reads as [|r reads IH]; intros st Hnd; simpl.
  - split; [exact Hnd|]. intros x. tauto.
  - destruct (on_read_names cfg st r) as [_ Hn].
    destruct (intern_names (BamRecord.MovieName r) st) as (_ & Hiff & Hkeep).
    destruct (IH (on_read cfg st r)) as [Hnd' Hin'].
    { rewrite Hn. now apply Hkeep. }
    split; [exact Hnd'|]. intros x. rewrite Hin', Hn, Hiff.
    split; [intros [[H|H]|H]|intros [H|[H|H]]]; auto.
Qed.

Lemma process_files_names (cfg : Pipeline) (files : list (list BamRecord.t)) :
  forall st,
    NoDup (movieNames st) ->
    NoDup (movieNames (process_files cfg st files))
    /\ (forall x, In x (movieNames (process_files cfg st files))
                  <-> In x (movieNames st)
                      \/ In x (map BamRecord.MovieName (concat files))).
Proof.
  induction files as [|f files IH]; intros st Hnd; simpl.
  - split; [exact Hnd|]. intros x. tauto.
  - destruct (fold_on_read_names cfg f (open_file st) Hnd) as [Hnd1 Hin1].
    destruct (IH (process_file cfg st f) Hnd1) as [Hnd2 Hin2].
    split; [exact Hnd2|]. intros x.
    rewrite Hin2. unfold process_file. rewrite Hin1, map_app, in_app_iff.
    simpl. tauto.
Qed.

(** X8. The registry of movie names holds, at the end of the loop, exactly
    the movie names of the records of the input, each once; and where the
    loop looks a movie name up to build the identity of a chunk or of a
    read, the name of the record at hand is in the registry, so the lookup
    never adds an empty entry. *)
Theorem movie_names_registry (cfg : Pipeline) (files : list (list BamRecord.t)) :
  NoDup (movieNames (assemble cfg files))
  /\ (forall m, In m (movieNames (assemble cfg files))
                <-> exists r, In r (concat files) /\ BamRecord.MovieName r = m)
  /\ (forall reads read,
        In (BamRecord.MovieName read)
           (movieNames (before_accept cfg
                          (fold_left (on_read cfg) reads
                             (open_file (process_files cfg initial_state files)))
                          read))).
Proof.
  destruct (process_files_names cfg files initial_state (NoDup_nil _)) as [Hnd Hin].
  assert (Hfin : forall st, movieNames (finish cfg st) = movieNames st).
  { intros st. unfold finish, submit_rest.
    assert (Hdrop : movieNames (drop_short cfg st) = movieNames st).
    { unfold drop_short. destruct (back (chunk st)) as [c|]; [|reflexivity].
      destruct (too_few_passes cfg c); reflexivity. }
    destruct (chunk (drop_short cfg st)); simpl; exact Hdrop. }
  unfold assemble. rewrite Hfin.
  split; [exact Hnd|]. split.
  - intros m. rewrite Hin. simpl. rewrite in_map_iff. split.
    + intros [[]|(r & Hm & Hr)]. exists r. split; assumption.
    + intros (r & Hr & Hm). right. exists r. split; assumption.
  - intros reads read.
    destruct (on_read_names cfg
                (fold_left (on_read cfg) reads
                   (open_file (process_files cfg initial_state files))) read) as [-> _].
    exact (proj1 (intern_names _ _)).
Qed.

(* ================================================================== *)
(** ** The filters on their own *)

Lemma SFltb_nan_l x : SFltb S754_nan x = false.
Proof. reflexivity. Qed.

Lemma SFltb_nan_r x : SFltb x S754_nan = false.
Proof. destruct x as [[]|[]| |[] m e]; reflexivity. Qed.

Lemma SFltb_true_numbers x y :
  SFltb x y = true -> x <> S754_nan /\ y <> S754_nan.
Proof.
  intros H. split; intros ->; [rewrite SFltb_nan_l in H|rewrite SFltb_nan_r in H];
    discriminate.
Qed.

(** [std::min_element] started on a number steps over every NaN. *)
Lemma min_element_from_below (threshold : F32.t) (rest : list F32.t) :
  forall smallest,
    smallest <> S754_nan ->
    (F32.ltb (min_element_from smallest rest) threshold = true
     <-> Exists (fun x => F32.ltb x threshold = true) (smallest :: rest)).
Proof.
  unfold F32.ltb.
  induction rest as [|x rest IH]; intros s Hs; simpl.
  - split.
    + intros H. now left.
    + intros H. inversion H as [? ? H1|? ? H1]; subst; [exact H1|inversion H1].
  - unfold F32.ltb. destruct (SFltb x s) eqn:Hlt.
    + destruct (SFltb_true_numbers _ _ Hlt) as [Hx _].
      rewrite (IH x Hx). split.
      * intros H. now right.
      * intros H. inversion H as [? ? H1|? ? H1]; subst; [|exact H1].
        left. exact (SFltb_trans _ _ _ Hlt H1).
    + rewrite (IH s Hs). split.
      * intros H. inversion H as [? ? H1|? ? H1]; subst; [now left|].
        right. now right.
      * intros H. inversion H as [? ? H1|? ? H1]; subst; [now left|].
        inversion H1 as [? ? H2|? ? H2]; subst; [|now right].
        left. destruct (SFltb_true_numbers _ _ H2) as [Hx _].
        apply (SFleb_ltb_trans _ x _); [|exact H2].
        now apply SFltb_false_iff_leb.
Qed.

Lemma min_element_from_nan (rest : list F32.t) :
  min_element_from S754_nan rest = S754_nan.
Proof.
  induction rest as [|x rest IH]; [reflexivity|]. simpl.
  unfold F32.ltb. now rewrite SFltb_nan_r.
Qed.

(** X9. The signal filter of line 441 looks at the channels in the order A,
    C, G, T. When channel A holds a number, a ZMW is rejected exactly when
    some channel is below the threshold, and a NaN in another channel is
    stepped over. When channel A is a NaN the filter rejects nothing,
    whatever the other channels and the threshold are; neither does it when
    the threshold is a NaN. *)
Theorem snr_filter_by_channel (cfg : Pipeline) (read : BamRecord.t) :
  let snr := BamRecord.SignalToNoise read in
  (A snr <> S754_nan ->
   (poor_snr cfg read = true
    <-> Exists (fun x => F32.ltb x (minSnr cfg) = true) (snr_vector snr)))
  /\ (A snr = S754_nan -> poor_snr cfg read = false)
  /\ (minSnr cfg = S754_nan -> poor_snr cfg read = false).
Proof.
  intros snr. unfold poor_snr, min_element. fold snr. split; [|split].
  - intros HA. apply (min_element_from_below _ _ _ HA).
  - intros ->. now rewrite min_element_from_nan.
  - intros ->. apply SFltb_nan_r.
Qed.

Lemma substring_prefix (v suffix : string) :
  substring 0 (String.length v) (v ++ suffix) = v.
Proof.
  induction v as [|c v IH]; simpl.
  - destruct suffix; reflexivity.
  - now rewrite IH.
Qed.

Lemma substring_all (n : nat) (s : string) :
  (String.length s <= n)%nat -> substring 0 n s = s.
Proof.
  revert n. induction s as [|c s IH]; intros n Hn.
  - destruct n; reflexivity.
  - destruct n; simpl in *; [lia|]. rewrite IH; [reflexivity|lia].
Qed.

(** X10. [VerifyChemistry] accepts a read group exactly when its binding
    kit is 100356300 or 100372700, its sequencing kit is 100356200 and its
    basecaller version starts with 2.1 or 2.3. Nothing else of the read
    group is looked at, whatever follows the first three characters of the
    version is ignored, and a version shorter than three characters is
    never accepted. *)
Theorem VerifyChemistry_accepts (rg : ReadGroupInfo) :
  (VerifyChemistry rg = true
   <-> (BindingKit rg = "100356300" \/ BindingKit rg = "100372700")
       /\ SequencingKit rg = "100356200"
       /\ (substr0 3 (BasecallerVersion rg) = "2.1"
           \/ substr0 3 (BasecallerVersion rg) = "2.3"))
  /\ (forall rg',
        BindingKit rg' = BindingKit rg ->
        SequencingKit rg' = SequencingKit rg ->
        substr0 3 (BasecallerVersion rg') = substr0 3 (BasecallerVersion rg) ->
        VerifyChemistry rg' = VerifyChemistry rg)
  /\ (forall v suffix,
        String.length v = 3%nat ->
        BasecallerVersion rg = (v ++ suffix)%string ->
        substr0 3 (BasecallerVersion rg) = v)
  /\ ((String.length (BasecallerVersion rg) < 3)%nat -> VerifyChemistry rg = false).
Proof.
  split; [|split; [|split]].
  - unfold VerifyChemistry. cbv zeta.
    destruct (String.eqb_spec (BindingKit rg) "100356300") as [Hb1|Hb1];
    destruct (String.eqb_spec (BindingKit rg) "100372700") as [Hb2|Hb2];
    destruct (String.eqb_spec (SequencingKit rg) "100356200") as [Hs|Hs];
    destruct (String.eqb_spec (substr0 3 (BasecallerVersion rg)) "2.1") as [H1|H1];
    destruct (String.eqb_spec (substr0 3 (BasecallerVersion rg)) "2.3") as [H3|H3];
    simpl; split; try discriminate; try tauto; try congruence;
    intros (Hk & Hq & Hv); try contradiction;
    destruct Hk as [Hk|Hk]; destruct Hv as [Hv|Hv]; contradiction.
  - intros rg' Hb Hs Hv. unfold VerifyChemistry. cbv zeta.
    now rewrite Hb, Hs, Hv.
  - intros v suffix Hlen ->. unfold substr0. rewrite <- Hlen.
    apply substring_prefix.
  - intros Hlen. unfold VerifyChemistry. cbv zeta.
    assert (Hv : substr0 3 (BasecallerVersion rg) = BasecallerVersion rg).
    { unfold substr0. apply substring_all. lia. }
    rewrite Hv.
    assert (H1 : String.eqb (BasecallerVersion rg) "2.1" = false).
    { apply String.eqb_neq. intros He. rewrite He in Hlen. simpl in Hlen. lia. }
    assert (H3 : String.eqb (BasecallerVersion rg) "2.3" = false).
    { apply String.eqb_neq. intros He. rewrite He in Hlen. simpl in Hlen. lia. }
    rewrite H1, H3. simpl. rewrite !andb_false_r. reflexivity.
Qed.

(** X11. With at least one hardware thread the number of worker threads is
    between one and the number of hardware threads, and it is the number of
    hardware threads exactly for [--numThreads 0], for a request of that
    many or more, and on a machine with one. When
    [hardware_concurrency] answers 0, as it may when it cannot tell, a
    request of one thread or more gives a queue of no thread, and a request
    below one gives one thread. *)
Theorem ThreadCount_bounds (hw n : Z) :
  Mach.is_int n ->
  (1 <= hw <= Mach.int_max ->
     1 <= ThreadCount hw n <= hw
     /\ (ThreadCount hw n = hw <-> n = 0 \/ hw <= n \/ hw = 1))
  /\ (hw = 0 -> ThreadCount hw n = if n <? 1 then 1 else 0).
Proof.
  unfold Mach.is_int, Mach.int_max, Mach.int_min. intros Hn.
  assert (Hsmall : forall z, 0 <= z <= 2 ^ 31 - 1 -> Mach.to_size z = z).
  { intros z Hz. apply to_size_small. unfold Mach.is_size, Mach.size_modulus. lia. }
  assert (Hint : forall z, - 2 ^ 31 <= z <= 2 ^ 31 - 1 -> Mach.to_int z = z).
  { intros z Hz. apply to_int_small.
    unfold Mach.is_int, Mach.int_max, Mach.int_min. lia. }
  split.
  - intros Hhw. unfold ThreadCount, Mach.int_add. cbv zeta.
    rewrite (Hint hw) by lia.
    destruct (Z.ltb_spec n 1) as [Hlt|Hge].
    + rewrite (Hint (hw + n)) by lia. rewrite Hsmall by lia. lia.
    + rewrite Hsmall by lia. lia.
  - intros ->. unfold ThreadCount, Mach.int_add. cbv zeta.
    rewrite (Hint 0) by lia.
    destruct (Z.ltb_spec n 1) as [Hlt|Hge].
    + rewrite (Hint (0 + n)) by lia. rewrite Hsmall by lia. lia.
    + rewrite Hsmall by lia. lia.
Qed.

Lemma ThreadCount_bounds_witness :
  1 <= ThreadCount 8 (-3) <= 8 /\ ThreadCount 0 4 = 0.
Proof.
  assert (Hn : forall n, - 2 ^ 31 <= n <= 2 ^ 31 - 1 -> Mach.is_int n).
  { intros n H. exact H. }
  destruct (ThreadCount_bounds 8 (-3) (Hn (-3) ltac:(lia))) as [H8 _].
  destruct (ThreadCount_bounds 0 4 (Hn 4 ltac:(lia))) as [_ H0].
  split.
  - apply H8. unfold Mach.int_max. lia.
  - exact (H0 eq_refl).
Defined.

(* ================================================================== *)
(** ** The report of a run without molecules *)

(** X12. The percentages of the report are a division by the total as a
    double. When the total is 0 no row carries a number: the percentage is a
    NaN for a counter that is 0 and is never finite, so the text of that
    column is whatever the C library prints for a NaN or an infinity. *)
Theorem percentage_of_no_molecules (label : string) (count : Z) (os : ostream) :
  (percentage count 0 = S754_nan
   \/ exists s, percentage count 0 = S754_infinity s)
  /\ percentage 0 0 = S754_nan
  /\ (forall digits, fixed_text digits (percentage count 0) = None)
  /\ In (TDouble (fmtflags os) (precision os) (percentage count 0))
        (written (report_line label count 0 os)).
Proof.
  assert (Hcases : percentage count 0 = S754_nan
                   \/ exists s, percentage count 0 = S754_infinity s).
  { unfold percentage, F64.div.
    change (F64.of_Z 0) with (S754_zero false).
    destruct (F64.mul (F64.of_Z 100) (F64.of_Z count)) as [s|s| |s m e]; simpl.
    - now left.
    - right. now exists (xorb s false).
    - now left.
    - right. now exists (xorb s false). }
  split; [exact Hcases|]. split; [reflexivity|]. split.
  - intros digits. destruct Hcases as [->|[s ->]]; reflexivity.
  - unfold report_line, endl, put_char, put_double, put_string, put_size, put.
    simpl. rewrite !in_app_iff. simpl. tauto.
Qed.

(* ================================================================== *)
(** ** The checks of [main] before the loop *)

Lemma check_options_ok (w : World) (o : Options.t) :
  ~ ConfigError w o ->
  check_options w o = ([], inr (pipeline_of o (whitelist_of w o))).
Proof.
  intros Hno. unfold check_options, when.
  destruct (Z.ltb_spec (Options.MinPasses o) 1) as [Hmin|Hmin].
  { exfalso. apply Hno. now apply InvalidMinPasses. }
  rewrite bind_ret.
  assert (Hwl :
    (if String.eqb (Options.Zmws o) "" then ret None
     else match make_Whitelist w (Options.Zmws o) with
          | Some wl => ret (Some wl)
          | None => parser_error ("option --zmws: invalid specification: '"
                                  ++ Options.Zmws o ++ "'")
          end) = (ret (whitelist_of w o) : Run (option Whitelist))).
  { unfold whitelist_of.
    destruct (String.eqb_spec (Options.Zmws o) "") as [He|He]; [reflexivity|].
    destruct (make_Whitelist w (Options.Zmws o)) as [wl|] eqn:Hw; [reflexivity|].
    exfalso. apply Hno. now apply InvalidZmws. }
  rewrite Hwl, bind_ret.
  destruct (Options.args o) as [|output [|file files]] eqn:Hargs.
  { exfalso. apply Hno. now apply MissingOutput. }
  { exfalso. apply Hno. now apply (MissingFiles _ _ output). }
  rewrite bind_ret. simpl hd.
  destruct (FileExists w output) eqn:Hex, (Options.ForceOutput o) eqn:Hforce;
    simpl; try reflexivity.
  exfalso. apply Hno. now apply (OutputExists _ _ output (file :: files)).
Qed.

(** X13. The checks of the options are made in a fixed order and the first
    that fails decides the message: [--minPasses] below 1, then a [--zmws]
    that does not parse, then no argument at all, then a single argument,
    then an OUTPUT that exists without [--force]. When none fails the checks
    have no effect, and the loop runs with the options as given, with the
    whitelist of [--zmws], or none when [--zmws] is empty. *)
Theorem check_options_outcome (w : World) (o : Options.t) :
  let stops msg := check_options w o = ([ParserError msg], inl ParserExit) in
  let zmws_ok := Options.Zmws o = "" \/ make_Whitelist w (Options.Zmws o) <> None in
  (Options.MinPasses o < 1 ->
     stops "option --minPasses: invalid value: must be >= 1")
  /\ (1 <= Options.MinPasses o -> ~ zmws_ok ->
        stops ("option --zmws: invalid specification: '" ++ Options.Zmws o ++ "'")%string)
  /\ (1 <= Options.MinPasses o -> zmws_ok -> Options.args o = [] ->
        stops "missing OUTPUT")
  /\ (1 <= Options.MinPasses o -> zmws_ok ->
      (exists output, Options.args o = [output]) ->
        stops "missing FILES...")
  /\ (forall output file files,
        1 <= Options.MinPasses o -> zmws_ok ->
        Options.args o = output :: file :: files ->
        FileExists w output = true -> Options.ForceOutput o = false ->
        stops ("OUTPUT: file already exists: '" ++ output ++ "'")%string)
  /\ (forall output file files,
        1 <= Options.MinPasses o -> zmws_ok ->
        Options.args o = output :: file :: files ->
        FileExists w output = false \/ Options.ForceOutput o = true ->
        check_options w o = ([], inr (pipeline_of o (whitelist_of w o)))
        /\ (whitelist_of w o = None <-> Options.Zmws o = "")).
Proof.
  intros stops zmws_ok. subst stops zmws_ok. cbv beta.
  assert (Hmin : 1 <= Options.MinPasses o ->
                 (Options.MinPasses o <? 1) = false)
    by (intros H; now apply Z.ltb_ge).
  assert (Hwl :
    Options.Zmws o = "" \/ make_Whitelist w (Options.Zmws o) <> None ->
    (if String.eqb (Options.Zmws o) "" then ret None
     else match make_Whitelist w (Options.Zmws o) with
          | Some wl => ret (Some wl)
          | None => parser_error ("option --zmws: invalid specification: '"
                                  ++ Options.Zmws o ++ "'")
          end) = (ret (whitelist_of w o) : Run (option Whitelist))).
  { intros Hok. unfold whitelist_of.
    destruct (String.eqb_spec (Options.Zmws o) "") as [He|He]; [reflexivity|].
    destruct (make_Whitelist w (Options.Zmws o)) as [wl|] eqn:Hw; [reflexivity|].
    destruct Hok as [Hok|Hok]; contradiction. }
  split; [|split; [|split; [|split; [|split]]]].
  - intros H. unfold check_options, when.
    destruct (Z.ltb_spec (Options.MinPasses o) 1); [reflexivity|lia].
  - intros H Hbad. unfold check_options, when. rewrite (Hmin H), bind_ret.
    destruct (String.eqb_spec (Options.Zmws o) "") as [He|He].
    { exfalso. apply Hbad. now left. }
    destruct (make_Whitelist w (Options.Zmws o)) as [wl|] eqn:Hw; [|reflexivity].
    exfalso. apply Hbad. right. discriminate.
  - intros H Hok Hargs. unfold check_options, when.
    rewrite (Hmin H), bind_ret, (Hwl Hok), bind_ret, Hargs. reflexivity.
  - intros H Hok (output & Hargs). unfold check_options, when.
    rewrite (Hmin H), bind_ret, (Hwl Hok), bind_ret, Hargs. reflexivity.
  - intros output file files H Hok Hargs Hex Hforce. unfold check_options, when.
    rewrite (Hmin H), bind_ret, (Hwl Hok), bind_ret, Hargs, bind_ret.
    simpl hd. rewrite Hex, Hforce. reflexivity.
  - intros output file files H Hok Hargs Hfree. split.
    + unfold check_options, when.
      rewrite (Hmin H), bind_ret, (Hwl Hok), bind_ret, Hargs, bind_ret.
      simpl hd.
      destruct Hfree as [->| ->]; [reflexivity|].
      destruct (FileExists w output); reflexivity.
    + unfold whitelist_of.
      destruct (String.eqb_spec (Options.Zmws o) "") as [He|He]; [tauto|].
      split; [|contradiction]. intros Hnone.
      destruct Hok as [Hok|Hok]; contradiction.
Qed.

(* ================================================================== *)
(** ** The header of the output *)

Lemma add_read_groups_all (rgs : list ReadGroupInfo) :
  forall acc,
    add_read_groups rgs acc
    = if forallb is_subread rgs
      then ([], inr (acc ++ map ccs_read_group rgs))
      else ([ParserError "invalid input file, READTYPE must be SUBREAD"],
            inl ParserExit).
Proof.
  induction rgs as [|rg rgs IH]; intros acc; simpl.
  - unfold ret. now rewrite app_nil_r.
  - unfold when, is_subread.
    destruct (String.eqb (ReadType rg) "SUBREAD"); simpl; [|reflexivity].
    rewrite IH. fold is_subread.
    destruct (forallb is_subread rgs); [|reflexivity].
    now rewrite <- app_assoc.
Qed.

Lemma header_of_files_app (w : World) (good : list string) :
  forall acc bams more,
    opened w good = Some bams ->
    forallb is_subread (flat_map ReadGroups bams) = true ->
    header_of_files w (good ++ more) acc
    = header_of_files w more
        (acc ++ map ccs_read_group (flat_map ReadGroups bams)).
Proof.
  induction good as [|file good IH]; intros acc bams more Hop Hall; simpl in *.
  - injection Hop as <-. simpl. now rewrite app_nil_r.
  - destruct (open_bam w file) as [bam|]; [|discriminate].
    destruct (opened w good) as [bams'|] eqn:Hrest; [|discriminate].
    injection Hop as <-. simpl in Hall. rewrite forallb_app in Hall.
    apply andb_prop in Hall as [H1 H2].
    rewrite add_read_groups_all, H1.
    change (@pair (list Effect) (Stop + list ReadGroupInfo) []
              (inr (acc ++ map ccs_read_group (ReadGroups bam))))
      with (ret (acc ++ map ccs_read_group (ReadGroups bam))).
    rewrite bind_ret, (IH _ bams' more eq_refl H2).
    simpl. now rewrite map_app, app_assoc.
Qed.

Lemma header_of_files_inv (w : World) (files : list string) :
  forall acc tr out,
    header_of_files w files acc = (tr, inr out) ->
    exists bams, opened w files = Some bams
                 /\ forallb is_subread (flat_map ReadGroups bams) = true.
Proof.
  induction files as [|file files IH]; intros acc tr out H; simpl in *.
  - exists []. split; reflexivity.
  - destruct (open_bam w file) as [bam|]; [|discriminate].
    rewrite add_read_groups_all in H.
    destruct (forallb is_subread (ReadGroups bam)) eqn:Hb; [|discriminate].
    change (@pair (list Effect) (Stop + list ReadGroupInfo) []
              (inr (acc ++ map ccs_read_group (ReadGroups bam))))
      with (ret (acc ++ map ccs_read_group (ReadGroups bam))) in H.
    rewrite bind_ret in H.
    destruct (IH _ _ _ H) as (bams & -> & Hall).
    exists (bam :: bams). split; [reflexivity|].
    simpl. now rewrite forallb_app, Hb, Hall.
Qed.

Lemma PrepareHeader_ok (w : World) (files : list string) (bams : list BamFile) :
  opened w (tl files) = Some bams ->
  forallb is_subread (flat_map ReadGroups bams) = true ->
  PrepareHeader w files
  = ([], inr {| HeaderReadGroups := map ccs_read_group (flat_map ReadGroups bams) |}).
Proof.
  intros Hop Hall. unfold PrepareHeader.
  pose proof (header_of_files_app w (tl files) [] bams [] Hop Hall) as H.
  rewrite app_nil_r in H. rewrite H. reflexivity.
Qed.

(** A failed [PrepareHeader] has written at most an error message. *)
Lemma PrepareHeader_stops (w : World) (files : list string) tr stop :
  PrepareHeader w files = (tr, inl stop) ->
  tr = [] \/ exists msg, tr = [ParserError msg].
Proof.
  unfold PrepareHeader.
  assert (H : forall fs acc tr' stop',
             header_of_files w fs acc = (tr', inl stop') ->
             tr' = [] \/ exists msg, tr' = [ParserError msg]).
  { induction fs as [|file fs IH]; intros acc tr' stop' Hh; simpl in Hh.
    - discriminate.
    - destruct (open_bam w file) as [bam|].
      + rewrite add_read_groups_all in Hh.
        destruct (forallb is_subread (ReadGroups bam)).
        * change (@pair (list Effect) (Stop + list ReadGroupInfo) []
                    (inr (acc ++ map ccs_read_group (ReadGroups bam))))
            with (ret (acc ++ map ccs_read_group (ReadGroups bam))) in Hh.
          rewrite bind_ret in Hh. exact (IH _ _ _ Hh).
        * injection Hh as <- _. right. eexists. reflexivity.
      + injection Hh as <- _. now left. }
  intros Hp.
  destruct (header_of_files w (tl files) []) as [tr' [stop'|rgs]] eqn:Hh.
  - simpl in Hp. injection Hp as <- <-. exact (H _ _ _ _ Hh).
  - simpl in Hp. discriminate.
Qed.

(** X14. [PrepareHeader] skips OUTPUT and goes through the input files and
    their read groups in order. It returns a header exactly when every
    input file can be opened and every read group has READTYPE SUBREAD;
    the header has then been given one CCS read group per input read group,
    in that order and with its movie name, kits, basecaller version and
    frame rate, and nothing was written. The first input file that cannot be opened
    ends the run with an exception, and the first read group of another
    type with the READTYPE error, whatever the files after it are. *)
Theorem PrepareHeader_outcome (w : World) (files : list string) :
  (forall bams,
     opened w (tl files) = Some bams ->
     forallb is_subread (flat_map ReadGroups bams) = true ->
     PrepareHeader w files
     = ([], inr {| HeaderReadGroups :=
                     map ccs_read_group (flat_map ReadGroups bams) |}))
  /\ (forall tr header,
        PrepareHeader w files = (tr, inr header) ->
        exists bams,
          opened w (tl files) = Some bams
          /\ forallb is_subread (flat_map ReadGroups bams) = true)
  /\ (forall output good file rest bams,
        files = output :: good ++ file :: rest ->
        opened w good = Some bams ->
        forallb is_subread (flat_map ReadGroups bams) = true ->
        (open_bam w file = None ->
         PrepareHeader w files = ([], inl Uncaught))
        /\ (forall bam,
              open_bam w file = Some bam ->
              forallb is_subread (ReadGroups bam) = false ->
              PrepareHeader w files
              = ([ParserError "invalid input file, READTYPE must be SUBREAD"],
                 inl ParserExit))).
Proof.
  split; [|split].
  - intros bams. apply PrepareHeader_ok.
  - intros tr header H. unfold PrepareHeader in H.
    destruct (header_of_files w (tl files) []) as [tr' [stop|rgs]] eqn:Hh;
      [discriminate|].
    exact (header_of_files_inv _ _ _ _ _ Hh).
  - intros output good file rest bams -> Hop Hall.
    unfold PrepareHeader. simpl tl.
    rewrite (header_of_files_app w good [] bams (file :: rest) Hop Hall).
    simpl. split.
    + intros ->. reflexivity.
    + intros bam -> Hbad. rewrite add_read_groups_all, Hbad. reflexivity.
Qed.

(* ================================================================== *)
(** ** [main] from end to end *)

Lemma bind_value {X Y : Type} (tr : list Effect) (x : X) (k : X -> Run Y) :
  bind (tr, inr x) k = (tr ++ fst (k x), snd (k x)).
Proof. unfold bind. destruct (k x). reflexivity. Qed.

Lemma setup_logging_value (o : Options.t) :
  setup_logging o = (fst (setup_logging o), inr tt)
  /\ existsb creates_output (fst (setup_logging o)) = false
  /\ existsb is_parser_error (fst (setup_logging o)) = false
  /\ existsb is_loop (fst (setup_logging o)) = false.
Proof.
  unfold setup_logging, when.
  destruct (negb (String.eqb (Options.LogFile o) "")); repeat split.
Qed.

Lemma read_files_queried (w : World) (cfg : Pipeline) (files : list string) :
  forall i st queries,
    queried w i files = Some queries ->
    read_files_from w cfg i st files = (process_files cfg st queries, true).
Proof.
  induction files as [|file files IH]; intros i st queries Hq; simpl in *.
  - injection Hq as <-. reflexivity.
  - destruct (EntireFileQuery w i file) as [query|]; [|discriminate].
    destruct (queried w (S i) files) as [queries'|] eqn:Hrest; [|discriminate].
    injection Hq as <-. simpl. now apply IH.
Qed.

Lemma main_checked (w : World) (o : Options.t) :
  ~ ConfigError w o ->
  main w o
  = (fst (setup_logging o)
     ++ fst (bind (run_pipeline w o (pipeline_of o (whitelist_of w o)))
                  (shutdown w o (pipeline_of o (whitelist_of w o)))),
     snd (bind (run_pipeline w o (pipeline_of o (whitelist_of w o)))
               (shutdown w o (pipeline_of o (whitelist_of w o))))).
Proof.
  intros Hno. unfold main. rewrite (check_options_ok w o Hno).
  rewrite bind_value. simpl app.
  destruct (setup_logging_value o) as (Hlog & _). rewrite Hlog at 1 2.
  rewrite bind_value. reflexivity.
Qed.

(** X15. Input that cannot be used stops the run before there is any
    output: when the options pass the checks and [PrepareHeader] fails, on
    a file it cannot open or on a read group that is not of type SUBREAD,
    [main] ends there, after setting up logging. The output file has not
    been created, no record has been read and nothing has been reported. *)
Theorem bad_input_stops_before_output (w : World) (o : Options.t)
        (tr : list Effect) (stop : Stop) :
  ~ ConfigError w o ->
  PrepareHeader w (Options.args o) = (tr, inl stop) ->
  main w o = (fst (setup_logging o) ++ tr, inl stop)
  /\ existsb creates_output (fst (main w o)) = false
  /\ existsb is_loop (fst (main w o)) = false
  /\ existsb is_shutdown (fst (main w o)) = false.
Proof.
  intros Hno Hhead.
  assert (Hmain : main w o = (fst (setup_logging o) ++ tr, inl stop)).
  { rewrite (main_checked w o Hno). unfold run_pipeline.
    rewrite Hhead. reflexivity. }
  split; [exact Hmain|]. rewrite Hmain. simpl fst.
  destruct (setup_logging_value o) as (_ & Hc & _ & Hl).
  destruct (setup_logging_quiet o) as (trl & Hlog & Hs & _).
  assert (Hfst : fst (setup_logging o) = trl) by (rewrite Hlog; reflexivity).
  rewrite !existsb_app, Hc, Hl, Hfst, Hs.
  destruct (PrepareHeader_stops w _ _ _ Hhead) as [->|(msg & ->)];
    repeat split.
Qed.

Lemma bad_input_stops_before_output_witness :
  main Inputs.world Inputs.wrong_type
  = ([SetLogger "INFO"; InstallSignalHandlers;
      ParserError "invalid input file, READTYPE must be SUBREAD"], inl ParserExit)
  /\ main Inputs.world Inputs.unreadable
     = ([SetLogger "INFO"; InstallSignalHandlers], inl Uncaught).
Proof.
  assert (Hok1 : ~ ConfigError Inputs.world Inputs.wrong_type).
  { intros [H|H1 H2|H|out H|out rest H H1 H2]; simpl in *;
      try lia; try congruence; try discriminate.
    injection H as <- _. discriminate. }
  assert (Hok2 : ~ ConfigError Inputs.world Inputs.unreadable).
  { intros [H|H1 H2|H|out H|out rest H H1 H2]; simpl in *;
      try lia; try congruence; try discriminate.
    injection H as <- _. discriminate. }
  split.
  - destruct (bad_input_stops_before_output Inputs.world Inputs.wrong_type
                [ParserError "invalid input file, READTYPE must be SUBREAD"]
                ParserExit Hok1 eq_refl) as (H & _).
    exact H.
  - destruct (bad_input_stops_before_output Inputs.world Inputs.unreadable
                [] Uncaught Hok2 eq_refl) as (H & _).
    exact H.
Defined.

Lemma run_pipeline_ok (w : World) (o : Options.t) (cfg : Pipeline)
      (bams : list BamFile) (queries : list (list BamRecord.t)) :
  opened w (tl (Options.args o)) = Some bams ->
  forallb is_subread (flat_map ReadGroups bams) = true ->
  queried w 0 (tl (Options.args o)) = Some queries ->
  run_pipeline w o cfg
  = ([CreateBamWriter (hd "" (Options.args o))
        {| HeaderReadGroups := map ccs_read_group (flat_map ReadGroups bams) |}]
     ++ (if Options.PbIndex o
         then [CreatePbiBuilder (hd "" (Options.args o) ++ ".pbi")] else [])
     ++ [CreateWorkQueue (ThreadCount (hardware_concurrency w) (Options.NumThreads o));
         LaunchWriterThread]
     ++ map Loop (trace (assemble cfg queries)),
     inr (assemble cfg queries)).
Proof.
  intros Hop Hall Hq. unfold run_pipeline, read_files.
  rewrite (PrepareHeader_ok w _ bams Hop Hall).
  rewrite (read_files_queried w cfg _ 0 initial_state queries Hq).
  unfold assemble, bind, tell, when, ret.
  destruct (Options.PbIndex o); reflexivity.
Qed.

(** X16. A run goes through when the options pass the checks, every input
    file can be opened for its header and every read group is of type
    SUBREAD, every query of the loop succeeds, and the queue has at least
    one thread. [main] then returns 0 after, in this order: setting up
    logging, creating the output file at OUTPUT with the header of
    [PrepareHeader], creating the index at OUTPUT.pbi when [--pbi] is given,
    creating the queue with [ThreadCount] threads, launching the writer,
    running the loop over the records the queries find, finalizing the
    queue, joining the writer and writing the report. The records are those
    found when the loop asks, after OUTPUT has been created: for an input
    that is also OUTPUT they are not those of the file as it was. The output
    file is created once, and what is submitted to the queue is one chunk
    for every ZMW of the records found that passes the filters and has
    enough passes. *)
Theorem main_success (w : World) (o : Options.t) (bams : list BamFile)
        (queries : list (list BamRecord.t)) :
  ~ ConfigError w o ->
  opened w (tl (Options.args o)) = Some bams ->
  forallb is_subread (flat_map ReadGroups bams) = true ->
  queried w 0 (tl (Options.args o)) = Some queries ->
  1 <= ThreadCount (hardware_concurrency w) (Options.NumThreads o) ->
  let cfg := pipeline_of o (whitelist_of w o) in
  let st := assemble cfg queries in
  let counts := add_rejections (writer_counts w cfg st)
                               (poorSNR st) (tooFewPasses st) in
  main w o
  = (startup w o bams
     ++ map Loop (trace st)
     ++ [QueueFinalize; WriterGet;
         Report (report_target o) (written (WriteResultsReport fresh_stream counts))],
     inr 0)
  /\ filter creates_output (fst (main w o))
     = [CreateBamWriter (hd "" (Options.args o))
          {| HeaderReadGroups := map ccs_read_group (flat_map ReadGroups bams) |}]
  /\ existsb is_parser_error (fst (main w o)) = false
  /\ submitted_by (fst (main w o))
     = map (fun c => [c])
           (filter (fun c => negb (too_few_passes cfg c))
                   (started cfg queries)).
Proof.
  intros Hno Hop Hall Hq _ cfg st counts.
  assert (Hmain : main w o
     = (startup w o bams
        ++ map Loop (trace st)
        ++ [QueueFinalize; WriterGet;
            Report (report_target o)
                   (written (WriteResultsReport fresh_stream counts))],
        inr 0)).
  { rewrite (main_checked w o Hno). fold cfg.
    rewrite (run_pipeline_ok w o cfg bams queries Hop Hall Hq). fold st.
    rewrite bind_value. unfold startup, shutdown, bind, tell, ret.
    simpl fst. simpl snd. f_equal.
    rewrite <- !app_assoc. reflexivity. }
  split; [exact Hmain|]. rewrite Hmain. simpl fst.
  destruct (setup_logging_value o) as (_ & Hc & Hp & Hl).
  destruct (setup_logging_quiet o) as (trl & Hlog & _ & Hs & _).
  assert (Hfst : fst (setup_logging o) = trl) by (rewrite Hlog; reflexivity).
  assert (Hloop : forall tr, filter creates_output (map Loop tr) = []
                             /\ existsb is_parser_error (map Loop tr) = false).
  { induction tr as [|e tr [IH1 IH2]]; split; simpl; auto. }
  assert (Hnone : forall l, existsb creates_output l = false ->
                            filter creates_output l = []).
  { induction l as [|e l IH]; [reflexivity|]. simpl.
    destruct (creates_output e); [discriminate|]. exact IH. }
  destruct (Hloop (trace st)) as [Hl1 Hl2].
  split; [|split].
  - unfold startup. rewrite !filter_app, (Hnone _ Hc), Hl1.
    destruct (Options.PbIndex o); reflexivity.
  - unfold startup. rewrite !existsb_app, Hp, Hl2.
    destruct (Options.PbIndex o); reflexivity.
  - unfold startup. rewrite !submitted_by_app, Hfst, Hs, submitted_by_loop.
    destruct (Options.PbIndex o); simpl; rewrite app_nil_r;
      pose proof (accounted_files cfg queries initial_state []
                    (accounted_initial cfg)) as Hacc;
      apply (accounted_finish cfg _ _ Hacc).
Qed.

Lemma main_success_witness :
  exists tokens,
    main SampleWorld.world Inputs.forced
    = ([OpenLogFile "ccs.log"; SetLogger "DEBUG"; InstallSignalHandlers;
        CreateBamWriter "old.bam"
          {| HeaderReadGroups := [ccs_read_group Sample.p6c4;
                                  ccs_read_group Sample.p6c4] |};
        CreatePbiBuilder "old.bam.pbi";
        CreateWorkQueue 2; LaunchWriterThread;
        Loop (LogLowAccuracy "m1/7/10_20" 500
                (F32.mul (F32.of_Z 1000) (Sample.f32 3 (-2))));
        Loop (ProduceWith [Streams.chunk_of Streams.r0 [Streams.r0; Streams.r2]]
                {| MinPasses := 2 |});
        QueueFinalize; WriterGet; Report ToStdout tokens], inr 0).
Proof.
  assert (Hok : ~ ConfigError SampleWorld.world Inputs.forced).
  { intros [H|H1 H2|H|out H|out rest H H1 H2]; simpl in *;
      try lia; try congruence; try discriminate. }
  assert (Hthreads : 1 <= ThreadCount (hardware_concurrency SampleWorld.world)
                                      (Options.NumThreads Inputs.forced))
    by (vm_compute; discriminate).
  destruct (main_success SampleWorld.world Inputs.forced
              [SampleWorld.in1; SampleWorld.in2]
              [Query SampleWorld.in1; Query SampleWorld.in2]
              Hok eq_refl eq_refl eq_refl Hthreads)
    as (H & _).
  eexists. rewrite H. vm_compute. reflexivity.
Defined.

(* ================================================================== *)
(** ** The writer *)

Lemma fold_write_one (ccss : list CCS) :
  forall out,
    ccsBam (fold_left write_one ccss out) = ccsBam out ++ map make_record ccss
    /\ flushes (fold_left write_one ccss out) = flushes out
    /\ option_map (map fst) (ccsPbi (fold_left write_one ccss out))
       = option_map (fun idx => idx ++ map make_record ccss)
                    (option_map (map fst) (ccsPbi out)).
Proof.
  induction ccss as [|ccs ccss IH]; intros out; simpl.
  - rewrite app_nil_r. repeat split.
    destruct (ccsPbi out); simpl; [now rewrite app_nil_r|reflexivity].
  - destruct (IH (write_one out ccs)) as (Hb & Hf & Hp).
    rewrite Hb, Hf, Hp. unfold write_one. simpl.
    rewrite <- app_assoc. repeat split.
    destruct (ccsPbi out); simpl; [|reflexivity].
    now rewrite map_app, <- app_assoc.
Qed.

(** X17. The writer thread writes one record per consensus, in the order
    the results are handed to it and, within a result, in the order of its
    records; it adds the same records in the same order to the index when
    there is one, never creates an index of its own, and flushes the output
    once per result, also for a result without records. *)
Theorem WriterThread_output (delivered : list Results) (out : Sink) :
  let out' := fst (WriterThread delivered out) in
  ccsBam out' = ccsBam out ++ map make_record (flat_map Records delivered)
  /\ flushes out' = (flushes out + List.length delivered)%nat
  /\ (ccsPbi out = None -> ccsPbi out' = None)
  /\ (forall idx,
        ccsPbi out = Some idx ->
        exists idx',
          ccsPbi out' = Some idx'
          /\ map fst idx'
             = map fst idx ++ map make_record (flat_map Records delivered)).
Proof.
  unfold WriterThread. generalize empty_results as counts.
  revert out. induction delivered as [|results delivered IH]; intros out counts.
  - simpl. rewrite app_nil_r, Nat.add_0_r.
    split; [reflexivity|]. split; [reflexivity|]. split; [exact (fun H => H)|].
    intros idx ->. exists idx. now rewrite app_nil_r.
  - cbn [fold_left flat_map List.length].
    destruct (fold_write_one (Records results) out) as (Hb & Hf & Hp).
    specialize (IH (fst (Writer (out, counts) results))
                   (snd (Writer (out, counts) results))).
    rewrite <- surjective_pairing in IH. cbv zeta in IH.
    change (ccsBam (fst (Writer (out, counts) results)))
      with (ccsBam (fold_left write_one (Records results) out)) in IH.
    change (flushes (fst (Writer (out, counts) results)))
      with (S (flushes (fold_left write_one (Records results) out))) in IH.
    change (ccsPbi (fst (Writer (out, counts) results)))
      with (ccsPbi (fold_left write_one (Records results) out)) in IH.
    destruct IH as (IHb & IHf & IHn & IHs).
    cbv zeta. rewrite IHb, IHf, Hb, Hf, map_app, <- app_assoc.
    split; [reflexivity|]. split; [lia|]. split.
    + intros Hnone. apply IHn. rewrite Hnone in Hp. simpl in Hp.
      destruct (ccsPbi (fold_left write_one (Records results) out));
        [discriminate|reflexivity].
    + intros idx Hidx. rewrite Hidx in Hp. simpl in Hp.
      destruct (ccsPbi (fold_left write_one (Records results) out)) as [mid|] eqn:Hm;
        [|discriminate].
      destruct (IHs mid eq_refl) as (idx' & Hi & Hmap).
      exists idx'. split; [exact Hi|]. rewrite Hmap.
      simpl in Hp. injection Hp as ->. now rewrite <- app_assoc.
Qed.

(* ================================================================== *)
(** ** The log of the loop *)

Lemma logged_frame (cfg : Pipeline) (st st' : State) :
  trace st' = trace st -> tooFewPasses st' = tooFewPasses st ->
  poorSNR st' = poorSNR st -> logged cfg st -> logged cfg st'.
Proof. unfold logged. intros -> -> ->. exact (fun H => H). Qed.

Lemma logged_emit (cfg : Pipeline) (e : Event) (st : State) :
  well_logged cfg e -> is_too_few_log e = false -> is_poor_snr_log e = false ->
  logged cfg st -> logged cfg (emit e st).
Proof.
  intros He Hf Hp (H1 & H2 & H3). unfold logged, emit. simpl.
  rewrite !filter_app. simpl. rewrite Hf, Hp, !app_nil_r.
  repeat split; try assumption.
  apply Forall_app. split; [exact H3|]. constructor; [exact He|constructor].
Qed.

Lemma logged_drop_short (cfg : Pipeline) (st : State) :
  logged cfg st -> logged cfg (drop_short cfg st).
Proof.
  intros (H1 & H2 & H3). unfold drop_short.
  destruct (back (chunk st)) as [c|]; [|now repeat split].
  destruct (too_few_passes cfg c) eqn:Hshort; [|now repeat split].
  unfold logged. simpl. rewrite !filter_app. simpl.
  rewrite app_nil_r, length_app, H1, size_add_to_size. simpl.
  split; [f_equal; lia|]. split; [exact H2|].
  apply Forall_app. split; [exact H3|].
  constructor; [|constructor]. simpl. split; [|reflexivity].
  unfold too_few_passes in Hshort. now apply Z.ltb_lt.
Qed.

Lemma logged_submit (cfg : Pipeline) (st : State) :
  logged cfg st ->
  logged cfg (submit_full cfg st) /\ logged cfg (submit_rest cfg st).
Proof.
  intros H. unfold submit_full, submit_rest. split.
  - destruct (_ <=? _)%nat; [|exact H].
    apply (logged_frame cfg (emit (ProduceWith (chunk st) (settings cfg)) st));
      try reflexivity.
    now apply logged_emit.
  - destruct (chunk st) as [|c v] eqn:Hc; [exact H|].
    apply (logged_frame cfg (emit (ProduceWith (c :: v) (settings cfg)) st));
      try reflexivity.
    now apply logged_emit.
Qed.

Lemma logged_start_zmw (cfg : Pipeline) (st : State) (read : BamRecord.t) :
  logged cfg st -> logged cfg (start_zmw cfg st read).
Proof.
  intros H. unfold start_zmw. cbv zeta.
  destruct (off_whitelist cfg read); [exact H|].
  destruct (invalid_chemistry read).
  { apply (logged_frame cfg
             (emit (LogInvalidChemistry (BamRecord.MovieName read)
                                        (BamRecord.HoleNumber read)) st));
      try reflexivity.
    now apply logged_emit. }
  destruct (poor_snr cfg read); [|exact H].
  destruct H as (H1 & H2 & H3). unfold logged. simpl.
  rewrite !filter_app. simpl.
  rewrite app_nil_r, length_app, H2, size_add_to_size. simpl.
  split; [exact H1|]. split; [f_equal; lia|].
  apply Forall_app. split; [exact H3|]. constructor; [reflexivity|constructor].
Qed.

Lemma logged_on_read (cfg : Pipeline) (st : State) (read : BamRecord.t) :
  logged cfg st -> logged cfg (on_read cfg st read).
Proof.
  intros H. unfold on_read. cbv zeta.
  assert (Hi : logged cfg (intern (BamRecord.MovieName read) st)).
  { unfold intern. destruct (existsb _ _); exact H. }
  set (st1 := intern (BamRecord.MovieName read) st) in *.
  assert (Hb : logged cfg (if new_zmw (holeNumber st1) read
                           then boundary cfg st1 read else st1)).
  { destruct (new_zmw (holeNumber st1) read); [|exact Hi].
    unfold boundary. apply logged_start_zmw.
    apply (proj1 (logged_submit cfg _ (logged_drop_short cfg _ Hi))). }
  set (st2 := if new_zmw (holeNumber st1) read
              then boundary cfg st1 read else st1) in *.
  unfold accept_read. destruct (skipZmw st2); [exact Hb|].
  destruct (low_accuracy cfg read) eqn:Hlow; [|exact Hb].
  apply logged_emit; try reflexivity; [|exact Hb].
  simpl. split; [reflexivity|exact Hlow].
Qed.

Lemma logged_files (cfg : Pipeline) (files : list (list BamRecord.t)) :
  forall st, logged cfg st -> logged cfg (process_files cfg st files).
Proof.
  induction files as [|f files IH]; intros st H; [exact H|].
  simpl. apply IH. unfold process_file.
  assert (Ho : logged cfg (open_file st)) by exact H.
  revert Ho. generalize (open_file st).
  induction f as [|r f IHf]; intros s Hs; [exact Hs|].
  simpl. apply IHf. now apply logged_on_read.
Qed.

(** X18. The two counters of the loop and its log agree: every ZMW counted
    as having too few passes has its line in the log, with a number of
    passes below [--minPasses], and every ZMW counted as below the SNR
    threshold has its line, with the threshold of the run; no such line is
    written without the count. A read logged as of low accuracy is below
    the read score of the run, and every submission carries the settings of
    the run. ZMWs rejected for their chemistry are logged and ZMWs off the
    whitelist are not, and neither changes a counter. *)
Theorem counters_match_log (cfg : Pipeline) (files : list (list BamRecord.t)) :
  let st := assemble cfg files in
  tooFewPasses st
  = Mach.to_size (Z.of_nat (List.length (filter is_too_few_log (trace st))))
  /\ poorSNR st
     = Mach.to_size (Z.of_nat (List.length (filter is_poor_snr_log (trace st))))
  /\ Forall (well_logged cfg) (trace st)
  /\ (forall s read,
        off_whitelist cfg read = true \/ invalid_chemistry read = true ->
        tooFewPasses (start_zmw cfg s read) = tooFewPasses s
        /\ poorSNR (start_zmw cfg s read) = poorSNR s
        /\ filter is_too_few_log (trace (start_zmw cfg s read))
           = filter is_too_few_log (trace s)
        /\ filter is_poor_snr_log (trace (start_zmw cfg s read))
           = filter is_poor_snr_log (trace s)).
Proof.
  intros st.
  assert (Hinit : logged cfg initial_state).
  { unfold logged. simpl. repeat split. constructor. }
  pose proof (logged_files cfg files _ Hinit) as Hloop.
  pose proof (proj2 (logged_submit cfg _ (logged_drop_short cfg _ Hloop))) as Hend.
  destruct Hend as (H1 & H2 & H3).
  split; [exact H1|]. split; [exact H2|]. split; [exact H3|].
  intros s read Hrej. unfold start_zmw. cbv zeta.
  destruct (off_whitelist cfg read); [repeat split|].
  destruct Hrej as [Hrej|Hrej]; [discriminate|]. rewrite Hrej. simpl.
  rewrite !filter_app. simpl. rewrite !app_nil_r. repeat split.
Qed.

(* ================================================================== *)
(** ** The whitelist *)

Lemma zmws_of_a_run (r : BamRecord.t) (rs : list BamRecord.t) :
  Forall (fun r' => BamRecord.HoleNumber r' = BamRecord.HoleNumber r) rs ->
  zmws (r :: rs) = [r :: rs].
Proof.
  intros Hall. rewrite zmws_cons.
  assert (H : take_same (BamRecord.HoleNumber r) rs = rs
              /\ drop_same (BamRecord.HoleNumber r) rs = []).
  { induction Hall as [|r' rs' Hr' _ [IH1 IH2]]; [split; reflexivity|].
    simpl. rewrite Hr', Z.eqb_refl, IH1, IH2. split; reflexivity. }
  destruct H as [-> ->]. reflexivity.
Qed.

Lemma all_zmws_of_runs (zs : list (list BamRecord.t)) :
  Forall (fun zmw => exists r rs,
            zmw = r :: rs
            /\ Forall (fun r' => BamRecord.HoleNumber r' = BamRecord.HoleNumber r) rs)
         zs ->
  all_zmws zs = zs.
Proof.
  unfold all_zmws. induction 1 as [|z zs (r & rs & -> & Hrun) _ IH]; [reflexivity|].
  cbn [flat_map]. rewrite (zmws_of_a_run r rs Hrun), IH. reflexivity.
Qed.

Lemma Forall_filter_keeps {X : Type} (P : X -> Prop) (f : X -> bool) (l : list X) :
  Forall P l -> Forall P (filter f l).
Proof.
  induction 1 as [|x l Hx _ IH]; [constructor|]. simpl.
  destruct (f x); [constructor; assumption|assumption].
Qed.

Lemma whitelist_on_zmws (cfg : Pipeline) (wl : Whitelist)
      (zs : list (list BamRecord.t)) :
  flat_map (zmw_chunk (with_whitelist cfg (Some wl))) zs
  = flat_map (zmw_chunk (with_whitelist cfg None)) (filter (on_whitelist wl) zs)
  /\ filter (zmw_poor_snr (with_whitelist cfg (Some wl))) zs
     = filter (zmw_poor_snr (with_whitelist cfg None)) (filter (on_whitelist wl) zs).
Proof.
  induction zs as [|z zs [IH1 IH2]]; [split; reflexivity|].
  destruct z as [|r rs].
  - simpl. split; assumption.
  - assert (Hc : zmw_chunk (with_whitelist cfg (Some wl)) (r :: rs)
                 = if Contains wl (BamRecord.MovieName r) (BamRecord.HoleNumber r)
                   then zmw_chunk (with_whitelist cfg None) (r :: rs) else []).
    { unfold zmw_chunk, passes_filters, off_whitelist.
      cbn [whitelist with_whitelist].
      destruct (Contains wl _ _); reflexivity. }
    assert (Hp : zmw_poor_snr (with_whitelist cfg (Some wl)) (r :: rs)
                 = if Contains wl (BamRecord.MovieName r) (BamRecord.HoleNumber r)
                   then zmw_poor_snr (with_whitelist cfg None) (r :: rs) else false).
    { unfold zmw_poor_snr, off_whitelist. cbn [whitelist with_whitelist].
      destruct (Contains wl _ _); reflexivity. }
    cbn [flat_map filter on_whitelist]. rewrite Hc, Hp, IH1, IH2.
    destruct (Contains wl (BamRecord.MovieName r) (BamRecord.HoleNumber r));
      split; reflexivity.
Qed.

(** X19. A whitelist selects ZMWs as the loop cuts them, before anything
    else is looked at: a run with a whitelist submits and counts what a run
    without one does on the listed ZMWs alone, each given as a file of its
    own, where a ZMW is listed when the movie name and hole number of its
    first record are. ZMWs off the list are not counted and not submitted. *)
Theorem whitelist_selects_zmws (cfg : Pipeline) (wl : Whitelist)
        (files : list (list BamRecord.t)) :
  let listed := filter (on_whitelist wl) (all_zmws files) in
  let selective := assemble (with_whitelist cfg (Some wl)) files in
  let plain := assemble (with_whitelist cfg None) listed in
  submissions (trace selective) = submissions (trace plain)
  /\ tooFewPasses selective = tooFewPasses plain
  /\ poorSNR selective = poorSNR plain.
Proof.
  intros listed selective plain.
  pose proof (accounted_files (with_whitelist cfg (Some wl)) files initial_state []
                (accounted_initial _)) as H.
  pose proof (accounted_files (with_whitelist cfg None) listed initial_state []
                (accounted_initial _)) as H'.
  destruct (accounted_finish _ _ _ H) as (Hsub & Hfew & Hpoor).
  destruct (accounted_finish _ _ _ H') as (Hsub' & Hfew' & Hpoor').
  simpl app in *.
  assert (Hl : all_zmws listed = listed).
  { apply all_zmws_of_runs. apply Forall_filter_keeps. apply all_zmws_runs. }
  rewrite Hl in Hsub', Hfew', Hpoor'.
  destruct (whitelist_on_zmws cfg wl (all_zmws files)) as [Hc Hp].
  fold listed in Hc, Hp.
  unfold selective, plain, assemble.
  rewrite Hsub, Hfew, Hpoor, Hsub', Hfew', Hpoor', Hc, Hp.
  split; [reflexivity|]. split; reflexivity.
Qed.
